(** * Verification of the mmhuman3d keypoint tables, SPIN configuration and
    SMPL-X estimator losses.

    The development follows the Python sources:
    - [core/conventions/keypoints_mapping/openpose.py] (module [Openpose]),
    - [configs/spin/resnet50_spin_pw3d.py] (modules [SpinConfig] and
      [SpinPipelines]),
    - [models/architectures/expressive_mesh_estimator.py] (modules [Estimator],
      [RequiresGrad] and [ImageEstimator]).

    The registrant class that reads the SPIN configuration is not among the
    sources; the module [Smplify] models it from the specification.

    The modules whose name ends in [Spec] hold the properties the
    specification states: [OpenposeSpec], [SpinConfigSpec], [EstimatorSpec],
    [ConfidenceSpec], [AdversarialSpec] and [EntryPointsSpec].  The modules
    whose name ends in [Laws] hold further properties of the code: of the
    loss terms, of [compute_losses], of the training step and the test call,
    of the tables, of the data settings of the SPIN configuration and of
    [set_requires_grad].
*)

From Stdlib Require Import ZArith List String Bool Lia QArith Qcanon Field.
From Stdlib Require Import SpecFloat.
From stdpp Require Import base option list strings gmap.

Set Default Proof Using "Type".
Set Warnings "-register-all".
#[local] Open Scope Z_scope.

(* ===================================================================== *)
(** ** OpenPose keypoint conventions (openpose.py)                        *)
(* ===================================================================== *)

Module Openpose.

Definition OPENPOSE_135_KEYPOINTS : list string := [
  "nose"; "left_eye"; "right_eye"; "left_ear"; "right_ear";
  "left_shoulder"; "right_shoulder"; "left_elbow"; "right_elbow";
  "left_wrist"; "right_wrist"; "left_hip"; "right_hip"; "left_knee";
  "right_knee"; "left_ankle"; "right_ankle"; "neck"; "head"; "left_bigtoe";
  "left_smalltoe"; "left_heel"; "right_bigtoe"; "right_smalltoe";
  "right_heel"; "left_thumb_1"; "left_thumb_2"; "left_thumb_3";
  "left_thumb"; "left_index_1"; "left_index_2"; "left_index_3";
  "left_index"; "left_middle_1"; "left_middle_2"; "left_middle_3";
  "left_middle"; "left_ring_1"; "left_ring_2"; "left_ring_3"; "left_ring";
  "left_pinky_1"; "left_pinky_2"; "left_pinky_3"; "left_pinky";
  "right_thumb_1"; "right_thumb_2"; "right_thumb_3"; "right_thumb";
  "right_index_1"; "right_index_2"; "right_index_3"; "right_index";
  "right_middle_1"; "right_middle_2"; "right_middle_3"; "right_middle";
  "right_ring_1"; "right_ring_2"; "right_ring_3"; "right_ring";
  "right_pinky_1"; "right_pinky_2"; "right_pinky_3"; "right_pinky";
  "right_contour_1"; "right_contour_2"; "right_contour_3";
  "right_contour_4"; "right_contour_5"; "right_contour_6";
  "right_contour_7"; "right_contour_8"; "contour_middle"; "left_contour_8";
  "left_contour_7"; "left_contour_6"; "left_contour_5"; "left_contour_4";
  "left_contour_3"; "left_contour_2"; "left_contour_1"; "right_eyebrow_1";
  "right_eyebrow_2"; "right_eyebrow_3"; "right_eyebrow_4";
  "right_eyebrow_5"; "left_eyebrow_5"; "left_eyebrow_4"; "left_eyebrow_3";
  "left_eyebrow_2"; "left_eyebrow_1"; "nosebridge_1"; "nosebridge_2";
  "nosebridge_3"; "nosebridge_4"; "right_nose_2"; "right_nose_1";
  "nose_middle"; "left_nose_1"; "left_nose_2"; "right_eye_1";
  "right_eye_2"; "right_eye_3"; "right_eye_4"; "right_eye_5";
  "right_eye_6"; "left_eye_4"; "left_eye_3"; "left_eye_2"; "left_eye_1";
  "left_eye_6"; "left_eye_5"; "right_mouth_1"; "right_mouth_2";
  "right_mouth_3"; "mouth_top"; "left_mouth_3"; "left_mouth_2";
  "left_mouth_1"; "left_mouth_5"; "left_mouth_4"; "mouth_bottom";
  "right_mouth_4"; "right_mouth_5"; "right_lip_1"; "right_lip_2";
  "lip_top"; "left_lip_2"; "left_lip_1"; "left_lip_3"; "lip_bottom";
  "right_lip_3"; "right_eyeball"; "left_eyeball"
]%string.

Definition OPENPOSE_25_KEYPOINTS : list string := [
  "nose_openpose"; "neck_openpose"; "right_shoulder_openpose";
  "right_elbow_openpose"; "right_wrist_openpose"; "left_shoulder_openpose";
  "left_elbow_openpose"; "left_wrist_openpose"; "pelvis_openpose";
  "right_hip_openpose"; "right_knee_openpose"; "right_ankle_openpose";
  "left_hip_openpose"; "left_knee_openpose"; "left_ankle_openpose";
  "right_eye_openpose"; "left_eye_openpose"; "right_ear_openpose";
  "left_ear_openpose"; "left_bigtoe_openpose"; "left_smalltoe_openpose";
  "left_heel_openpose"; "right_bigtoe_openpose"; "right_smalltoe_openpose";
  "right_heel_openpose"
]%string.

Definition OPENPOSE_118_KEYPOINTS : list string := [
  "nose_openpose"; "neck_openpose"; "right_shoulder_openpose";
  "right_elbow_openpose"; "right_wrist_openpose"; "left_shoulder_openpose";
  "left_elbow_openpose"; "left_wrist_openpose"; "pelvis_openpose";
  "right_hip_openpose"; "right_knee_openpose"; "right_ankle_openpose";
  "left_hip_openpose"; "left_knee_openpose"; "left_ankle_openpose";
  "right_eye_openpose"; "left_eye_openpose"; "right_ear_openpose";
  "left_ear_openpose"; "left_bigtoe_openpose"; "left_smalltoe_openpose";
  "left_heel_openpose"; "right_bigtoe_openpose"; "right_smalltoe_openpose";
  "right_heel_openpose"; "left_wrist"; "left_thumb_1"; "left_thumb_2";
  "left_thumb_3"; "left_thumb"; "left_index_1"; "left_index_2";
  "left_index_3"; "left_index"; "left_middle_1"; "left_middle_2";
  "left_middle_3"; "left_middle"; "left_ring_1"; "left_ring_2";
  "left_ring_3"; "left_ring"; "left_pinky_1"; "left_pinky_2";
  "left_pinky_3"; "left_pinky"; "right_wrist"; "right_thumb_1";
  "right_thumb_2"; "right_thumb_3"; "right_thumb"; "right_index_1";
  "right_index_2"; "right_index_3"; "right_index"; "right_middle_1";
  "right_middle_2"; "right_middle_3"; "right_middle"; "right_ring_1";
  "right_ring_2"; "right_ring_3"; "right_ring"; "right_pinky_1";
  "right_pinky_2"; "right_pinky_3"; "right_pinky"; "right_eyebrow_1";
  "right_eyebrow_2"; "right_eyebrow_3"; "right_eyebrow_4";
  "right_eyebrow_5"; "left_eyebrow_5"; "left_eyebrow_4"; "left_eyebrow_3";
  "left_eyebrow_2"; "left_eyebrow_1"; "nosebridge_1"; "nosebridge_2";
  "nosebridge_3"; "nosebridge_4"; "right_nose_2"; "right_nose_1";
  "nose_middle"; "left_nose_1"; "left_nose_2"; "right_eye_1";
  "right_eye_2"; "right_eye_3"; "right_eye_4"; "right_eye_5";
  "right_eye_6"; "left_eye_4"; "left_eye_3"; "left_eye_2"; "left_eye_1";
  "left_eye_6"; "left_eye_5"; "right_mouth_1"; "right_mouth_2";
  "right_mouth_3"; "mouth_top"; "left_mouth_3"; "left_mouth_2";
  "left_mouth_1"; "left_mouth_5"; "left_mouth_4"; "mouth_bottom";
  "right_mouth_4"; "right_mouth_5"; "right_lip_1"; "right_lip_2";
  "lip_top"; "left_lip_2"; "left_lip_1"; "left_lip_3"; "lip_bottom";
  "right_lip_3"
]%string.

Definition OPENPOSE_JOINTS : list string := [
  "nose"; "neck"; "right_shoulder"; "right_elbow"; "right_wrist";
  "left_shoulder"; "left_elbow"; "left_wrist"; "pelvis"; "right_hip";
  "right_knee"; "right_ankle"; "left_hip"; "left_knee"; "left_ankle";
  "right_eye"; "left_eye"; "right_ear"; "left_ear"; "left_wrist";
  "left_thumb_1"; "left_thumb_2"; "left_thumb_3"; "left_thumb";
  "left_index_1"; "left_index_2"; "left_index_3"; "left_index";
  "left_middle_1"; "left_middle_2"; "left_middle_3"; "left_middle";
  "left_ring_1"; "left_ring_2"; "left_ring_3"; "left_ring"; "left_pinky_1";
  "left_pinky_2"; "left_pinky_3"; "left_pinky"; "right_wrist";
  "right_thumb_1"; "right_thumb_2"; "right_thumb_3"; "right_thumb";
  "right_index_1"; "right_index_2"; "right_index_3"; "right_index";
  "right_middle_1"; "right_middle_2"; "right_middle_3"; "right_middle";
  "right_ring_1"; "right_ring_2"; "right_ring_3"; "right_ring";
  "right_pinky_1"; "right_pinky_2"; "right_pinky_3"; "right_pinky";
  "right_contour_1"; "right_contour_2"; "right_contour_3";
  "right_contour_4"; "right_contour_5"; "right_contour_6";
  "right_contour_7"; "right_contour_8"; "contour_middle"; "left_contour_8";
  "left_contour_7"; "left_contour_6"; "left_contour_5"; "left_contour_4";
  "left_contour_3"; "left_contour_2"; "left_contour_1"; "right_eye_brow_1";
  "right_eye_brow_2"; "right_eye_brow_3"; "right_eye_brow_4";
  "right_eye_brow_5"; "left_eye_brow_5"; "left_eye_brow_4";
  "left_eye_brow_3"; "left_eye_brow_2"; "left_eye_brow_1"; "nosebridge_1";
  "nosebridge_2"; "nosebridge_3"; "nosebridge_4"; "right_nose_2";
  "right_nose_1"; "nose_middle"; "left_nose_1"; "left_nose_2";
  "right_eye_1"; "right_eye_2"; "right_eye_3"; "right_eye_4";
  "right_eye_5"; "right_eye_6"; "left_eye_4"; "left_eye_3"; "left_eye_2";
  "left_eye_1"; "left_eye_6"; "left_eye_5"; "right_mouth_1";
  "right_mouth_2"; "right_mouth_3"; "mouth_top"; "left_mouth_3";
  "left_mouth_2"; "left_mouth_1"; "left_mouth_5"; "left_mouth_4";
  "mouth_bottom"; "right_mouth_4"; "right_mouth_5"; "right_lip_1";
  "right_lip_2"; "lip_top"; "left_lip_2"; "left_lip_1"; "left_lip_3";
  "lip_bottom"; "right_lip_3"; "right_eye_undefined"; "left_eye_undefined"
]%string.

Definition OPENPOSE_FEET_KEYPOINTS : list string := [
  "left_bigtoe"; "left_smalltoe"; "left_heel"; "right_bigtoe";
  "right_smalltoe"; "right_heel"
]%string.

(** [OPENPOSE_JOINTS[:19] + OPENPOSE_FEET_KEYPOINTS + OPENPOSE_JOINTS[19:]] *)
Definition OPENPOSE_137_KEYPOINTS : list string :=
  take 19 OPENPOSE_JOINTS ++ OPENPOSE_FEET_KEYPOINTS ++ drop 19 OPENPOSE_JOINTS.

(** Python's [list.index]: position of the first occurrence of [name]
    ([None] stands for the [ValueError] raised when it is absent). *)
Fixpoint index_of (name : string) (l : list string) : option nat :=
  match l with
  | [] => None
  | x :: r => if String.eqb x name then Some 0%nat
              else option_map S (index_of name r)
  end.

(** Number of entries of [l] that carry the name [name]. *)
Definition occurrences (name : string) (l : list string) : nat :=
  length (filter (fun x => x = name) l).

(** A table gives every one of its names a position of its own when looking
    the entry at position [i] up by name gives [i] back. *)
Definition unique_index (l : list string) : Prop :=
  forall (i : nat) (name : string), l !! i = Some name -> index_of name l = Some i.

End Openpose.

(* ===================================================================== *)
(** ** The SPIN configuration (configs/spin/resnet50_spin_pw3d.py)        *)
(* ===================================================================== *)

Module SpinConfig.

(** Values of a Python configuration file.  A float literal is kept as the
    decimal it is written as, and [x ** n] is kept as written. *)
Inductive pyval : Type :=
| PStr (s : string)
| PInt (n : Z)
| PFloat (q : Q)
| PBool (b : bool)
| PPow (base : pyval) (exponent : pyval)
| PTuple (items : list pyval)
| PList (items : list pyval)
| PDict (entries : list (string * pyval)).



Definition body_model : pyval :=
  PDict [ ("type", PStr "SMPL");
          ("keypoint_src", PStr "smpl_54");
          ("keypoint_dst", PStr "smpl_49");
          ("keypoint_approximate", PBool true);
          ("model_path", PStr "data/body_models/smpl");
          ("extra_joints_regressor", PStr "data/J_regressor_extra.npy") ]%string.



End SpinConfig.

(* ===================================================================== *)
(** ** The registrant SMPLify                                             *)
(* ===================================================================== *)

Module Smplify.
Import SpinConfig.

(** The parameters of the body model a registrant can fit, one for every
    [fit_*] switch of a stage. *)
Inductive parameter : Type := GlobalOrient | Transl | BodyPose | Betas.












Section Fitting.
Context {V O : Type}.

Record params : Type := {
  global_orient : V;
  transl : V;
  body_pose : V;
  betas : V
}.

Variable update : parameter -> O -> params -> V.
Variable advance : O -> params -> O.




End Fitting.

End Smplify.

(* ===================================================================== *)
(** ** The SMPL-X estimator (expressive_mesh_estimator.py)                *)
(* ===================================================================== *)

Module Estimator.

(** *** Scalars

    Tensor entries are elements of a type [F] with the arithmetic the
    source uses on them.  No law is assumed of the operations, so what is
    proved of the losses holds of IEEE arithmetic as of exact arithmetic.
    The tensors are taken to hold single-precision entries already, so the
    [.float()] casts of the source are the identity.

    [mean_entries] is the reduction [x.mean()] over the entries of a row.
    The order in which torch adds the entries of a row belongs to its
    kernels and is not fixed by the source, so the reduction is an
    operation of its own, of which nothing is assumed. *)
Class Scalar (F : Type) : Type := {
  of_Z : Z -> F;
  fadd : F -> F -> F;
  fsub : F -> F -> F;
  fmul : F -> F -> F;
  fdiv : F -> F -> F;
  mean_entries : list F -> F
}.

(** The mean of a row whose entries are added from the first to the last.
    For a row of one or two entries every order of the additions gives
    this sum; a row without entries has the mean 0 / 0. *)
Definition mean_from_left {F : Type} (zero : F) (add div : F -> F -> F)
    (of_nat : nat -> F) (l : list F) : F :=
  match l with
  | [] => div zero zero
  | x :: r => div (foldl add x r) (of_nat (length l))
  end.

(** IEEE 754 binary32, the [torch.float32] of the source. *)
Definition float32 : Type := spec_float.

#[export] Instance float32_scalar : Scalar float32 := {|
  of_Z z := binary_normalize 24 128 z 0 false;
  fadd := SFadd 24 128;
  fsub := SFsub 24 128;
  fmul := SFmul 24 128;
  fdiv := SFdiv 24 128;
  mean_entries :=
    mean_from_left (binary_normalize 24 128 0 0 false) (SFadd 24 128) (SFdiv 24 128)
      (fun n => binary_normalize 24 128 (Z.of_nat n) 0 false)
|}.

(** Exact rational arithmetic. *)
#[export] Instance Qc_scalar : Scalar Qc := {|
  of_Z z := Q2Qc (inject_Z z);
  fadd := Qcplus;
  fsub := Qcminus;
  fmul := Qcmult;
  fdiv := Qcdiv;
  mean_entries :=
    mean_from_left (Q2Qc (inject_Z 0)) Qcplus Qcdiv (fun n => Q2Qc (inject_Z (Z.of_nat n)))
|}.

(** *** Exceptions and results *)

Inductive exn : Type :=
| IndexError
| KeyError (key : string)
| TypeError
| RuntimeError
| UnboundLocalError (var : string)
| StopIteration
| NotImplementedError (msg : string)
| Raised (what : string).

Inductive result (A : Type) : Type :=
| Ok (a : A)
| Raise (e : exn).
Arguments Ok {A} a.
Arguments Raise {A} e.

#[export] Instance result_ret : MRet result := fun _ a => Ok a.
#[export] Instance result_bind : MBind result := fun _ _ f m =>
  match m with
  | Ok a => f a
  | Raise e => Raise e
  end.

(** [d[key]] on a dictionary whose entry may be absent. *)
Definition getitem {A : Type} (key : string) (entry : option A) : result A :=
  match entry with
  | Some a => Ok a
  | None => Raise (KeyError key)
  end.

(** *** Calls that are observed

    Calls of the modules the estimator is built from, and of the training
    machinery, are recorded in the order they happen. *)
Inductive event : Type :=
| Forward (module : string)
| RequiresGrad (module : string) (flag : bool)
| PrepareTargets
| MakeFakeData (requires_grad : bool)
| MakeRealData
| ParseLosses (keys : list string)
| ZeroGrad (optimizer : string)
| Backward (loss : string)
| Step (optimizer : string).

(** A computation that may raise and that records the calls it makes. *)
Record L (A : Type) : Type := Run { value : result A; calls : list event }.
Arguments Run {A} value calls.
Arguments value {A} _.
Arguments calls {A} _.

#[export] Instance L_ret : MRet L := fun _ a => Run (Ok a) [].
#[export] Instance L_bind : MBind L := fun _ _ f m =>
  match value m with
  | Ok a => let r := f a in Run (value r) (calls m ++ calls r)
  | Raise e => Run (Raise e) (calls m)
  end.

Definition lift {A : Type} (r : result A) : L A := Run r [].

(** [self.<name>(args)] for a module that is a function of its arguments
    (a loss module, a body model with frozen parameters).  A module that
    was not configured is [None], and calling it is a [TypeError]. *)
Definition invoke {A B : Type} (name : string) (module : option (A -> result B))
    (args : A) : L B :=
  match module with
  | Some f => Run (f args) [Forward name]
  | None => Run (Raise TypeError) []
  end.

(** *** Tensors

    A tensor is the nested list of its entries, the batch dimension
    outermost; a tensor of the source is rectangular. *)
Inductive mask : Type :=
| PyFalse                      (* the Python value [False] *)
| BoolTensor (m : list bool).  (* a boolean tensor of shape (B,) *)

(** [has == 1] for a tensor of flags. *)
Definition eq_one (has : list Z) : mask := BoolTensor (map (Z.eqb 1) has).

(** [has == 1] where [has] may be [None]: [None == 1] is [False]. *)
Definition eq_one_opt (has : option (list Z)) : mask :=
  match has with
  | Some h => eq_one h
  | None => PyFalse
  end.

Fixpoint select {A : Type} (m : list bool) (x : list A) : list A :=
  match m, x with
  | b :: m', a :: x' => if b then a :: select m' x' else select m' x'
  | _, _ => []
  end.

(** [x[mask]].  A boolean tensor must be as long as the batch, and keeps
    the samples it marks.  [x[False]] has a new leading dimension of
    length 0: it holds no sample and no entry, and is the empty list
    here. *)
Definition index_mask {A : Type} (x : list A) (mk : mask) : result (list A) :=
  match mk with
  | PyFalse => Ok []
  | BoolTensor m =>
      if (length m =? length x)%nat then Ok (select m x) else Raise IndexError
  end.

(** [x.shape[1]].  The nested list of a batch without samples does not keep
    the other dimensions of the tensor, and [dim1] is 0 for it; where a
    property depends on [shape[1]], the batch has at least one sample. *)
Definition dim1 {A : Type} (x : list (list A)) : nat :=
  match x with
  | [] => 0
  | s :: _ => length s
  end.

(** [x.view(-1, n)] on a flattened tensor, and the regrouping of the rows of
    a contiguous tensor by [n]. *)
Fixpoint chunks {A : Type} (fuel n : nat) (l : list A) : list (list A) :=
  match fuel with
  | O => []
  | S fuel' =>
      match l with
      | [] => []
      | _ => take n l :: chunks fuel' n (drop n l)
      end
  end.

Definition view_rows {A : Type} (n : nat) (l : list A) : result (list (list A)) :=
  if (n =? 0)%nat then Raise RuntimeError
  else if (length l mod n =? 0)%nat then Ok (chunks (length l) n l)
  else Raise RuntimeError.

(** A Python integer as the operand of an operation on a tensor: torch
    takes it as a 64-bit integer, and raises [RuntimeError] when it is
    none. *)
Definition int64_operand (n : Z) : result Z :=
  if (- 2 ^ 63 <=? n) && (n <? 2 ^ 63) then Ok n else Raise RuntimeError.

Section Model.
Context {F : Type} `{!Scalar F}.

(** Modules that depend on the trained parameters act on a world [World];
    images, backbone features, discriminator inputs and scores, and the
    logged variables are left abstract. *)
Context {World Img Features DiscData Score LogVars : Type}.

Local Abbreviation T1 := (list F).
Local Abbreviation T2 := (list (list F)).
Local Abbreviation T3 := (list (list (list F))).
Local Abbreviation T4 := (list (list (list (list F)))).

(** The value of a loss: the entries of the tensor the loss module gives. *)
Definition Loss : Type := list F.

(** [torch.Tensor([0])] *)
Definition zero_loss : Loss := [of_Z 0].

(** [loss / n] for an integer [n]. *)
Definition loss_div (loss : Loss) (n : nat) : Loss :=
  map (fun x => fdiv x (of_Z (Z.of_nat n))) loss.

(** [x.numel()] *)
Definition numel1 (x : T1) : nat := length x.
Definition numel2 (x : T2) : nat := sum_list (map numel1 x).
Definition numel3 (x : T3) : nat := sum_list (map numel2 x).

(** [x[:, :, k].unsqueeze(-1)]: channel [k] of every keypoint. *)
Definition has_channel (k : nat) (x : T3) : bool :=
  forallb (forallb (fun kp : T1 => (k <? length kp)%nat)) x.

Definition channel (k : nat) (x : T3) : result T3 :=
  if has_channel k x
  then Ok (map (map (fun kp : T1 => [nth k kp (of_Z 0)])) x)
  else Raise IndexError.

(** [x.repeat(1, 1, r)] *)
Definition repeat_last (r : nat) (x : T3) : T3 :=
  map (map (fun kp : T1 => concat (replicate r kp))) x.

(** [x[:, :, :k]] *)
Definition first_channels (k : nat) (x : T3) : T3 :=
  map (map (take k)) x.

(** [x.sum()] over a list of entries, added from the first to the last. *)
Definition sum_entries (l : T1) : F := foldl fadd (of_Z 0) l.

(** The mean over the rows of one sample, entry by entry. *)
Definition sum_rows (rows : T2) : T1 :=
  foldl (zip_with fadd) (replicate (dim1 rows) (of_Z 0)) rows.

Definition mean_rows (rows : T2) : T1 :=
  map (fun x => fdiv x (of_Z (Z.of_nat (length rows)))) (sum_rows rows).

(** [x[:, idxs, :].mean(dim=1, keepdim=True)]: for every sample the mean of
    the keypoints at [idxs]. *)
Definition has_joints (idxs : list nat) (x : T3) : bool :=
  forallb (fun s : T2 => forallb (fun i => (i <? length s)%nat) idxs) x.

Definition mean_joints (idxs : list nat) (x : T3) : result T2 :=
  if has_joints idxs x
  then Ok (map (fun s : T2 => mean_rows (map (fun i => nth i s []) idxs)) x)
  else Raise IndexError.

(** [x - m] where [m] has one row per sample, broadcast over the
    keypoints. *)
Definition sub_broadcast (x : T3) (m : T2) : T3 :=
  zip_with (fun (s : T2) (row : T1) => map (fun kp => zip_with fsub kp row) s) x m.

(** [x[:, k]] and [x[:, a:b]] on a matrix. *)
Definition column (k : nat) (x : T2) : result T1 :=
  if forallb (fun r : T1 => (k <? length r)%nat) x
  then Ok (map (fun r : T1 => nth k r (of_Z 0)) x)
  else Raise IndexError.

Definition columns (a b : nat) (x : T2) : T2 :=
  map (fun r : T1 => take (b - a) (drop a r)) x.

(** [x[:, idxs, k]]: channel [k] of the keypoints at [idxs]. *)
Definition gather (idxs : list nat) (k : nat) (x : T3) : result T2 :=
  if has_joints idxs x && has_channel k (map (fun s : T2 => map (fun i => nth i s []) idxs) x)
  then Ok (map (fun s : T2 => map (fun i => nth k (nth i s []) (of_Z 0)) idxs) x)
  else Raise IndexError.

(** The functions of [mmhuman3d.utils.geometry] and of the keypoint
    mapping that the estimator imports: [batch_rodrigues] takes (N, 3)
    axis-angle rows to (N, 3, 3) rotation matrices,
    [weak_perspective_projection] takes points, scales and translations to
    projected points, [get_keypoint_idxs_by_part] takes a part and a
    convention to keypoint indices. *)
Variable batch_rodrigues : T2 -> result T3.
Variable weak_perspective_projection : T3 -> T1 -> T2 -> result T3.
Variable get_keypoint_idxs_by_part : string -> string -> result (list nat).

(** [x.shape[-1]] of an image tensor. *)
Variable img_last_dim : Img -> Z.

(** [batch_rodrigues(x.view(-1, 3)).view(-1, num_joints, 3, 3)] on the
    entries [flat] of [x]. *)
Definition rotmat_view (num_joints : nat) (flat : T1) : result T4 :=
  rows ← view_rows 3 flat;
  mats ← batch_rodrigues rows;
  view_rows num_joints mats.

(** [2 * x / (img_res - 1) - 1] *)
Definition normalize_keypoints (img_res : Z) (x : T3) : T3 :=
  map (map (map (fun v =>
    fsub (fdiv (fmul (of_Z 2) v) (of_Z (img_res - 1))) (of_Z 1)))) x.

(** A module acting on the world. *)
Definition net (A : Type) : Type := World -> result A * World.

(** A predicted pose: axis-angle of shape (B, J, 3) or rotation matrices of
    shape (B, J, 3, 3). *)
Inductive pose : Type :=
| AxisAngle (x : T3)
| RotMat (x : T4).

(** [predictions['pred_param']]: the keys a head may give. *)
Record pred_param_t : Type := {
  global_orient : option pose;
  body_pose : option pose;
  jaw_pose : option pose;
  right_hand_pose : option pose;
  left_hand_pose : option pose;
  betas : option T2;
  expression : option T2
}.

Record predictions_t : Type := {
  pred_param : option pred_param_t;
  pred_cam : option T2
}.

(** The output of a body model. *)
Record body_output : Type := {
  joints : option T3;
  vertices : option T3
}.

(** A data batch, which is also the dictionary of targets.  A key that is
    absent is [None].  A flag tensor [has_X] of shape (B, 1) is kept as the
    (B,) vector that [.squeeze(-1)] gives. *)
Record batch : Type := {
  img : option Img;
  features : option Features;
  keypoints3d : option T3;
  keypoints2d : option T3;
  has_keypoints3d : option (list Z);
  has_keypoints2d : option (list Z);
  smplx_global_orient : option T2;
  has_smplx_global_orient : option (list Z);
  smplx_body_pose : option T3;
  has_smplx_body_pose : option (list Z);
  smplx_jaw_pose : option T2;
  has_smplx_jaw_pose : option (list Z);
  smplx_right_hand_pose : option T3;
  has_smplx_right_hand_pose : option (list Z);
  smplx_left_hand_pose : option T3;
  has_smplx_left_hand_pose : option (list Z);
  smplx_betas : option T2;
  has_smplx_betas : option (list Z);
  smplx_expression : option T2;
  has_smplx_expression : option (list Z);
  (* [len(next(iter(data_batch.values())))] *)
  first_value_len : option nat
}.

(** An optimizer of the [optimizer] dictionary. *)
Record optimizer_t : Type := {
  zero_grad : World -> World;
  step : World -> World
}.

(** The estimator: the modules built in [__init__] ([None] when the
    configuration gives none), and the methods a subclass or the base
    architecture provides. *)
Record estimator : Type := {
  backbone : option (Img -> net Features);
  neck : option (Features -> net Features);
  head : option (Features -> net predictions_t);
  disc : option (DiscData -> net Score);
  body_model_train : option (pred_param_t -> result body_output);
  body_model_test : option (pred_param_t -> result body_output);
  convention : string;
  loss_keypoints2d : option (T3 * T3 * T3 -> result Loss);
  loss_keypoints3d : option (T3 * T3 * T3 -> result Loss);
  loss_smplx_global_orient : option (T4 * T4 -> result Loss);
  loss_smplx_body_pose : option (T4 * T4 -> result Loss);
  loss_smplx_hand_pose : option (T4 * T4 * T4 -> result Loss);
  loss_smplx_jaw_pose : option (T4 * T4 * T4 -> result Loss);
  loss_smplx_expression : option (T2 * T2 * T2 -> result Loss);
  loss_smplx_betas : option (T2 * T2 -> result Loss);
  loss_smplx_betas_piror : option (T2 -> result Loss);
  loss_adv : option (Score * bool * bool -> result Loss);
  loss_camera : option (T2 -> result Loss);
  make_fake_data : predictions_t -> bool -> net DiscData;
  make_real_data : batch -> net DiscData;
  prepare_targets : batch -> net batch;
  parse_losses : gmap string Loss -> result (Loss * LogVars);
  backward : Loss -> World -> World
}.

(** *** The loss terms *)

Definition compute_keypoints3d_loss (self : estimator)
    (pred_keypoints3d gt_keypoints3d : T3) (has_keypoints3d : option (list Z))
    : L Loss :=
  keypoints3d_conf ← lift (channel 3 gt_keypoints3d);
  let keypoints3d_conf := repeat_last 3 keypoints3d_conf in
  let gt_keypoints3d := first_channels 3 gt_keypoints3d in
  (* [if has_keypoints3d is None: has_keypoints3d] has no effect *)
  selected ← lift (index_mask keypoints3d_conf (eq_one_opt has_keypoints3d));
  if (numel3 selected =? 0)%nat then mret zero_loss else
  (* Center the predictions using the pelvis *)
  let target_idxs := eq_one_opt has_keypoints3d in
  pred_keypoints3d ← lift (index_mask pred_keypoints3d target_idxs);
  gt_keypoints3d ← lift (index_mask gt_keypoints3d target_idxs);
  pred_pelvis ← lift (mean_joints [1; 2]%nat pred_keypoints3d);
  let pred_keypoints3d := sub_broadcast pred_keypoints3d pred_pelvis in
  gt_pelvis ← lift (mean_joints [1; 2]%nat gt_keypoints3d);
  let gt_keypoints3d := sub_broadcast gt_keypoints3d gt_pelvis in
  weight ← lift (index_mask keypoints3d_conf target_idxs);
  loss ← invoke "loss_keypoints3d" (loss_keypoints3d self)
           (pred_keypoints3d, gt_keypoints3d, weight);
  mret (loss_div loss (length gt_keypoints3d)).

Definition compute_keypoints2d_loss (self : estimator)
    (pred_keypoints3d : T3) (pred_cam : T2) (gt_keypoints2d : T3)
    (img_res focal_length : Z) (has_keypoints2d : option (list Z)) : L Loss :=
  keypoints2d_conf ← lift (channel 2 gt_keypoints2d);
  let keypoints2d_conf := repeat_last 2 keypoints2d_conf in
  let gt_keypoints2d := first_channels 2 gt_keypoints2d in
  selected ← lift (index_mask keypoints2d_conf (eq_one_opt has_keypoints2d));
  if (numel3 selected =? 0)%nat then mret zero_loss else
  (* Expose use weak_perspective_projection *)
  scale ← lift (column 0 pred_cam);
  pred_keypoints2d ← lift (weak_perspective_projection pred_keypoints3d scale
                             (columns 1 3 pred_cam));
  (* [2 * gt_keypoints2d / (img_res - 1) - 1] *)
  _ ← lift (int64_operand (img_res - 1));
  let gt_keypoints2d := normalize_keypoints img_res gt_keypoints2d in
  let target_idxs := eq_one_opt has_keypoints2d in
  pred_keypoints2d ← lift (index_mask pred_keypoints2d target_idxs);
  gt_keypoints2d ← lift (index_mask gt_keypoints2d target_idxs);
  weight ← lift (index_mask keypoints2d_conf target_idxs);
  loss ← invoke "loss_keypoints2d" (loss_keypoints2d self)
           (pred_keypoints2d, gt_keypoints2d, weight);
  mret (loss_div loss (length gt_keypoints2d)).

Definition compute_smplx_body_pose_loss (self : estimator)
    (pred_rotmat : T4) (gt_pose : T3) (has_smplx_body_pose : list Z) : L Loss :=
  let num_joints := dim1 pred_rotmat in
  let target_idxs := eq_one has_smplx_body_pose in
  selected ← lift (index_mask gt_pose target_idxs);
  if (numel3 selected =? 0)%nat then mret zero_loss else
  gt_rotmat ← lift (rotmat_view num_joints (concat (concat gt_pose)));
  pred ← lift (index_mask pred_rotmat target_idxs);
  gt ← lift (index_mask gt_rotmat target_idxs);
  invoke "loss_smplx_body_pose" (loss_smplx_body_pose self) (pred, gt).

Definition compute_smplx_global_orient_loss (self : estimator)
    (pred_rotmat : T4) (gt_global_orient : T2)
    (has_smplx_global_orient : list Z) : L Loss :=
  let target_idxs := eq_one has_smplx_global_orient in
  selected ← lift (index_mask gt_global_orient target_idxs);
  if (numel2 selected =? 0)%nat then mret zero_loss else
  gt_rotmat ← lift (rotmat_view 1 (concat gt_global_orient));
  pred ← lift (index_mask pred_rotmat target_idxs);
  gt ← lift (index_mask gt_rotmat target_idxs);
  invoke "loss_smplx_global_orient" (loss_smplx_global_orient self) (pred, gt).

Definition compute_smplx_jaw_pose_loss (self : estimator)
    (pred_rotmat : T4) (gt_jaw_pose : T2) (has_smplx_jaw_pose : list Z)
    (face_conf : T2) : L Loss :=
  let target_idxs := eq_one has_smplx_jaw_pose in
  selected ← lift (index_mask gt_jaw_pose target_idxs);
  if (numel2 selected =? 0)%nat then mret zero_loss else
  gt_rotmat ← lift (rotmat_view 1 (concat gt_jaw_pose));
  let conf := map mean_entries face_conf in
  (* conf.view(-1, 1, 1, 1) *)
  let conf : T4 := map (fun c => [[[c]]]) conf in
  pred ← lift (index_mask pred_rotmat target_idxs);
  gt ← lift (index_mask gt_rotmat target_idxs);
  weight ← lift (index_mask conf target_idxs);
  invoke "loss_smplx_jaw_pose" (loss_smplx_jaw_pose self) (pred, gt, weight).

Definition compute_smplx_hand_pose_loss (self : estimator)
    (pred_rotmat : T4) (gt_hand_pose : T3) (has_smplx_hand_pose : list Z)
    (hand_conf : T2) : L Loss :=
  let joint_num := dim1 pred_rotmat in
  let target_idxs := eq_one has_smplx_hand_pose in
  selected ← lift (index_mask gt_hand_pose target_idxs);
  if (numel3 selected =? 0)%nat then mret zero_loss else
  gt_rotmat ← lift (rotmat_view joint_num (concat (concat gt_hand_pose)));
  (* hand_conf.mean(axis=1, keepdim=True).float().expand(-1, joint_num) *)
  let conf : T2 := map (fun r => replicate joint_num (mean_entries r)) hand_conf in
  (* conf.view(-1, joint_num, 1, 1) *)
  let conf : T4 := map (map (fun c => [[c]])) conf in
  pred ← lift (index_mask pred_rotmat target_idxs);
  gt ← lift (index_mask gt_rotmat target_idxs);
  weight ← lift (index_mask conf target_idxs);
  invoke "loss_smplx_hand_pose" (loss_smplx_hand_pose self) (pred, gt, weight).

Definition compute_smplx_betas_loss (self : estimator)
    (pred_betas gt_betas : T2) (has_smplx_betas : list Z) : L Loss :=
  let target_idxs := eq_one has_smplx_betas in
  selected ← lift (index_mask gt_betas target_idxs);
  if (numel2 selected =? 0)%nat then mret zero_loss else
  pred ← lift (index_mask pred_betas target_idxs);
  gt ← lift (index_mask gt_betas target_idxs);
  loss ← invoke "loss_smplx_betas" (loss_smplx_betas self) (pred, gt);
  gt' ← lift (index_mask gt_betas target_idxs);
  mret (loss_div loss (length gt')).

Definition compute_smplx_betas_prior_loss (self : estimator) (pred_betas : T2)
    : L Loss :=
  invoke "loss_smplx_betas_piror" (loss_smplx_betas_piror self) pred_betas.

Definition compute_smplx_expression_loss (self : estimator)
    (pred_expression gt_expression : T2) (has_smplx_expression : list Z)
    (face_conf : T2) : L Loss :=
  let target_idxs := eq_one has_smplx_expression in
  selected ← lift (index_mask gt_expression target_idxs);
  if (numel2 selected =? 0)%nat then mret zero_loss else
  let conf := map mean_entries face_conf in
  (* conf.view(-1, 1) *)
  let conf : T2 := map (fun c => [c]) conf in
  pred ← lift (index_mask pred_expression target_idxs);
  gt ← lift (index_mask gt_expression target_idxs);
  weight ← lift (index_mask conf target_idxs);
  loss ← invoke "loss_smplx_expression" (loss_smplx_expression self)
           (pred, gt, weight);
  gt' ← lift (index_mask gt_expression target_idxs);
  mret (loss_div loss (length gt')).

Definition compute_camera_loss (self : estimator) (cameras : T2) : L Loss :=
  invoke "loss_camera" (loss_camera self) cameras.

Definition pose2rotmat (pred_pose : pose) : result T4 :=
  match pred_pose with
  | AxisAngle x =>
      (* len(pred_pose.shape) == 3 *)
      let num_joints := dim1 x in
      rotmat_view num_joints (concat (concat x))
  | RotMat x => Ok x
  end.

(** A local variable that is read before it was assigned. *)
Definition local {A : Type} (var : string) (v : option A) : result A :=
  match v with
  | Some a => Ok a
  | None => Raise (UnboundLocalError var)
  end.

(** One optional entry of the dictionary of losses: [if module is not None:
    losses[key] = term]. *)
Definition add_term {A : Type} (module : option A) (key : string)
    (term : L Loss) (losses : gmap string Loss) : L (gmap string Loss) :=
  match module with
  | Some _ => l ← term; mret (<[key := l]> losses)
  | None => mret losses
  end.

Definition compute_losses (self : estimator) (predictions : predictions_t)
    (targets : batch) : L (gmap string Loss) :=
  pred_param ← lift (getitem "pred_param" (pred_param predictions));
  pred_cam ← lift (getitem "pred_cam" (pred_cam predictions));
  gt_keypoints3d ← lift (getitem "keypoints3d" (keypoints3d targets));
  gt_keypoints2d ← lift (getitem "keypoints2d" (keypoints2d targets));
  pred_keypoints3d ←
    match body_model_train self with
    | Some _ =>
        pred_output ← invoke "body_model_train" (body_model_train self) pred_param;
        pred_keypoints3d ← lift (getitem "joints" (joints pred_output));
        pred_vertices ← lift (getitem "vertices" (vertices pred_output));
        mret (Some pred_keypoints3d)
    | None => mret None
    end;
  (* 'has_keypoints3d' in targets, else None *)
  let has_keypoints3d := has_keypoints3d targets in
  let has_keypoints2d := has_keypoints2d targets in
  let losses : gmap string Loss := ∅ in
  losses ← add_term (loss_keypoints3d self) "keypoints3d_loss"
    (pred_keypoints3d ← lift (local "pred_keypoints3d" pred_keypoints3d);
     compute_keypoints3d_loss self pred_keypoints3d gt_keypoints3d has_keypoints3d)
    losses;
  losses ← add_term (loss_keypoints2d self) "keypoints2d_loss"
    (pred_keypoints3d ← lift (local "pred_keypoints3d" pred_keypoints3d);
     image ← lift (getitem "img" (img targets));
     compute_keypoints2d_loss self pred_keypoints3d pred_cam gt_keypoints2d
       (img_last_dim image) 5000 has_keypoints2d)
    losses;
  losses ← add_term (loss_smplx_global_orient self) "smplx_global_orient"
    (pred_global_orient ← lift (getitem "global_orient" (global_orient pred_param));
     pred_global_orient ← lift (pose2rotmat pred_global_orient);
     gt_global_orient ← lift (getitem "smplx_global_orient" (smplx_global_orient targets));
     has ← lift (getitem "has_smplx_global_orient" (has_smplx_global_orient targets));
     compute_smplx_global_orient_loss self pred_global_orient gt_global_orient has)
    losses;
  losses ← add_term (loss_smplx_body_pose self) "smplx_body_pose_loss"
    (pred_pose ← lift (getitem "body_pose" (body_pose pred_param));
     pred_pose ← lift (pose2rotmat pred_pose);
     gt_pose ← lift (getitem "smplx_body_pose" (smplx_body_pose targets));
     has ← lift (getitem "has_smplx_body_pose" (has_smplx_body_pose targets));
     compute_smplx_body_pose_loss self pred_pose gt_pose has)
    losses;
  losses ← add_term (loss_smplx_jaw_pose self) "smplx_jaw_pose_loss"
    (pred_jaw_pose ← lift (getitem "jaw_pose" (jaw_pose pred_param));
     pred_jaw_pose ← lift (pose2rotmat pred_jaw_pose);
     gt_jaw_pose ← lift (getitem "smplx_jaw_pose" (smplx_jaw_pose targets));
     face_conf ← lift (get_keypoint_idxs_by_part "head" (convention self));
     has ← lift (getitem "has_smplx_jaw_pose" (has_smplx_jaw_pose targets));
     face_conf ← lift (gather face_conf 2 gt_keypoints2d);
     compute_smplx_jaw_pose_loss self pred_jaw_pose gt_jaw_pose has face_conf)
    losses;
  losses ← match loss_smplx_hand_pose self with
    | Some _ =>
        pred_right_hand_pose ← lift (getitem "right_hand_pose" (right_hand_pose pred_param));
        pred_right_hand_pose ← lift (pose2rotmat pred_right_hand_pose);
        gt_right_hand_pose ← lift (getitem "smplx_right_hand_pose" (smplx_right_hand_pose targets));
        right_hand_conf ← lift (get_keypoint_idxs_by_part "right_hand" (convention self));
        has ← lift (getitem "has_smplx_right_hand_pose" (has_smplx_right_hand_pose targets));
        right_hand_conf ← lift (gather right_hand_conf 2 gt_keypoints2d);
        l ← compute_smplx_hand_pose_loss self pred_right_hand_pose
              gt_right_hand_pose has right_hand_conf;
        let losses := <["smplx_right_hand_pose_loss" := l]> losses in
        match left_hand_pose pred_param with
        | Some pred_left_hand_pose =>
            pred_left_hand_pose ← lift (pose2rotmat pred_left_hand_pose);
            gt_left_hand_pose ← lift (getitem "smplx_left_hand_pose" (smplx_left_hand_pose targets));
            left_hand_conf ← lift (get_keypoint_idxs_by_part "left_hand" (convention self));
            has ← lift (getitem "has_smplx_left_hand_pose" (has_smplx_left_hand_pose targets));
            left_hand_conf ← lift (gather left_hand_conf 2 gt_keypoints2d);
            l ← compute_smplx_hand_pose_loss self pred_left_hand_pose
                  gt_left_hand_pose has left_hand_conf;
            mret (<["smplx_left_hand_pose_loss" := l]> losses)
        | None => mret losses
        end
    | None => mret losses
    end;
  losses ← add_term (loss_smplx_betas self) "smplx_betas_loss"
    (pred_betas ← lift (getitem "betas" (betas pred_param));
     gt_betas ← lift (getitem "smplx_betas" (smplx_betas targets));
     has ← lift (getitem "has_smplx_betas" (has_smplx_betas targets));
     compute_smplx_betas_loss self pred_betas gt_betas has)
    losses;
  losses ← add_term (loss_smplx_expression self) "smplx_expression_loss"
    (pred_expression ← lift (getitem "expression" (expression pred_param));
     gt_expression ← lift (getitem "smplx_expression" (smplx_expression targets));
     face_conf ← lift (get_keypoint_idxs_by_part "head" (convention self));
     has ← lift (getitem "has_smplx_expression" (has_smplx_expression targets));
     face_conf ← lift (gather face_conf 2 gt_keypoints2d);
     compute_smplx_expression_loss self pred_expression gt_expression has face_conf)
    losses;
  losses ← add_term (loss_smplx_betas_piror self) "smplx_betas_prior_loss"
    (pred_betas ← lift (getitem "betas" (betas pred_param));
     compute_smplx_betas_prior_loss self pred_betas)
    losses;
  losses ← add_term (loss_camera self) "camera_loss"
    (compute_camera_loss self pred_cam)
    losses;
  mret losses.

(** *** Training

    A training computation acts on the world, may raise, and records the
    calls it makes; what it did to the world before raising stays done. *)
Record M (A : Type) : Type := Act { run : World -> result A * World * list event }.
Arguments Act {A} run.
Arguments run {A} _ _.

#[export] Instance M_ret : MRet M := fun _ a => Act (fun w => (Ok a, w, [])).
#[export] Instance M_bind : MBind M := fun _ _ f m =>
  Act (fun w =>
    match run m w with
    | (Ok a, w', t) =>
        match run (f a) w' with
        | (r, w'', t') => (r, w'', t ++ t')
        end
    | (Raise e, w', t) => (Raise e, w', t)
    end).

Definition liftL {A : Type} (l : L A) : M A :=
  Act (fun w => (value l, w, calls l)).

Definition liftR {A : Type} (r : result A) : M A :=
  Act (fun w => (r, w, [])).

(** [self.<name>(args)] for a module that acts on the world. *)
Definition call {A B : Type} (name : string) (module : option (A -> net B))
    (args : A) : M B :=
  match module with
  | Some f => Act (fun w => match f args w with (r, w') => (r, w', [Forward name]) end)
  | None => liftR (Raise TypeError)
  end.

(** A method of the estimator that acts on the world, recorded as [ev]. *)
Definition method {B : Type} (ev : event) (f : net B) : M B :=
  Act (fun w => match f w with (r, w') => (r, w', [ev]) end).

(** A call that changes the world and gives nothing back. *)
Definition effect (ev : event) (f : World -> World) : M unit :=
  Act (fun w => (Ok (), f w, [ev])).

(** [set_requires_grad(net, flag)] for one network: the flag of every
    parameter of a network that is not [None] is set. *)
Definition set_requires_grad {A : Type} (name : string) (net_ : option A)
    (requires_grad : bool) : M unit :=
  match net_ with
  | Some _ => effect (RequiresGrad name requires_grad) id
  | None => mret ()
  end.

(** [self._parse_losses(losses)], recorded with the keys it is given. *)
Definition do_parse_losses (self : estimator) (losses : gmap string Loss)
    : M (Loss * LogVars) :=
  Act (fun w => (parse_losses self losses, w, [ParseLosses (elements (dom losses))])).

Definition optimize_discrinimator (self : estimator) (predictions : predictions_t)
    (data_batch : batch) (optimizer : gmap string optimizer_t) : M unit :=
  _ ← set_requires_grad "disc" (disc self) true;
  fake_data ← method (MakeFakeData false) (make_fake_data self predictions false);
  real_data ← method MakeRealData (make_real_data self data_batch);
  fake_score ← call "disc" (disc self) fake_data;
  real_score ← call "disc" (disc self) real_data;
  let disc_losses : gmap string Loss := ∅ in
  real_loss ← liftL (invoke "loss_adv" (loss_adv self) (real_score, true, true));
  let disc_losses := <["real_loss" := real_loss]> disc_losses in
  fake_loss ← liftL (invoke "loss_adv" (loss_adv self) (fake_score, false, true));
  let disc_losses := <["fake_loss" := fake_loss]> disc_losses in
  parsed ← do_parse_losses self disc_losses;
  let loss_disc := fst parsed in
  opt ← liftR (getitem "disc" (optimizer !! "disc"));
  _ ← effect (ZeroGrad "disc") (zero_grad opt);
  _ ← effect (Backward "loss_disc") (backward self loss_disc);
  opt ← liftR (getitem "disc" (optimizer !! "disc"));
  effect (Step "disc") (step opt).

Definition optimize_generator (self : estimator) (predictions : predictions_t)
    : M (gmap string Loss) :=
  _ ← set_requires_grad "disc" (disc self) false;
  fake_data ← method (MakeFakeData true) (make_fake_data self predictions true);
  pred_score ← call "disc" (disc self) fake_data;
  loss_adv ← liftL (invoke "loss_adv" (loss_adv self) (pred_score, true, false));
  let loss : gmap string Loss := {["adv_loss" := loss_adv]} in
  mret loss.

(** [optimizer[name].zero_grad()] and [optimizer[name].step()] when the
    module [name] is configured. *)
Definition zero_grad_of {A : Type} (name : string) (module : option A)
    (optimizer : gmap string optimizer_t) : M unit :=
  match module with
  | Some _ =>
      opt ← liftR (getitem name (optimizer !! name));
      effect (ZeroGrad name) (zero_grad opt)
  | None => mret ()
  end.

Definition step_of {A : Type} (name : string) (module : option A)
    (optimizer : gmap string optimizer_t) : M unit :=
  match module with
  | Some _ =>
      opt ← liftR (getitem name (optimizer !! name));
      effect (Step name) (step opt)
  | None => mret ()
  end.

Record outputs : Type := {
  loss : Loss;
  log_vars : LogVars;
  num_samples : nat
}.

Definition train_step (self : estimator) (data_batch : batch)
    (optimizer : gmap string optimizer_t) : M outputs :=
  features ←
    match backbone self with
    | Some _ =>
        image ← liftR (getitem "img" (img data_batch));
        call "backbone" (backbone self) image
    | None => liftR (getitem "features" (features data_batch))
    end;
  features ←
    match neck self with
    | Some _ => call "neck" (neck self) features
    | None => mret features
    end;
  predictions ← call "head" (head self) features;
  targets ← method PrepareTargets (prepare_targets self data_batch);
  (* optimize discriminator (if have) *)
  _ ← match disc self with
      | Some _ => optimize_discrinimator self predictions data_batch optimizer
      | None => mret ()
      end;
  losses ← liftL (compute_losses self predictions targets);
  (* optimizer generator part *)
  losses ←
    match disc self with
    | Some _ =>
        adv_loss ← optimize_generator self predictions;
        (* losses.update(adv_loss) *)
        mret (adv_loss ∪ losses)
    | None => mret losses
    end;
  parsed ← do_parse_losses self losses;
  let loss := fst parsed in
  let log_vars := snd parsed in
  _ ← zero_grad_of "backbone" (backbone self) optimizer;
  _ ← zero_grad_of "neck" (neck self) optimizer;
  _ ← zero_grad_of "head" (head self) optimizer;
  _ ← effect (Backward "loss") (backward self loss);
  _ ← step_of "backbone" (backbone self) optimizer;
  _ ← step_of "neck" (neck self) optimizer;
  _ ← step_of "head" (head self) optimizer;
  num_samples ← liftR (match first_value_len data_batch with
                       | Some n => Ok n
                       | None => Raise StopIteration
                       end);
  mret {| loss := loss; log_vars := log_vars; num_samples := num_samples |}.

(** [forward_train(self, **kwargs)] *)
Definition forward_train {K : Type} (self : estimator) (kwargs : K) : M unit :=
  liftR (Raise (NotImplementedError
    "This interface should not be used in current training schedule. Please use `train_step` for training.")).

End Model.

Arguments Act {World A} run.
Arguments run {World A} m w.

End Estimator.

(* ===================================================================== *)
(** ** Concrete modules and batches for the examples                      *)
(* ===================================================================== *)

Module Examples.
Import Estimator.

Section Doubles.
Context {F : Type} `{!Scalar F}.

Local Abbreviation T1 := (list F).
Local Abbreviation T2 := (list (list F)).
Local Abbreviation T3 := (list (list (list F))).
Local Abbreviation T4 := (list (list (list (list F)))).

(** Entry by entry combination of two tensors of one shape. *)
Definition zip3 (f : F -> F -> F) (x y : T3) : T3 :=
  zip_with (zip_with (zip_with f)) x y.

(** A loss module: the squared residuals, multiplied entry by entry with
    the weight and then summed (a mean squared error with
    [reduction='sum']). *)
Definition weighted_square_error (args : T3 * T3 * T3) : result (@Loss F) :=
  let '(pred, target, weight) := args in
  let residual := zip3 fsub pred target in
  Ok [sum_entries (concat (concat (zip3 fmul weight (zip3 fmul residual residual))))].

(** A loss module that gives back, entry by entry, the weight it is
    called with. *)
Definition weight_probe (args : T4 * T4 * T4) : result (@Loss F) :=
  let '(_, _, weight) := args in Ok (concat (concat (concat weight))).

(** A row by row conversion of (N, 3) rows to (N, 3, 3) matrices, in the
    place of [batch_rodrigues]. *)
Definition rows_to_matrices (rows : T2) : result T3 :=
  Ok (map (fun r => [r; r; r]) rows).

(** The weak-perspective projection of one sample,
    [scale * (points[:, :2] + translation)], and of a batch. *)
Definition project_sample (points : T2) (scale : F) (translation : T1) : T2 :=
  map (fun kp => map (fmul scale) (zip_with fadd (take 2 kp) translation)) points.

Definition project_batch (points : T3) (scale : T1) (translation : T2) : result T3 :=
  Ok (zip_with (fun ps t => project_sample ps.1 ps.2 t) (zip points scale) translation).

Definition no_parts (part convention : string) : result (list nat) := Ok [].

Definition example_pred_param : @pred_param_t F := {|
  global_orient := None; body_pose := None; jaw_pose := None;
  right_hand_pose := None; left_hand_pose := None;
  betas := None; expression := None
|}.

Definition example_predictions : @predictions_t F := {|
  pred_param := Some example_pred_param;
  pred_cam := Some []
|}.

(** A batch with backbone features and no samples. *)
Definition example_batch : @batch F unit unit := {|
  img := None; features := Some ();
  keypoints3d := Some []; keypoints2d := Some [];
  has_keypoints3d := None; has_keypoints2d := None;
  smplx_global_orient := None; has_smplx_global_orient := None;
  smplx_body_pose := None; has_smplx_body_pose := None;
  smplx_jaw_pose := None; has_smplx_jaw_pose := None;
  smplx_right_hand_pose := None; has_smplx_right_hand_pose := None;
  smplx_left_hand_pose := None; has_smplx_left_hand_pose := None;
  smplx_betas := None; has_smplx_betas := None;
  smplx_expression := None; has_smplx_expression := None;
  first_value_len := Some 0%nat
|}.

(** An estimator over a world without content: a head, the given loss
    modules for 3D keypoints and hand pose and, when [adversarial], a
    discriminator with its adversarial loss. *)
Definition example_estimator
    (kp3d : option (T3 * T3 * T3 -> result (@Loss F)))
    (hand : option (T4 * T4 * T4 -> result (@Loss F)))
    (adversarial : bool) : @estimator F unit unit unit unit unit unit := {|
  backbone := None;
  neck := None;
  head := Some (fun _ w => (Ok example_predictions, w));
  disc := if adversarial then Some (fun _ w => (Ok (), w)) else None;
  body_model_train := None;
  body_model_test := None;
  convention := "human_data";
  loss_keypoints2d := None;
  loss_keypoints3d := kp3d;
  loss_smplx_global_orient := None;
  loss_smplx_body_pose := None;
  loss_smplx_hand_pose := hand;
  loss_smplx_jaw_pose := None;
  loss_smplx_expression := None;
  loss_smplx_betas := None;
  loss_smplx_betas_piror := None;
  loss_adv := if adversarial then Some (fun _ => Ok [of_Z 1]) else None;
  loss_camera := None;
  make_fake_data := fun _ _ w => (Ok (), w);
  make_real_data := fun _ w => (Ok (), w);
  prepare_targets := fun b w => (Ok b, w);
  parse_losses := fun losses =>
    Ok ([sum_entries (concat (map snd (map_to_list losses)))], ());
  backward := fun _ w => w
|}.

Definition example_optimizer : @optimizer_t unit :=
  {| zero_grad := id; step := id |}.

Definition example_optimizers : gmap string (@optimizer_t unit) :=
  {[ "head"%string := example_optimizer; "disc"%string := example_optimizer ]}.

End Doubles.

(** One sample of three keypoints, the one at index 1 at (1, 0, 0) and the
    others at the origin; targets at the origin with confidence 1. *)
Definition pred_keypoints {F : Type} `{!Scalar F} : list (list (list F)) :=
  [[ [of_Z 0; of_Z 0; of_Z 0]; [of_Z 1; of_Z 0; of_Z 0]; [of_Z 0; of_Z 0; of_Z 0] ]].

Definition gt_keypoints {F : Type} `{!Scalar F} : list (list (list F)) :=
  [[ [of_Z 0; of_Z 0; of_Z 0; of_Z 1]; [of_Z 0; of_Z 0; of_Z 0; of_Z 1];
     [of_Z 0; of_Z 0; of_Z 0; of_Z 1] ]].

(** An offset of 2^24 - 2 along the first axis, and the keypoints above
    moved by it: every coordinate stays below 2^24, so the moved
    keypoints are exact in single precision. *)
Definition far_offset {F : Type} `{!Scalar F} : list F :=
  [of_Z 16777214; of_Z 0; of_Z 0].

Definition far_keypoints {F : Type} `{!Scalar F} : list (list (list F)) :=
  [[ [of_Z 16777214; of_Z 0; of_Z 0]; [of_Z 16777215; of_Z 0; of_Z 0];
     [of_Z 16777214; of_Z 0; of_Z 0] ]].

(** The estimators of the examples: single precision with a weighted
    squared error on 3D keypoints, with a probe of the hand weight, with a
    discriminator; and exact rationals with the weighted squared error. *)
Definition est32 : @estimator float32 unit unit unit unit unit unit :=
  example_estimator (Some weighted_square_error) None false.

Definition probe32 : @estimator float32 unit unit unit unit unit unit :=
  example_estimator None (Some weight_probe) false.

Definition adv32 : @estimator float32 unit unit unit unit unit unit :=
  example_estimator None None true.

Definition estQc : @estimator Qc unit unit unit unit unit unit :=
  example_estimator (Some weighted_square_error) None false.

End Examples.

(* ===================================================================== *)
(** ** The notions the properties of the estimator are stated with        *)
(* ===================================================================== *)

Module Properties.
Import Estimator Examples.

(** *** Validity flags *)

(** No sample is marked valid. *)
Definition none_valid (has : list Z) : Prop := Forall (fun h => h <> 1) has.

(** The flags [has] mark no sample of the batch [x] as valid. *)
Definition selects_nothing {A : Type} (has : list Z) (x : list A) : Prop :=
  none_valid has /\ length has = length x.

(** Sample [i] is marked valid: its flag is 1. *)
Definition valid_at (has : option (list Z)) (i : nat) : Prop :=
  has ≫= (fun h => h !! i) = Some 1.

(** Two batches that differ at most in samples that are not marked valid. *)
Definition same_where_valid {A : Type} (has : option (list Z)) (x y : list A)
    : Prop :=
  length x = length y /\ forall i, valid_at has i -> x !! i = y !! i.

(** *** Shapes *)

(** A batch of rows with [C] entries each, and a batch of samples with [J]
    rows of [C] entries each. *)
Definition rect2 {A : Type} (C : nat) (x : list (list A)) : Prop :=
  Forall (fun r => length r = C) x.

Definition rect3 {A : Type} (J C : nat) (x : list (list (list A))) : Prop :=
  Forall (fun s => length s = J /\ rect2 C s) x.

(** Every keypoint of [x] has [C] entries. *)
Definition keypoints_of {A : Type} (C : nat) (x : list (list (list A))) : Prop :=
  Forall (Forall (fun kp => length kp = C)) x.

Section Scalars.
Context {F : Type} `{!Scalar F}.

Local Abbreviation T1 := (list F).
Local Abbreviation T2 := (list (list F)).
Local Abbreviation T3 := (list (list (list F))).

(** *** Imported functions that act sample by sample *)

(** [batch_rodrigues] converts the rows of an (N, 3) batch one by one. *)
Definition rowwise_rodrigues (batch_rodrigues : T2 -> result T3)
    (rodrigues : T1 -> T2) : Prop :=
  forall rows : T2, rect2 3 rows -> batch_rodrigues rows = Ok (map rodrigues rows).

(** [weak_perspective_projection] projects the samples one by one, each
    with its scale and its translation. *)
Definition samplewise_projection
    (weak_perspective_projection : T3 -> T1 -> T2 -> result T3)
    (project : T2 -> F -> T1 -> T2) : Prop :=
  forall (pts : T3) (sc : T1) (tr : T2),
    length sc = length pts -> length tr = length pts -> rect2 2 tr ->
    weak_perspective_projection pts sc tr =
      Ok (zip_with (fun ps t => project ps.1 ps.2 t) (zip pts sc) tr).

(** *** Confidence weights *)

(** The confidence (channel [k]) of every keypoint, replicated over its
    [C] coordinates. *)
Definition joint_confidence (k C : nat) (x : T3) : T3 :=
  map (map (fun kp : T1 => replicate C (nth k kp (of_Z 0)))) x.

(** The mean of the confidences of the keypoints of a part, sample by
    sample. *)
Definition part_confidence (conf : T2) : T1 := map mean_entries conf.

(** The confidences of the 2D keypoints at the indices [idxs], sample by
    sample: the entry 2, the trailing channel, of every such keypoint. *)
Definition keypoint_confidences (idxs : list nat) (keypoints2d : T3) : T2 :=
  map (fun s : T2 => map (fun i => nth 2 (nth i s []) (of_Z 0)) idxs) keypoints2d.

(** *** Translations *)

(** [x + c] for an offset [c] of shape (3,), broadcast over samples and
    keypoints. *)
Definition translate (c : T1) (x : T3) : T3 :=
  map (map (fun kp => zip_with fadd kp c)) x.

(** The same on the coordinates of keypoints that carry a confidence after
    their three coordinates: [x[:, :, :3] + c], the confidence kept. *)
Definition translate_coords (c : T1) (x : T3) : T3 :=
  map (map (fun kp => zip_with fadd (take 3 kp) c ++ drop 3 kp)) x.

(** The keypoints of one sample minus the mean of those at 1 and 2. *)
Definition centered (s : T2) : T2 :=
  map (fun kp => zip_with fsub kp (mean_rows (map (fun i => nth i s []) [1; 2]%nat))) s.

(** *** Dictionaries of losses *)

(** The dictionary has no adversarial entry. *)
Definition no_adv (losses : gmap string (list F)) : Prop :=
  losses !! "adv_loss"%string = None.

End Scalars.

(** *** Calls *)

(** The calls [compute_losses] can make: forward calls of the training body
    model and of the loss modules of the terms. *)
Definition loss_call (ev : event) : Prop :=
  exists name, ev = Forward name /\
    name ∈ ["body_model_train"; "loss_keypoints3d"; "loss_keypoints2d";
            "loss_smplx_global_orient"; "loss_smplx_body_pose";
            "loss_smplx_jaw_pose"; "loss_smplx_hand_pose"; "loss_smplx_betas";
            "loss_smplx_expression"; "loss_smplx_betas_piror"; "loss_camera"]%string.

(** A call that is no part of adversarial training: it does not touch
    the gradient flags of a network, makes no fake or real data, is no
    forward call of the discriminator or of the adversarial loss, no
    update of the discriminator (zeroing its gradients, propagating its
    loss back, stepping its optimizer) and no parsing of a dictionary with
    an adversarial entry. *)
Definition not_adversarial (ev : event) : Prop :=
  match ev with
  | RequiresGrad _ _ | MakeFakeData _ | MakeRealData => False
  | Forward name => name <> "disc"%string /\ name <> "loss_adv"%string
  | ZeroGrad name | Step name => name <> "disc"%string
  | Backward l => l <> "loss_disc"%string
  | ParseLosses keys => "adv_loss"%string ∉ keys
  | PrepareTargets => True
  end.

(** [m] gives only values that satisfy [Q] and makes only calls that
    satisfy [E], whether it returns or raises. *)
Definition Lpost {A : Type} (m : L A) (Q : A -> Prop) (E : event -> Prop) : Prop :=
  (forall a, value m = Ok a -> Q a) /\ Forall E (calls m).

(** The same for a training computation, from every world. *)
Definition Mpost {World A : Type} (m : @M World A) (Q : A -> Prop)
    (E : event -> Prop) : Prop :=
  forall w, (forall a, (run m w).1.1 = Ok a -> Q a) /\ Forall E (run m w).2.

(** The calls and the result of a training computation from the world
    [w]. *)
Definition trace_of {World A : Type} (m : @M World A) (w : World) : list event :=
  (run m w).2.

Definition result_of {World A : Type} (m : @M World A) (w : World) : result A :=
  (run m w).1.1.

(** *** The weight claim, read literally

    Read on the hand term with a loss module that gives its weight back:
    every entry of the weight that reaches the loss module is the
    confidence of a keypoint of the batch. *)
Definition hand_weight_holds_keypoint_confidences : Prop :=
  forall (pred : list (list (list (list float32)))) (gt : list (list (list float32)))
         (has : list Z) (hand_conf : list (list float32)) (weight : list float32),
    compute_smplx_hand_pose_loss rows_to_matrices probe32 pred gt has hand_conf
      = Run (Ok weight) [Forward "loss_smplx_hand_pose"] ->
    Forall (fun w => w ∈ concat hand_conf) weight.

End Properties.

(* ===================================================================== *)
(** ** Parameters and their gradient flags ([set_requires_grad])          *)
(* ===================================================================== *)

Module RequiresGrad.

(** The training computations of [Estimator] record a call of
    [set_requires_grad] as an event.  Here the function itself is
    modelled, on the parameters it changes. *)

(** A parameter of a network: its values and its [requires_grad] flag. *)
Record parameter (D : Type) : Type := {
  data : D;
  requires_grad : bool
}.
Arguments data {D} _.
Arguments requires_grad {D} _.

Abbreviation store D := (gmap positive (parameter D)).

Section Store.
Context {D : Type}.

(** Parameters are objects: they live in a store under their identity, and
    a network is known by the identities [net.parameters()] yields.  Two
    networks may hold the same parameter, and a list of networks may hold
    a network twice. *)
Definition network : Type := list positive.

(** The argument [nets]: a single network (or [None]), or a list of
    networks (some of which may be [None]). *)
Inductive nets_arg : Type :=
| Net (net : option network)
| Nets (nets : list (option network)).

(** [param.requires_grad = flag] *)
Definition set_flag (flag : bool) (p : parameter D) : parameter D :=
  {| data := data p; requires_grad := flag |}.

(** [set_requires_grad(nets, requires_grad)] *)
Definition set_requires_grad (nets : nets_arg) (flag : bool) (s : store D) : store D :=
  (* if not isinstance(nets, list): nets = [nets] *)
  let nets := match nets with Net net => [net] | Nets nets => nets end in
  foldl (fun s net =>
           match net with
           | Some params =>
               foldl (fun s param => alter (set_flag flag) param s) s params
           | None => s
           end) s nets.

(** The parameters of the networks of [nets] that are not [None]. *)
Definition parameters_of (nets : nets_arg) : list positive :=
  let nets := match nets with Net net => [net] | Nets nets => nets end in
  concat (omap id nets).

End Store.

End RequiresGrad.

(* ===================================================================== *)
(** ** The image estimator ([SMPLXImageBodyModelEstimator])               *)
(* ===================================================================== *)

Module ImageEstimator.
Import Estimator.

Section Model.
Context {F : Type} `{!Scalar F}.
Context {World Img Features D Score LogVars Idx : Type}.

Local Abbreviation T2 := (list (list F)).
Local Abbreviation T3 := (list (list (list F))).
Local Abbreviation estimator :=
  (@estimator F World Img Features (option D) Score LogVars).

(** The methods the subclass gives.  [prepare_targets] returns the batch
    as it is.  [make_fake_data] and [make_real_data] return what the
    methods of the base class return: these are abstract, their body is
    [pass], and the call gives [None]. *)
Definition prepare_targets (data_batch : @batch F Img Features)
    : @net World (@batch F Img Features) :=
  fun w => (Ok data_batch, w).

Definition make_fake_data (predictions : @predictions_t F) (requires_grad : bool)
    : @net World (option D) :=
  fun w => (Ok None, w).

Definition make_real_data (data_batch : @batch F Img Features)
    : @net World (option D) :=
  fun w => (Ok None, w).

(** The image estimator over the modules of [self]. *)
Definition SMPLXImageBodyModelEstimator (self : estimator) : estimator := {|
  backbone := backbone self;
  neck := neck self;
  head := head self;
  disc := disc self;
  body_model_train := body_model_train self;
  body_model_test := body_model_test self;
  convention := convention self;
  loss_keypoints2d := loss_keypoints2d self;
  loss_keypoints3d := loss_keypoints3d self;
  loss_smplx_global_orient := loss_smplx_global_orient self;
  loss_smplx_body_pose := loss_smplx_body_pose self;
  loss_smplx_hand_pose := loss_smplx_hand_pose self;
  loss_smplx_jaw_pose := loss_smplx_jaw_pose self;
  loss_smplx_expression := loss_smplx_expression self;
  loss_smplx_betas := loss_smplx_betas self;
  loss_smplx_betas_piror := loss_smplx_betas_piror self;
  loss_adv := loss_adv self;
  loss_camera := loss_camera self;
  Estimator.make_fake_data := make_fake_data;
  Estimator.make_real_data := make_real_data;
  Estimator.prepare_targets := prepare_targets;
  parse_losses := parse_losses self;
  backward := backward self
|}.

(** The keyword arguments [forward_test] reads. *)
Record test_kwargs : Type := {
  kw_features : option Features;
  kw_sample_idx : option Idx
}.

(** The dictionary [all_preds].  The conversions [.detach().cpu().numpy()]
    keep the entries of a tensor. *)
Record all_preds_t : Type := {
  keypoints_3d : T3;
  param : @pred_param_t F;
  camera : T2;
  vertices : T3;
  image_path : list string;
  image_idx : Idx
}.

(** [[img_meta['image_path'] for img_meta in img_metas]], built by a loop
    that stops at the first meta without the key. *)
Fixpoint image_paths (img_metas : list (gmap string string)) : result (list string) :=
  match img_metas with
  | [] => Ok []
  | img_meta :: rest =>
      path ← getitem "image_path" (img_meta !! "image_path"%string);
      paths ← image_paths rest;
      Ok (path :: paths)
  end.

Definition forward_test (self : estimator) (img : Img)
    (img_metas : list (gmap string string)) (kwargs : test_kwargs)
    : @M World all_preds_t :=
  features ←
    match backbone self with
    | Some _ => call "backbone" (backbone self) img
    | None => liftR (getitem "features" (kw_features kwargs))
    end;
  features ←
    match neck self with
    | Some _ => call "neck" (neck self) features
    | None => mret features
    end;
  predictions ← call "head" (head self) features;
  pred_param ← liftR (getitem "pred_param" (pred_param predictions));
  pred_cam ← liftR (getitem "pred_cam" (pred_cam predictions));
  pred_output ← liftL (invoke "body_model_test" (body_model_test self) pred_param);
  pred_vertices ← liftR (getitem "vertices" (Estimator.vertices pred_output));
  pred_keypoints_3d ← liftR (getitem "joints" (joints pred_output));
  (* [for value in pred_param.values(): value = ...] assigns to the loop
     variable only; [pred_param] stays as it is *)
  image_path ← liftR (image_paths img_metas);
  image_idx ← liftR (getitem "sample_idx" (kw_sample_idx kwargs));
  mret {| keypoints_3d := pred_keypoints_3d;
          param := pred_param;
          camera := pred_cam;
          vertices := pred_vertices;
          image_path := image_path;
          image_idx := image_idx |}.

End Model.

End ImageEstimator.

(* ===================================================================== *)
(** ** Notions for further properties of the code                         *)
(* ===================================================================== *)

Module Notions.
Import Estimator.

(** The number of samples marked valid, and the samples of a batch that
    are marked valid, in their order. *)
Definition valid_count (has : list Z) : nat :=
  length (filter (fun h => h = 1) has).

Definition valid_samples {A : Type} (has : list Z) (x : list A) : list A :=
  (filter (fun p => p.1 = 1) (zip has x)).*2.


(** The key of a term of the dictionary of losses, when its module is
    configured. *)
Definition key_if {A : Type} (module : option A) (key : string) : gset string :=
  match module with
  | Some _ => {[ key ]}
  | None => ∅
  end.

Definition name_if {A : Type} (module : option A) (name : string) : list string :=
  match module with
  | Some _ => [name]
  | None => []
  end.

(** The names of the modules among backbone, neck and head that are
    configured, in this order. *)
Definition optimized_modules {F World Img Features DiscData Score LogVars : Type}
    (self : @estimator F World Img Features DiscData Score LogVars) : list string :=
  name_if (backbone self) "backbone" ++ name_if (neck self) "neck" ++
  name_if (head self) "head".

(** A call that is no part of an update of the generator: neither the
    backward pass of its loss nor a step of an optimizer other than the one
    of the discriminator. *)
Definition no_generator_update (ev : event) : Prop :=
  ev <> Backward "loss" /\ forall name, ev = Step name -> name = "disc"%string.

(** A call that updates nothing: no zeroing of gradients, no backward
    pass and no step of an optimizer. *)
Definition no_update (ev : event) : Prop :=
  match ev with
  | ZeroGrad _ | Backward _ | Step _ => False
  | _ => True
  end.

Section Keys.
Context {F World Img Features DiscData Score LogVars : Type}.

(** The keys of the terms an estimator is configured for, given what the
    head predicts: one for every loss module that is not [None], and the
    one of the left hand when the hand module is configured and the head
    predicts a left hand pose. *)
Definition term_keys (self : @estimator F World Img Features DiscData Score LogVars)
    (pred_param : @pred_param_t F) : gset string :=
  key_if (loss_keypoints3d self) "keypoints3d_loss" ∪
  key_if (loss_keypoints2d self) "keypoints2d_loss" ∪
  key_if (loss_smplx_global_orient self) "smplx_global_orient" ∪
  key_if (loss_smplx_body_pose self) "smplx_body_pose_loss" ∪
  key_if (loss_smplx_jaw_pose self) "smplx_jaw_pose_loss" ∪
  key_if (loss_smplx_hand_pose self) "smplx_right_hand_pose_loss" ∪
  match loss_smplx_hand_pose self with
  | Some _ => key_if (left_hand_pose pred_param) "smplx_left_hand_pose_loss"
  | None => ∅
  end ∪
  key_if (loss_smplx_betas self) "smplx_betas_loss" ∪
  key_if (loss_smplx_expression self) "smplx_expression_loss" ∪
  key_if (loss_smplx_betas_piror self) "smplx_betas_prior_loss" ∪
  key_if (loss_camera self) "camera_loss".

(** A term of the parameters is configured, and the targets have no
    flags for it. *)
Definition lacks_parameter_flags
    (self : @estimator F World Img Features DiscData Score LogVars)
    (predictions : @predictions_t F) (targets : @batch F Img Features) : Prop :=
  (is_Some (loss_smplx_global_orient self) /\ has_smplx_global_orient targets = None) \/
  (is_Some (loss_smplx_body_pose self) /\ has_smplx_body_pose targets = None) \/
  (is_Some (loss_smplx_jaw_pose self) /\ has_smplx_jaw_pose targets = None) \/
  (is_Some (loss_smplx_hand_pose self) /\ has_smplx_right_hand_pose targets = None) \/
  (is_Some (loss_smplx_hand_pose self) /\
   is_Some (pred_param predictions ≫= left_hand_pose) /\
   has_smplx_left_hand_pose targets = None) \/
  (is_Some (loss_smplx_betas self) /\ has_smplx_betas targets = None) \/
  (is_Some (loss_smplx_expression self) /\ has_smplx_expression targets = None).

End Keys.

Section Entries.
Context {F : Type} `{!Scalar F}.
Context {World Img Features DiscData Score LogVars : Type}.
Variable batch_rodrigues : list (list F) -> result (list (list (list F))).
Variable get_keypoint_idxs_by_part : string -> string -> result (list nat).

(** The joints the training body model gives for the predicted
    parameters. *)
Definition predicted_joints (self : @estimator F World Img Features DiscData Score LogVars)
    (pred_param : @pred_param_t F) : option (list (list (list F))) :=
  body_model ← body_model_train self;
  match body_model pred_param with
  | Ok pred_output => joints pred_output
  | Raise _ => None
  end.

(** A predicted pose as rotation matrices, with its target and its
    flags. *)
Definition pose_inputs {A : Type} (pred : option pose) (gt : option A)
    (has : option (list Z)) (rotmat : list (list (list (list F)))) (target : A)
    (flags : list Z) : Prop :=
  exists p, pred = Some p /\ pose2rotmat batch_rodrigues p = Ok rotmat /\
            gt = Some target /\ has = Some flags.

(** The confidences of a part: those of the 2D keypoints at the indices
    the part has in the convention of the estimator. *)
Definition part_confidences (self : @estimator F World Img Features DiscData Score LogVars)
    (part : string) (keypoints2d : list (list (list F))) (conf : list (list F)) : Prop :=
  exists idxs, get_keypoint_idxs_by_part part (convention self) = Ok idxs /\
               conf = Properties.keypoint_confidences idxs keypoints2d.

End Entries.

(** The calls of the update of the discriminator, in their order; [keys]
    are the keys of the dictionary of discriminator losses that is
    parsed. *)
Definition discriminator_update_calls (keys : list string) : list event :=
  [RequiresGrad "disc" true; MakeFakeData false; MakeRealData;
   Forward "disc"; Forward "disc"; Forward "loss_adv"; Forward "loss_adv";
   ParseLosses keys; ZeroGrad "disc"; Backward "loss_disc"; Step "disc"].

(** The calls that give the adversarial loss of the generator. *)
Definition generator_adversarial_calls : list event :=
  [RequiresGrad "disc" false; MakeFakeData true; Forward "disc"; Forward "loss_adv"].

Section Adversarial.
Context {F : Type} `{!Scalar F}.
Context {World Img Features DiscData Score LogVars : Type}.
Variable batch_rodrigues : list (list F) -> result (list (list (list F))).
Variable weak_perspective_projection :
  list (list (list F)) -> list F -> list (list F) -> result (list (list (list F))).
Variable get_keypoint_idxs_by_part : string -> string -> result (list nat).
Variable img_last_dim : Img -> Z.

(** A run of [train_step] with adversarial training, with the result
    [out] and the calls [t].  The head gives the predictions and the
    targets are prepared.  Then the discriminator [D] is optimized: fake
    data (made without gradients) and real data are scored, the
    adversarial loss [A] of the real score with target real and of the fake
    score with target fake are parsed to the loss [parsed.1], and the
    optimizer [optimizer['disc']] zeroes the gradients, the loss is
    propagated back and the optimizer steps.  Then the losses of the
    generator are computed; they have no adversarial entry.  In the
    world the update of the discriminator left, fake data is made with
    gradients and scored, and the adversarial loss of this score with
    target real is added to the losses under ["adv_loss"]; the loss of
    the result is parsed from this dictionary. *)
Definition adversarial_run
    (self : @estimator F World Img Features DiscData Score LogVars)
    (data_batch : @batch F Img Features)
    (optimizer : gmap string (@optimizer_t World))
    (out : @outputs F LogVars) (t : list event) : Prop :=
  exists D A opt h features predictions targets fake real fake_score real_score
         real_loss fake_loss parsed losses gen_fake score adv parsed'
         wf wp w0 w1 w2 w3 w4 w5 w6 keys t_end,
    disc self = Some D /\ loss_adv self = Some A /\
    optimizer !! "disc"%string = Some opt /\ head self = Some h /\
    h features wf = (Ok predictions, wp) /\
    prepare_targets self data_batch wp = (Ok targets, w0) /\
    make_fake_data self predictions false w0 = (Ok fake, w1) /\
    make_real_data self data_batch w1 = (Ok real, w2) /\
    D fake w2 = (Ok fake_score, w3) /\ D real w3 = (Ok real_score, w4) /\
    A (real_score, true, true) = Ok real_loss /\
    A (fake_score, false, true) = Ok fake_loss /\
    parse_losses self {[ "real_loss"%string := real_loss; "fake_loss"%string := fake_loss ]}
      = Ok parsed /\
    value (compute_losses batch_rodrigues weak_perspective_projection
             get_keypoint_idxs_by_part img_last_dim self predictions targets)
      = Ok losses /\
    losses !! "adv_loss"%string = None /\
    make_fake_data self predictions true
      (step opt (backward self parsed.1 (zero_grad opt w4))) = (Ok gen_fake, w5) /\
    D gen_fake w5 = (Ok score, w6) /\ A (score, true, false) = Ok adv /\
    parse_losses self (<["adv_loss"%string := adv]> losses) = Ok parsed' /\
    loss out = parsed'.1 /\
    keys ≡ₚ ["real_loss"; "fake_loss"]%string /\
    t = map Forward (name_if (backbone self) "backbone" ++ name_if (neck self) "neck" ++
                     ["head"%string]) ++
        PrepareTargets :: discriminator_update_calls keys ++
        calls (compute_losses batch_rodrigues weak_perspective_projection
                 get_keypoint_idxs_by_part img_last_dim self predictions targets) ++
        generator_adversarial_calls ++
        ParseLosses (elements (dom (<["adv_loss"%string := adv]> losses))) :: t_end.

End Adversarial.

End Notions.

(* ===================================================================== *)
(** ** The data settings of the SPIN configuration                        *)
(* ===================================================================== *)

Module SpinPipelines.

(** The values of the data settings.  A list is an object of the store,
    known by its location: two names of one list see the same items, and a
    change made through one name is seen through the other.  The
    dictionaries are not changed once they are built and are kept as
    values. *)
Inductive obj : Type :=
| OStr (s : string)
| OInt (n : Z)
| OFloat (q : Q)
| OBool (b : bool)
| ORef (loc : nat)
| ODict (entries : list (string * obj)).

(** The store: the items of every list, by location. *)
Definition store : Type := list (list obj).

(** A statement or expression: it reads and changes the store, and may
    raise. *)
Inductive outcome (A : Type) : Type :=
| Done (a : A) (s : store)
| ValueError
| Dangling.
Arguments Done {A} a s.
Arguments ValueError {A}.
Arguments Dangling {A}.

Definition St (A : Type) : Type := store -> outcome A.

#[export] Instance St_ret : MRet St := fun _ a s => Done a s.
#[export] Instance St_bind : MBind St := fun _ _ f m s =>
  match m s with
  | Done a s' => f a s'
  | ValueError => ValueError
  | Dangling => Dangling
  end.

(** A list display [[...]]: a new list. *)
Definition new_list (items : list obj) : St obj :=
  fun s => Done (ORef (length s)) (s ++ [items]).

(** The items of a list. *)
Definition items_of (l : obj) : St (list obj) :=
  fun s => match l with
           | ORef loc => match s !! loc with
                         | Some items => Done items s
                         | None => Dangling
                         end
           | _ => Dangling
           end.

Definition is_str (x : string) (o : obj) : bool :=
  match o with
  | OStr s => String.eqb s x
  | _ => false
  end.

(** The items without the first one equal to the string [x], if there is
    one. *)
Fixpoint without_first (x : string) (items : list obj) : option (list obj) :=
  match items with
  | [] => None
  | o :: rest => if is_str x o then Some rest
                 else option_map (cons o) (without_first x rest)
  end.

(** [l.remove(x)]: the list itself changes; [ValueError] when [x] is not
    in it. *)
Definition remove (l : obj) (x : string) : St unit :=
  fun s => match l with
           | ORef loc =>
               match s !! loc with
               | Some items =>
                   match without_first x items with
                   | Some items' => Done () (<[loc := items']> s)
                   | None => ValueError
                   end
               | None => Dangling
               end
           | _ => Dangling
           end.

Definition strs (l : list string) : list obj := map OStr l.
Definition ints (l : list Z) : list obj := map OInt l.
Definition floats (l : list Q) : list obj := map OFloat l.

(** [[new_list item for item in ...]] for a list of list displays. *)
Fixpoint new_lists (l : list (list obj)) : St (list obj) :=
  match l with
  | [] => mret []
  | items :: rest =>
      r ← new_list items;
      rs ← new_lists rest;
      mret (r :: rs)
  end.

(** The names the data settings bind, up to the test pipeline. *)
Record settings : Type := {
  img_norm_cfg : obj;
  data_keys : obj;
  meta_data_keys : obj;
  keypoints_index : obj;
  flip_pairs : obj;
  train_pipeline : obj;
  test_pipeline : obj
}.

(** The statements from [img_norm_cfg = ...] to [test_pipeline = ...], in
    the order of the file. *)
Definition data_settings : St settings :=
  mean ← new_list (floats [123675 # 1000; 11628 # 100; 10353 # 100]);
  std ← new_list (floats [58395 # 1000; 5712 # 100; 57375 # 1000]);
  let img_norm_cfg :=
    ODict [("mean", mean); ("std", std); ("to_rgb", OBool true)]%string in
  data_keys ← new_list (strs [
    "has_smpl"; "smpl_body_pose"; "smpl_global_orient"; "smpl_betas";
    "smpl_transl"; "keypoints2d"; "keypoints2d_mask"; "keypoints3d";
    "keypoints3d_mask"; "is_flipped"; "center"; "scale"; "rotation";
    "sample_idx"]%string);
  meta_data_keys ← new_list (strs ["dataset_name"; "image_path"]%string);
  keypoints_index ← new_list (ints (map Z.of_nat (seq 0 49)));
  pairs ← new_lists (map ints [
    [2; 5]; [3; 6]; [4; 7]; [9; 12]; [10; 13]; [11; 14]; [15; 16];
    [17; 18]; [19; 22]; [20; 23]; [21; 24]; [25; 30]; [26; 29];
    [27; 28]; [31; 36]; [32; 35]; [33; 34]; [45; 46]; [47; 48]]);
  flip_pairs ← new_list pairs;
  (* train_pipeline *)
  image_keys ← new_list (strs ["img"]%string);
  spread ← items_of data_keys;
  collect_keys ← new_list (OStr "img" :: spread);
  train_pipeline ← new_list [
    ODict [("type", OStr "LoadImageFromFile")];
    ODict [("type", OStr "RandomChannelNoise"); ("noise_factor", OFloat (4 # 10))];
    ODict [("type", OStr "KeypointsSelection"); ("keypoints_index", keypoints_index)];
    ODict [("type", OStr "RandomHorizontalFlip"); ("flip_prob", OFloat (5 # 10));
           ("flip_pairs", flip_pairs)];
    ODict [("type", OStr "GetRandomScaleRotation"); ("rot_factor", OInt 30);
           ("scale_factor", OFloat (25 # 100))];
    ODict [("type", OStr "MeshAffine"); ("img_res", OInt 224)];
    ODict [("type", OStr "Normalize"); ("mean", mean); ("std", std);
           ("to_rgb", OBool true)];
    ODict [("type", OStr "ImageToTensor"); ("keys", image_keys)];
    ODict [("type", OStr "ToTensor"); ("keys", data_keys)];
    ODict [("type", OStr "Collect"); ("keys", collect_keys);
           ("meta_keys", meta_data_keys)]
  ]%string;
  _ ← remove data_keys "is_flipped";
  (* test_pipeline *)
  image_keys ← new_list (strs ["img"]%string);
  spread ← items_of data_keys;
  collect_keys ← new_list (OStr "img" :: spread);
  test_pipeline ← new_list [
    ODict [("type", OStr "LoadImageFromFile")];
    ODict [("type", OStr "KeypointsSelection"); ("keypoints_index", keypoints_index)];
    ODict [("type", OStr "GetRandomScaleRotation"); ("rot_factor", OInt 0);
           ("scale_factor", OInt 0)];
    ODict [("type", OStr "MeshAffine"); ("img_res", OInt 224)];
    ODict [("type", OStr "Normalize"); ("mean", mean); ("std", std);
           ("to_rgb", OBool true)];
    ODict [("type", OStr "ImageToTensor"); ("keys", image_keys)];
    ODict [("type", OStr "ToTensor"); ("keys", data_keys)];
    ODict [("type", OStr "Collect"); ("keys", collect_keys);
           ("meta_keys", meta_data_keys)]
  ]%string;
  mret {| img_norm_cfg := img_norm_cfg; data_keys := data_keys;
          meta_data_keys := meta_data_keys; keypoints_index := keypoints_index;
          flip_pairs := flip_pairs; train_pipeline := train_pipeline;
          test_pipeline := test_pipeline |}.

(** *** Reading the settings once the file has run *)

Fixpoint entry (key : string) (entries : list (string * obj)) : option obj :=
  match entries with
  | [] => None
  | (k, v) :: r => if String.eqb k key then Some v else entry key r
  end.

(** The first step of a pipeline whose [type] is [type]. *)
Definition has_type (type : string) (o : obj) : bool :=
  match o with
  | ODict entries =>
      match entry "type" entries with
      | Some t => is_str type t
      | None => false
      end
  | _ => false
  end.

Definition step_of_type (type : string) (steps : list obj)
    : option (list (string * obj)) :=
  match List.find (has_type type) steps with
  | Some (ODict entries) => Some entries
  | _ => None
  end.

(** The list object under [keys] of the step of type [type] of a
    pipeline, and the strings it holds in the store [s]. *)
Definition keys_object (s : store) (pipeline : obj) (type : string) : option obj :=
  match pipeline with
  | ORef loc => steps ← s !! loc; step ← step_of_type type steps; entry "keys" step
  | _ => None
  end.

Definition strings_in (s : store) (l : obj) : option (list string) :=
  match l with
  | ORef loc =>
      items ← s !! loc;
      mapM (fun o => match o with OStr x => Some x | _ => None end) items
  | _ => None
  end.

Definition keys_of (s : store) (pipeline : obj) (type : string)
    : option (list string) :=
  keys_object s pipeline type ≫= strings_in s.

End SpinPipelines.

(* ===================================================================== *)
(** ** More concrete estimators and batches                               *)
(* ===================================================================== *)

Module MoreExamples.
Import Estimator Examples ImageEstimator.

Section Doubles.
Context {F : Type} `{!Scalar F}.

(** A body model that gives the keypoints [pred_keypoints] as joints,
    whatever the parameters. *)
Definition body_of_keypoints (pred_param : @pred_param_t F)
    : result (@body_output F) :=
  Ok {| joints := Some pred_keypoints; Estimator.vertices := Some [] |}.

(** An estimator with a head, body models, a weighted squared error on 3D
    keypoints and a camera loss that is always 0. *)
Definition keypoint_estimator
    : @estimator F unit unit unit (option unit) unit unit := {|
  backbone := None;
  neck := None;
  head := Some (fun _ w => (Ok example_predictions, w));
  disc := None;
  body_model_train := Some body_of_keypoints;
  body_model_test := Some body_of_keypoints;
  convention := "human_data";
  loss_keypoints2d := None;
  loss_keypoints3d := Some weighted_square_error;
  loss_smplx_global_orient := None;
  loss_smplx_body_pose := None;
  loss_smplx_hand_pose := None;
  loss_smplx_jaw_pose := None;
  loss_smplx_expression := None;
  loss_smplx_betas := None;
  loss_smplx_betas_piror := None;
  loss_adv := None;
  loss_camera := Some (fun _ => Ok [of_Z 0]);
  Estimator.make_fake_data := fun _ _ w => (Ok None, w);
  Estimator.make_real_data := fun _ w => (Ok None, w);
  Estimator.prepare_targets := fun b w => (Ok b, w);
  parse_losses := fun losses =>
    Ok ([sum_entries (concat (map snd (map_to_list losses)))], ());
  backward := fun _ w => w
|}.

(** A batch of the one sample [gt_keypoints], with the given flags of the
    3D keypoints and the given features. *)
Definition keypoint_batch (has : option (list Z)) (feats : option unit)
    : @batch F unit unit := {|
  img := None; features := feats;
  keypoints3d := Some gt_keypoints; keypoints2d := Some [];
  has_keypoints3d := has; has_keypoints2d := None;
  smplx_global_orient := None; has_smplx_global_orient := None;
  smplx_body_pose := None; has_smplx_body_pose := None;
  smplx_jaw_pose := None; has_smplx_jaw_pose := None;
  smplx_right_hand_pose := None; has_smplx_right_hand_pose := None;
  smplx_left_hand_pose := None; has_smplx_left_hand_pose := None;
  smplx_betas := None; has_smplx_betas := None;
  smplx_expression := None; has_smplx_expression := None;
  first_value_len := Some 1%nat
|}.

(** Predictions without any key. *)
Definition no_predictions : @predictions_t F :=
  {| pred_param := None; pred_cam := None |}.

(** Loss modules for the terms of the parameters: the sum of the squared
    residuals, and modules that give back the weight they are called
    with. *)
Definition square_error2 (args : list (list F) * list (list F)) : result (@Loss F) :=
  let '(pred, target) := args in
  Ok [sum_entries (zip_with (fun a b => fmul (fsub a b) (fsub a b))
                     (concat pred) (concat target))].

Definition square_error4 (args : list (list (list (list F))) * list (list (list (list F))))
    : result (@Loss F) :=
  let '(pred, target) := args in
  Ok [sum_entries (zip_with (fun a b => fmul (fsub a b) (fsub a b))
                     (concat (concat (concat pred))) (concat (concat (concat target))))].

Definition weight_probe2 (args : list (list F) * list (list F) * list (list F))
    : result (@Loss F) :=
  let '(_, _, weight) := args in Ok (concat weight).

(** An estimator with a head, the body models of [keypoint_estimator] when
    [body] is set, and the given loss modules. *)
Definition loss_estimator (body : bool)
    (kp3d kp2d : option (list (list (list F)) * list (list (list F)) *
                         list (list (list F)) -> result (@Loss F)))
    (orient pose_ : option (list (list (list (list F))) * list (list (list (list F)))
                            -> result (@Loss F)))
    (jaw hand : option (list (list (list (list F))) * list (list (list (list F))) *
                        list (list (list (list F))) -> result (@Loss F)))
    (shape : option (list (list F) * list (list F) -> result (@Loss F)))
    (expr : option (list (list F) * list (list F) * list (list F) -> result (@Loss F)))
    : @estimator F unit unit unit (option unit) unit unit := {|
  backbone := None;
  neck := None;
  head := Some (fun _ w => (Ok example_predictions, w));
  disc := None;
  body_model_train := if body then Some body_of_keypoints else None;
  body_model_test := if body then Some body_of_keypoints else None;
  convention := "human_data";
  loss_keypoints2d := kp2d;
  loss_keypoints3d := kp3d;
  loss_smplx_global_orient := orient;
  loss_smplx_body_pose := pose_;
  loss_smplx_hand_pose := hand;
  loss_smplx_jaw_pose := jaw;
  loss_smplx_expression := expr;
  loss_smplx_betas := shape;
  loss_smplx_betas_piror := None;
  loss_adv := None;
  loss_camera := None;
  Estimator.make_fake_data := fun _ _ w => (Ok None, w);
  Estimator.make_real_data := fun _ w => (Ok None, w);
  Estimator.prepare_targets := fun b w => (Ok b, w);
  parse_losses := fun losses =>
    Ok ([sum_entries (concat (map snd (map_to_list losses)))], ());
  backward := fun _ w => w
|}.

(** The indices of the keypoints of a part, in the place of
    [get_keypoint_idxs_by_part]: the head holds the keypoints 0 and 1, the
    right hand 1 and 2, the left hand 2. *)
Definition three_parts (part convention : string) : result (list nat) :=
  if String.eqb part "head" then Ok [0; 1]%nat
  else if String.eqb part "right_hand" then Ok [1; 2]%nat
  else if String.eqb part "left_hand" then Ok [2]%nat
  else Raise (KeyError part).

(** Predictions of one sample: a jaw and two hands of one joint each, as
    axis-angles, a shape and an expression. *)
Definition part_pred_param : @pred_param_t F := {|
  global_orient := None; body_pose := None;
  jaw_pose := Some (AxisAngle [[ [of_Z 0; of_Z 0; of_Z 0] ]]);
  right_hand_pose := Some (AxisAngle [[ [of_Z 0; of_Z 0; of_Z 0] ]]);
  left_hand_pose := Some (AxisAngle [[ [of_Z 0; of_Z 0; of_Z 0] ]]);
  betas := Some [[of_Z 0; of_Z 0]];
  expression := Some [[of_Z 0]]
|}.

Definition part_predictions : @predictions_t F :=
  {| pred_param := Some part_pred_param; pred_cam := Some [] |}.

(** Targets of one sample for the terms of the jaw, the hands, the shape
    and the expression.  The 2D keypoints 0, 1 and 2 have the confidences
    0, 1 and 3 in their trailing channel; the 3D keypoints carry other
    values.  The flags of the shape are given by [has_betas]. *)
Definition part_batch (has_betas : option (list Z)) : @batch F unit unit := {|
  img := None; features := Some ();
  keypoints3d := Some [[ [of_Z 5; of_Z 5; of_Z 5; of_Z 7]; [of_Z 5; of_Z 5; of_Z 5; of_Z 7];
                         [of_Z 5; of_Z 5; of_Z 5; of_Z 7] ]];
  keypoints2d := Some [[ [of_Z 5; of_Z 5; of_Z 0]; [of_Z 5; of_Z 5; of_Z 1];
                         [of_Z 5; of_Z 5; of_Z 3] ]];
  has_keypoints3d := None; has_keypoints2d := None;
  smplx_global_orient := None; has_smplx_global_orient := None;
  smplx_body_pose := None; has_smplx_body_pose := None;
  smplx_jaw_pose := Some [[of_Z 1; of_Z 0; of_Z 0]]; has_smplx_jaw_pose := Some [1];
  smplx_right_hand_pose := Some [[ [of_Z 1; of_Z 0; of_Z 0] ]];
  has_smplx_right_hand_pose := Some [1];
  smplx_left_hand_pose := Some [[ [of_Z 1; of_Z 0; of_Z 0] ]];
  has_smplx_left_hand_pose := Some [1];
  smplx_betas := Some [[of_Z 1; of_Z 1]]; has_smplx_betas := has_betas;
  smplx_expression := Some [[of_Z 1]]; has_smplx_expression := Some [1];
  first_value_len := Some 1%nat
|}.

(** One sample of two keypoints, and one sample of 2D targets with three
    keypoints of confidence 1. *)
Definition two_keypoints : list (list (list F)) :=
  [[ [of_Z 0; of_Z 0; of_Z 0]; [of_Z 1; of_Z 0; of_Z 0] ]].

Definition gt_keypoints2d : list (list (list F)) :=
  [[ [of_Z 0; of_Z 0; of_Z 1]; [of_Z 223; of_Z 0; of_Z 1];
     [of_Z 0; of_Z 223; of_Z 1] ]].

End Doubles.

Definition keypoint32 : @estimator float32 unit unit unit (option unit) unit unit :=
  keypoint_estimator.

(** Single-precision estimators: one with a loss module for every term
    with flags, one with the modules of the terms that take confidences,
    each giving back its weight, and one with the module of the shape
    only. *)
Definition terms32 : @estimator float32 unit unit unit (option unit) unit unit :=
  loss_estimator true (Some weighted_square_error) (Some weighted_square_error)
    (Some square_error4) (Some square_error4) (Some weight_probe) (Some weight_probe)
    (Some square_error2) (Some weight_probe2).

Definition weights32 : @estimator float32 unit unit unit (option unit) unit unit :=
  loss_estimator false None None None None (Some weight_probe) (Some weight_probe)
    None (Some weight_probe2).

Definition shape32 : @estimator float32 unit unit unit (option unit) unit unit :=
  loss_estimator false None None None None None None (Some square_error2) None.

(** The keyword arguments and the metas of a test call. *)
Definition example_kwargs : @test_kwargs unit nat :=
  {| kw_features := Some (); kw_sample_idx := Some 7%nat |}.

Definition example_metas : list (gmap string string) :=
  [ {[ "image_path"%string := "a.jpg"%string ]};
    {[ "image_path"%string := "b.jpg"%string; "dataset_name"%string := "pw3d"%string ]} ].

End MoreExamples.

(* ===================================================================== *)
(** ** Properties of the OpenPose tables                                  *)
(* ===================================================================== *)

(** Decides a closed decidable proposition by evaluation. *)
Ltac by_compute :=
  match goal with
  | |- ?P => apply (bool_decide_unpack P); vm_compute; exact I
  end.

Module OpenposeSpec.
Import Openpose.

Lemma index_of_lookup (l : list string) (name : string) (i : nat) :
  index_of name l = Some i ->
  l !! i = Some name /\ forall j, (j < i)%nat -> l !! j <> Some name.
Proof.
  revert i. induction l as [|x r IH]; intros i; simpl; [discriminate|].
  destruct (String.eqb_spec x name) as [->|Hne].
  - intros [= <-]. split; [reflexivity|]. intros j Hj. lia.
  - destruct (index_of name r) as [k|] eqn:Hk; simpl; [|discriminate].
    intros [= <-]. destruct (IH k eq_refl) as [Hat Hbefore].
    split; [exact Hat|]. intros [|j] Hj; simpl.
    + intros [= Hx]. exact (Hne Hx).
    + apply Hbefore. lia.
Qed.

Lemma index_of_is_Some (l : list string) (name : string) :
  name ∈ l -> is_Some (index_of name l).
Proof.
  induction l as [|x r IH]; simpl.
  - intros H. inversion H.
  - intros H. destruct (String.eqb_spec x name) as [->|Hne]; [eexists; reflexivity|].
    apply elem_of_cons in H as [->|H]; [congruence|].
    destruct (IH H) as [k ->]. eexists; reflexivity.
Qed.

Lemma NoDup_unique_index (l : list string) : NoDup l -> unique_index l.
Proof.
  intros Hnd i name Hi.
  destruct (index_of_is_Some l name) as [k Hk].
  { eapply list_elem_of_lookup_2; exact Hi. }
  destruct (index_of_lookup l name k Hk) as [Hat _].
  rewrite Hk. f_equal. eapply NoDup_lookup; eauto.
Qed.

Lemma unique_index_NoDup (l : list string) : unique_index l -> NoDup l.
Proof.
  intros Hu. apply NoDup_alt. intros i j name Hi Hj.
  apply Hu in Hi. apply Hu in Hj. congruence.
Qed.

(** C5: every table has the number of entries its name states. *)
Theorem openpose_table_sizes :
  length OPENPOSE_25_KEYPOINTS = 25%nat /\
  length OPENPOSE_118_KEYPOINTS = 118%nat /\
  length OPENPOSE_135_KEYPOINTS = 135%nat /\
  length OPENPOSE_137_KEYPOINTS = 137%nat /\
  OPENPOSE_137_KEYPOINTS =
    take 19 OPENPOSE_JOINTS ++ OPENPOSE_FEET_KEYPOINTS ++ drop 19 OPENPOSE_JOINTS.
Proof. repeat split; reflexivity. Qed.

(** C3, as claimed, fails: in [OPENPOSE_137_KEYPOINTS] the names
    ["left_wrist"] and ["right_wrist"] stand twice (once as body keypoint,
    once as root of the hand), so the table has repeated names and the
    lookup by name does not give the positions 25 and 46 back. *)
Lemma openpose_137_repeats_wrists :
  OPENPOSE_137_KEYPOINTS !! 7%nat = Some "left_wrist"%string /\
  OPENPOSE_137_KEYPOINTS !! 25%nat = Some "left_wrist"%string /\
  OPENPOSE_137_KEYPOINTS !! 4%nat = Some "right_wrist"%string /\
  OPENPOSE_137_KEYPOINTS !! 46%nat = Some "right_wrist"%string /\
  index_of "left_wrist" OPENPOSE_137_KEYPOINTS = Some 7%nat /\
  ~ NoDup OPENPOSE_137_KEYPOINTS /\
  ~ unique_index OPENPOSE_137_KEYPOINTS /\
  ~ (NoDup OPENPOSE_25_KEYPOINTS /\ NoDup OPENPOSE_118_KEYPOINTS /\
     NoDup OPENPOSE_135_KEYPOINTS /\ NoDup OPENPOSE_137_KEYPOINTS).
Proof.
  assert (Hnd : ~ NoDup OPENPOSE_137_KEYPOINTS).
  { intros Hnd.
    assert (H : 7%nat = 25%nat) by (eapply NoDup_lookup; [exact Hnd| |]; reflexivity).
    discriminate H. }
  repeat split; try reflexivity; try exact Hnd.
  - intros Hu. apply Hnd, unique_index_NoDup, Hu.
  - intros (_ & _ & _ & H). exact (Hnd H).
Qed.

(** C3, amended: the tables of 25, 118 and 135 keypoints hold every name
    once, so looking a name up gives the position of its only entry; in the
    table of 137 keypoints every name stands once, except ["left_wrist"] and
    ["right_wrist"], which stand twice and are found at their first (body)
    position. *)
Theorem openpose_names_unique_but_wrists :
  (NoDup OPENPOSE_25_KEYPOINTS /\ unique_index OPENPOSE_25_KEYPOINTS) /\
  (NoDup OPENPOSE_118_KEYPOINTS /\ unique_index OPENPOSE_118_KEYPOINTS) /\
  (NoDup OPENPOSE_135_KEYPOINTS /\ unique_index OPENPOSE_135_KEYPOINTS) /\
  Forall (fun name =>
            occurrences name OPENPOSE_137_KEYPOINTS =
              if decide (name = "left_wrist" \/ name = "right_wrist")%string
              then 2%nat else 1%nat)
         OPENPOSE_137_KEYPOINTS /\
  index_of "left_wrist" OPENPOSE_137_KEYPOINTS = Some 7%nat /\
  index_of "right_wrist" OPENPOSE_137_KEYPOINTS = Some 4%nat.
Proof.
  assert (H25 : NoDup OPENPOSE_25_KEYPOINTS) by by_compute.
  assert (H118 : NoDup OPENPOSE_118_KEYPOINTS) by by_compute.
  assert (H135 : NoDup OPENPOSE_135_KEYPOINTS) by by_compute.
  repeat split; auto using NoDup_unique_index.
  by_compute.
Qed.

End OpenposeSpec.

(* ===================================================================== *)
(** ** Properties of the SPIN configuration                               *)
(* ===================================================================== *)

Module SpinConfigSpec.
Import SpinConfig Smplify.

Section Fixed.
Context {V O : Type}.
Variable update : parameter -> O -> @params V -> V.
Variable advance : O -> @params V -> O.



End Fixed.


End SpinConfigSpec.

(* ===================================================================== *)
(** ** Properties of the estimator                                        *)
(* ===================================================================== *)

Module EstimatorSpec.
Import Estimator Examples Properties.

Section Monads.
Context {A B : Type}.

Lemma bind_lift_ok (a : A) (f : A -> L B) : lift (Ok a) ≫= f = f a.
Proof. unfold mbind, L_bind, lift; simpl. destruct (f a); reflexivity. Qed.

End Monads.

Section Masks.
Context {A : Type}.

Lemma select_none_valid (has : list Z) (x : list A) :
  none_valid has -> select (map (Z.eqb 1) has) x = [].
Proof.
  intros Hn. revert x. induction Hn as [|h has Hh _ IH]; intros [|a x]; cbn [select map]; try reflexivity.
  destruct (Z.eqb_spec 1 h) as [E|_]; [congruence|]. apply IH.
Qed.

Lemma index_mask_none_valid (has : list Z) (x : list A) :
  none_valid has -> length has = length x ->
  index_mask x (eq_one has) = Ok [].
Proof.
  intros Hn Hlen. unfold index_mask, eq_one. rewrite length_map, Hlen, Nat.eqb_refl.
  by rewrite select_none_valid.
Qed.

Lemma select_same_where_valid (h : list Z) (x y : list A) :
  same_where_valid (Some h) x y ->
  select (map (Z.eqb 1) h) x = select (map (Z.eqb 1) h) y.
Proof.
  revert x y. induction h as [|a h IH]; intros x y [Hlen Hv]; [reflexivity|].
  destruct x as [|x0 x], y as [|y0 y]; try discriminate Hlen; [reflexivity|].
  assert (Htl : select (map (Z.eqb 1) h) x = select (map (Z.eqb 1) h) y).
  { apply IH. split; [by injection Hlen|]. intros i Hi. exact (Hv (S i) Hi). }
  cbn [select map]. destruct (Z.eqb_spec 1 a) as [<-|_]; [|exact Htl].
  assert (H0 : Some x0 = Some y0) by exact (Hv 0%nat eq_refl).
  injection H0 as ->. by rewrite Htl.
Qed.

Lemma index_mask_same_where_valid (has : option (list Z)) (x y : list A) :
  same_where_valid has x y ->
  index_mask x (eq_one_opt has) = index_mask y (eq_one_opt has).
Proof.
  intros Hs. destruct has as [h|]; [|reflexivity].
  unfold eq_one_opt, eq_one, index_mask. destruct Hs as [Hlen Hv].
  rewrite <- Hlen. destruct (_ =? _)%nat; [|reflexivity].
  f_equal. apply select_same_where_valid. by split.
Qed.

End Masks.

Lemma same_where_valid_map {A B : Type} (f : A -> B) has (x y : list A) :
  same_where_valid has x y -> same_where_valid has (map f x) (map f y).
Proof.
  intros [Hlen Hv]. split; [by rewrite !length_map|].
  intros i Hi. rewrite !list_lookup_fmap. by rewrite (Hv i Hi).
Qed.

Section Shapes.
Context {A : Type}.

Lemma length_concat_rect2 (n : nat) (l : list (list A)) :
  rect2 n l -> length (concat l) = (length l * n)%nat.
Proof.
  induction 1 as [|r l Hr _ IH]; [reflexivity|].
  cbn [concat length]. rewrite length_app, Hr, IH. lia.
Qed.

Lemma chunks_concat (n : nat) (l : list (list A)) (fuel : nat) :
  (0 < n)%nat -> rect2 n l -> (length l <= fuel)%nat ->
  chunks fuel n (concat l) = l.
Proof.
  intros Hn Hl. revert fuel.
  induction Hl as [|r l Hr _ IH]; intros fuel Hfuel.
  - destruct fuel; reflexivity.
  - destruct fuel as [|fuel]; [simpl in Hfuel; lia|].
    destruct r as [|a r]; [simpl in Hr; lia|].
    cbn [concat chunks app].
    change (a :: r ++ concat l) with ((a :: r) ++ concat l).
    rewrite take_app_length', drop_app_length' by (symmetry; exact Hr).
    rewrite IH by (simpl in Hfuel; lia). reflexivity.
Qed.

Lemma view_rows_concat (n : nat) (l : list (list A)) :
  (0 < n)%nat -> rect2 n l -> view_rows n (concat l) = Ok l.
Proof.
  intros Hn Hl. unfold view_rows.
  destruct (Nat.eqb_spec n 0) as [->|_]; [lia|].
  rewrite (length_concat_rect2 n l Hl), Nat.Div0.mod_mul, Nat.eqb_refl.
  rewrite chunks_concat; [reflexivity|exact Hn|exact Hl|nia].
Qed.

Lemma rect3_concat (J C : nat) (x : list (list (list A))) :
  rect3 J C x -> rect2 C (concat x).
Proof.
  unfold rect3, rect2. induction 1 as [|s x [_ Hs] _ IH]; [constructor|].
  cbn [concat]. apply Forall_app. by split.
Qed.

End Shapes.

Section Losses.
Context {F : Type} `{!Scalar F}.
Context {World Img Features DiscData Score LogVars : Type}.
Variable batch_rodrigues : list (list F) -> result (list (list (list F))).
Variable weak_perspective_projection :
  list (list (list F)) -> list F -> list (list F) -> result (list (list (list F))).

Local Abbreviation T1 := (list F).
Local Abbreviation T2 := (list (list F)).
Local Abbreviation T3 := (list (list (list F))).
Local Abbreviation T4 := (list (list (list (list F)))).
Local Abbreviation estimator :=
  (@estimator F World Img Features DiscData Score LogVars).

Ltac short_circuit :=
  cbv zeta; rewrite ?bind_lift_ok;
  match goal with
  | Hn : none_valid ?has, Hlen : length ?has = length ?x |- context [index_mask ?y (eq_one ?has)] =>
      rewrite (index_mask_none_valid has y Hn) by (rewrite ?length_map; exact Hlen)
  end;
  rewrite ?bind_lift_ok; reflexivity.

(** C2: a loss term whose flags mark no sample as valid returns the zero
    loss and makes no call: the loss module is not invoked (whatever the
    module is, configured or not). *)
Theorem empty_selection_returns_zero_without_call (self : estimator) :
  (forall (pred gt : T3) (has : list Z),
      has_channel 3 gt = true -> selects_nothing has gt ->
      compute_keypoints3d_loss self pred gt (Some has) = Run (Ok zero_loss) []) /\
  (forall (pred : T3) (cam : T2) (gt : T3) (img_res focal_length : Z) (has : list Z),
      has_channel 2 gt = true -> selects_nothing has gt ->
      compute_keypoints2d_loss weak_perspective_projection self pred cam gt
        img_res focal_length (Some has) = Run (Ok zero_loss) []) /\
  (forall (pred : T4) (gt : T3) (has : list Z),
      selects_nothing has gt ->
      compute_smplx_body_pose_loss batch_rodrigues self pred gt has
        = Run (Ok zero_loss) []) /\
  (forall (pred : T4) (gt : T2) (has : list Z),
      selects_nothing has gt ->
      compute_smplx_global_orient_loss batch_rodrigues self pred gt has
        = Run (Ok zero_loss) []) /\
  (forall (pred : T4) (gt : T2) (has : list Z) (face_conf : T2),
      selects_nothing has gt ->
      compute_smplx_jaw_pose_loss batch_rodrigues self pred gt has face_conf
        = Run (Ok zero_loss) []) /\
  (forall (pred : T4) (gt : T3) (has : list Z) (hand_conf : T2),
      selects_nothing has gt ->
      compute_smplx_hand_pose_loss batch_rodrigues self pred gt has hand_conf
        = Run (Ok zero_loss) []) /\
  (forall (pred gt : T2) (has : list Z),
      selects_nothing has gt ->
      compute_smplx_betas_loss self pred gt has = Run (Ok zero_loss) []) /\
  (forall (pred gt : T2) (has : list Z) (face_conf : T2),
      selects_nothing has gt ->
      compute_smplx_expression_loss self pred gt has face_conf
        = Run (Ok zero_loss) []).
Proof.
  repeat split.
  - intros pred gt has Hc [Hn Hlen].
    unfold compute_keypoints3d_loss, channel, repeat_last, eq_one_opt. rewrite Hc.
    short_circuit.
  - intros pred cam gt img_res fl has Hc [Hn Hlen].
    unfold compute_keypoints2d_loss, channel, repeat_last, eq_one_opt. rewrite Hc.
    short_circuit.
  - intros pred gt has [Hn Hlen]. unfold compute_smplx_body_pose_loss. short_circuit.
  - intros pred gt has [Hn Hlen]. unfold compute_smplx_global_orient_loss. short_circuit.
  - intros pred gt has fc [Hn Hlen]. unfold compute_smplx_jaw_pose_loss. short_circuit.
  - intros pred gt has hc [Hn Hlen]. unfold compute_smplx_hand_pose_loss. short_circuit.
  - intros pred gt has [Hn Hlen]. unfold compute_smplx_betas_loss. short_circuit.
  - intros pred gt has fc [Hn Hlen]. unfold compute_smplx_expression_loss. short_circuit.
Qed.

(** C8: without flags ([has_keypoints3d] or [has_keypoints2d] is [None])
    the keypoint terms return the zero loss and make no call. *)
Theorem keypoint_losses_without_flags (self : estimator) :
  (forall (pred gt : T3),
      has_channel 3 gt = true ->
      compute_keypoints3d_loss self pred gt None = Run (Ok zero_loss) []) /\
  (forall (pred : T3) (cam : T2) (gt : T3) (img_res focal_length : Z),
      has_channel 2 gt = true ->
      compute_keypoints2d_loss weak_perspective_projection self pred cam gt
        img_res focal_length None = Run (Ok zero_loss) []).
Proof.
  split.
  - intros pred gt Hc. unfold compute_keypoints3d_loss, channel. rewrite Hc.
    reflexivity.
  - intros pred cam gt img_res fl Hc. unfold compute_keypoints2d_loss, channel.
    rewrite Hc. reflexivity.
Qed.

Variable rodrigues : T1 -> T2.
Variable project : T2 -> F -> T1 -> T2.

Lemma index_mask_map_same {A B : Type} (f : A -> B) has (x y : list A) :
  same_where_valid has x y ->
  index_mask (map f y) (eq_one_opt has) = index_mask (map f x) (eq_one_opt has).
Proof.
  intros H. symmetry. by apply index_mask_same_where_valid, same_where_valid_map.
Qed.

Lemma index_mask_same has {A : Type} (x y : list A) :
  same_where_valid has x y ->
  index_mask y (eq_one_opt has) = index_mask x (eq_one_opt has).
Proof. intros H. symmetry. by apply index_mask_same_where_valid. Qed.

Lemma kp3d_same_where_valid (self : estimator) has (pred pred' gt gt' : T3) :
  same_where_valid has pred pred' -> same_where_valid has gt gt' ->
  has_channel 3 gt = has_channel 3 gt' ->
  compute_keypoints3d_loss self pred gt has =
  compute_keypoints3d_loss self pred' gt' has.
Proof.
  intros Hp Hg Hc. unfold compute_keypoints3d_loss, channel.
  rewrite <- Hc. destruct (has_channel 3 gt); [|reflexivity].
  rewrite !bind_lift_ok. cbv zeta. unfold repeat_last, first_channels.
  rewrite !map_map.
  rewrite !(index_mask_map_same _ has gt gt' Hg).
  rewrite !(index_mask_same has pred pred' Hp).
  reflexivity.
Qed.

Lemma same_where_valid_zip_with {A B C : Type} (f : A -> B -> C) has
    (x x' : list A) (y y' : list B) :
  same_where_valid has x x' -> same_where_valid has y y' ->
  same_where_valid has (zip_with f x y) (zip_with f x' y').
Proof.
  intros [Hlx Hx] [Hly Hy]. split.
  - rewrite !length_zip_with. lia.
  - intros i Hi. rewrite !lookup_zip_with. by rewrite (Hx i Hi), (Hy i Hi).
Qed.

Lemma column_rect2 (k C : nat) (x : T2) :
  (k < C)%nat -> rect2 C x ->
  column k x = Ok (map (fun r : T1 => nth k r (of_Z 0)) x).
Proof.
  intros Hk Hx. unfold column.
  replace (forallb _ x) with true; [reflexivity|].
  symmetry. apply forallb_forall. intros r Hr.
  apply Nat.ltb_lt. unfold rect2 in Hx. rewrite List.Forall_forall in Hx.
  by rewrite (Hx r Hr).
Qed.

Lemma columns_rect2 (a b C : nat) (x : T2) :
  (b <= C)%nat -> rect2 C x -> rect2 (b - a) (columns a b x).
Proof.
  intros Hb Hx. unfold rect2, columns. rewrite Forall_map.
  eapply Forall_impl; [exact Hx|]. intros r Hr. simpl.
  rewrite length_take, length_drop, Hr. lia.
Qed.

Lemma rotmat_view_rows (gt : T2) :
  rowwise_rodrigues batch_rodrigues rodrigues -> rect2 3 gt ->
  rotmat_view batch_rodrigues 1 (concat gt) = Ok (map (fun r => [rodrigues r]) gt).
Proof.
  intros Hrod Hgt. unfold rotmat_view.
  rewrite view_rows_concat by (lia || exact Hgt). cbn [mbind result_bind].
  rewrite (Hrod gt Hgt).  cbn [mbind result_bind].
  rewrite <- (view_rows_concat 1 (map (fun r => [rodrigues r]) gt)).
  - f_equal. induction gt as [|r gt IH]; [reflexivity|].
    cbn [map concat app]. f_equal. apply IH. by inversion Hgt.
  - lia.
  - unfold rect2. rewrite Forall_map. by apply Forall_true.
Qed.

Lemma rotmat_view_joints (J : nat) (gt : T3) :
  rowwise_rodrigues batch_rodrigues rodrigues -> rect3 J 3 gt ->
  rotmat_view batch_rodrigues J (concat (concat gt)) =
    if (J =? 0)%nat then Raise RuntimeError else Ok (map (map rodrigues) gt).
Proof.
  intros Hrod Hgt. unfold rotmat_view.
  pose proof (rect3_concat J 3 gt Hgt) as Hrows.
  rewrite view_rows_concat by (lia || exact Hrows). cbn [mbind result_bind].
  rewrite (Hrod _ Hrows). cbn [mbind result_bind].
  destruct (Nat.eqb_spec J 0) as [->|HJ]; [reflexivity|].
  rewrite concat_map. apply view_rows_concat; [lia|].
  unfold rect2. rewrite Forall_map.
  eapply Forall_impl; [exact Hgt|]. intros s [Hs _]. simpl. by rewrite length_map.
Qed.

(** C1: every loss term with a validity flag depends only on the samples
    whose flag is 1.  Changing predictions, targets or confidences of the
    other samples (the tensors keep their shapes) leaves the term as it
    is, calls included. *)
Theorem losses_depend_on_valid_samples_only :
  rowwise_rodrigues batch_rodrigues rodrigues -> samplewise_projection weak_perspective_projection project ->
  forall self : estimator,
  (forall has (pred pred' gt gt' : T3),
      same_where_valid has pred pred' -> same_where_valid has gt gt' ->
      has_channel 3 gt = has_channel 3 gt' ->
      compute_keypoints3d_loss self pred gt has =
      compute_keypoints3d_loss self pred' gt' has) /\
  (forall has (pred pred' : T3) (cam cam' : T2) (gt gt' : T3) (img_res focal_length : Z),
      same_where_valid has pred pred' -> same_where_valid has cam cam' ->
      same_where_valid has gt gt' ->
      length cam = length pred -> rect2 3 cam -> rect2 3 cam' ->
      has_channel 2 gt = has_channel 2 gt' ->
      compute_keypoints2d_loss weak_perspective_projection self pred cam gt
        img_res focal_length has =
      compute_keypoints2d_loss weak_perspective_projection self pred' cam' gt'
        img_res focal_length has) /\
  (forall has (pred pred' : T4) (gt gt' : T2),
      same_where_valid (Some has) pred pred' -> same_where_valid (Some has) gt gt' ->
      rect2 3 gt -> rect2 3 gt' ->
      compute_smplx_global_orient_loss batch_rodrigues self pred gt has =
      compute_smplx_global_orient_loss batch_rodrigues self pred' gt' has) /\
  (forall has (J : nat) (pred pred' : T4) (gt gt' : T3),
      same_where_valid (Some has) pred pred' -> same_where_valid (Some has) gt gt' ->
      dim1 pred = J -> dim1 pred' = J -> rect3 J 3 gt -> rect3 J 3 gt' ->
      compute_smplx_body_pose_loss batch_rodrigues self pred gt has =
      compute_smplx_body_pose_loss batch_rodrigues self pred' gt' has) /\
  (forall has (pred pred' : T4) (gt gt' face_conf face_conf' : T2),
      same_where_valid (Some has) pred pred' -> same_where_valid (Some has) gt gt' ->
      same_where_valid (Some has) face_conf face_conf' ->
      rect2 3 gt -> rect2 3 gt' ->
      compute_smplx_jaw_pose_loss batch_rodrigues self pred gt has face_conf =
      compute_smplx_jaw_pose_loss batch_rodrigues self pred' gt' has face_conf') /\
  (forall has (J : nat) (pred pred' : T4) (gt gt' : T3) (hand_conf hand_conf' : T2),
      same_where_valid (Some has) pred pred' -> same_where_valid (Some has) gt gt' ->
      same_where_valid (Some has) hand_conf hand_conf' ->
      dim1 pred = J -> dim1 pred' = J -> rect3 J 3 gt -> rect3 J 3 gt' ->
      compute_smplx_hand_pose_loss batch_rodrigues self pred gt has hand_conf =
      compute_smplx_hand_pose_loss batch_rodrigues self pred' gt' has hand_conf') /\
  (forall has (pred pred' gt gt' : T2),
      same_where_valid (Some has) pred pred' -> same_where_valid (Some has) gt gt' ->
      compute_smplx_betas_loss self pred gt has =
      compute_smplx_betas_loss self pred' gt' has) /\
  (forall has (pred pred' gt gt' face_conf face_conf' : T2),
      same_where_valid (Some has) pred pred' -> same_where_valid (Some has) gt gt' ->
      same_where_valid (Some has) face_conf face_conf' ->
      compute_smplx_expression_loss self pred gt has face_conf =
      compute_smplx_expression_loss self pred' gt' has face_conf').
Proof.
  intros Hrod Hwpp self. repeat split.
  - intros has pred pred' gt gt'. apply kp3d_same_where_valid.
  - intros has pred pred' cam cam' gt gt' img_res fl Hp Hcam Hg Hlen Hr Hr' Hc.
    unfold compute_keypoints2d_loss, channel.
    rewrite <- Hc. destruct (has_channel 2 gt); [|reflexivity].
    rewrite !bind_lift_ok. cbv zeta.
    rewrite !(column_rect2 0 3) by (lia || assumption).
    rewrite !bind_lift_ok.
    assert (Hlen' : length cam' = length pred') by (destruct Hp, Hcam; congruence).
    rewrite !Hwpp by
      (rewrite ?length_map; first [assumption | unfold columns; by rewrite length_map
                                   | apply (columns_rect2 1 3 3); [lia|assumption]]).
    rewrite !bind_lift_ok.
    assert (Hz : same_where_valid has
                   (zip_with (fun ps t => project ps.1 ps.2 t)
                      (zip pred (map (fun r : T1 => nth 0 r (of_Z 0)) cam))
                      (columns 1 3 cam))
                   (zip_with (fun ps t => project ps.1 ps.2 t)
                      (zip pred' (map (fun r : T1 => nth 0 r (of_Z 0)) cam'))
                      (columns 1 3 cam'))).
    { apply same_where_valid_zip_with; [apply same_where_valid_zip_with|];
        [exact Hp | by apply same_where_valid_map | by apply same_where_valid_map]. }
    rewrite (index_mask_same has _ _ Hz).
    unfold repeat_last, first_channels, normalize_keypoints. rewrite !map_map.
    rewrite !(index_mask_map_same _ has gt gt' Hg).
    reflexivity.
  - intros has pred pred' gt gt' Hp Hg Hr Hr'.
    unfold compute_smplx_global_orient_loss. cbv zeta.
    rewrite !rotmat_view_rows by assumption. rewrite ?bind_lift_ok.
    change (eq_one has) with (eq_one_opt (Some has)).
    rewrite !(index_mask_map_same _ (Some has) gt gt' Hg).
    rewrite !(index_mask_same (Some has) gt gt' Hg).
    rewrite !(index_mask_same (Some has) pred pred' Hp).
    reflexivity.
  - intros has J pred pred' gt gt' Hp Hg HJ HJ' Hr Hr'.
    unfold compute_smplx_body_pose_loss. cbv zeta. rewrite HJ, HJ'.
    rewrite !(rotmat_view_joints J) by assumption.
    destruct (J =? 0)%nat; rewrite ?bind_lift_ok.
    all: change (eq_one has) with (eq_one_opt (Some has)).
    all: rewrite ?(index_mask_map_same _ (Some has) gt gt' Hg).
    all: rewrite !(index_mask_same (Some has) gt gt' Hg).
    all: rewrite !(index_mask_same (Some has) pred pred' Hp).
    all: reflexivity.
  - intros has pred pred' gt gt' fc fc' Hp Hg Hf Hr Hr'.
    unfold compute_smplx_jaw_pose_loss. cbv zeta.
    rewrite !rotmat_view_rows by assumption. rewrite ?bind_lift_ok, !map_map.
    change (eq_one has) with (eq_one_opt (Some has)).
    rewrite !(index_mask_map_same _ (Some has) gt gt' Hg).
    rewrite !(index_mask_map_same _ (Some has) fc fc' Hf).
    rewrite !(index_mask_same (Some has) gt gt' Hg).
    rewrite !(index_mask_same (Some has) pred pred' Hp).
    reflexivity.
  - intros has J pred pred' gt gt' hc hc' Hp Hg Hh HJ HJ' Hr Hr'.
    unfold compute_smplx_hand_pose_loss. cbv zeta. rewrite HJ, HJ'.
    rewrite !(rotmat_view_joints J) by assumption. rewrite !map_map.
    destruct (J =? 0)%nat; rewrite ?bind_lift_ok.
    all: change (eq_one has) with (eq_one_opt (Some has)).
    all: rewrite ?(index_mask_map_same _ (Some has) gt gt' Hg).
    all: rewrite !(index_mask_map_same _ (Some has) hc hc' Hh).
    all: rewrite !(index_mask_same (Some has) gt gt' Hg).
    all: rewrite !(index_mask_same (Some has) pred pred' Hp).
    all: reflexivity.
  - intros has pred pred' gt gt' Hp Hg.
    unfold compute_smplx_betas_loss. cbv zeta.
    change (eq_one has) with (eq_one_opt (Some has)).
    rewrite !(index_mask_same (Some has) gt gt' Hg).
    rewrite !(index_mask_same (Some has) pred pred' Hp).
    reflexivity.
  - intros has pred pred' gt gt' fc fc' Hp Hg Hf.
    unfold compute_smplx_expression_loss. cbv zeta. rewrite !map_map.
    change (eq_one has) with (eq_one_opt (Some has)).
    rewrite !(index_mask_map_same _ (Some has) fc fc' Hf).
    rewrite !(index_mask_same (Some has) gt gt' Hg).
    rewrite !(index_mask_same (Some has) pred pred' Hp).
    reflexivity.
Qed.

End Losses.

Section Translation.
Context {F : Type} `{!Scalar F}.

Local Abbreviation T1 := (list F).
Local Abbreviation T2 := (list (list F)).
Local Abbreviation T3 := (list (list (list F))).

Lemma zip_with_map_diag {A B C : Type} (f : A -> B -> C) (g : A -> B) (x : list A) :
  zip_with f x (map g x) = map (fun a => f a (g a)) x.
Proof. induction x as [|a x IH]; [reflexivity|]. simpl. by rewrite IH. Qed.

Lemma sub_broadcast_pelvis (x : T3) :
  sub_broadcast x (map (fun s : T2 => mean_rows (map (fun i => nth i s []) [1; 2]%nat)) x)
  = map centered x.
Proof. unfold sub_broadcast. by rewrite zip_with_map_diag. Qed.

Lemma map_map_ext_Forall {A B : Type} (P : A -> Prop) (f g : A -> B)
    (x : list (list A)) :
  (forall a, P a -> f a = g a) -> Forall (Forall P) x ->
  map (map f) x = map (map g) x.
Proof.
  intros Hfg Hx. induction Hx as [|s x Hs _ IH]; [reflexivity|].
  cbn [map]. rewrite IH. f_equal.
  induction Hs as [|a s Ha _ IHs]; [reflexivity|].
  cbn [map]. by rewrite IHs, (Hfg a Ha).
Qed.

Lemma index_mask_map {A B : Type} (f : A -> B) (x : list A) (m : mask) :
  index_mask (map f x) m = s ← index_mask x m; Ok (map f s).
Proof.
  destruct m as [|m]; [reflexivity|]. unfold index_mask. rewrite length_map.
  destruct (_ =? _)%nat; [|reflexivity]. cbn [mbind result_bind]. f_equal.
  revert x. induction m as [|b m IH]; intros [|a x]; try reflexivity.
  cbn [select map]. destruct b; by rewrite IH.
Qed.

Lemma index_mask_Forall {A : Type} (P : A -> Prop) (x s : list A) (m : mask) :
  index_mask x m = Ok s -> Forall P x -> Forall P s.
Proof.
  destruct m as [|m]; [intros [= <-]; constructor|].
  unfold index_mask. destruct (_ =? _)%nat; [|discriminate].
  intros [= <-] Hx. revert m. induction Hx as [|a x Ha _ IH]; intros [|b m]; try constructor.
  cbn [select]. destruct b; [constructor|]; auto.
Qed.

Lemma map_map2 {A B C : Type} (f : A -> B) (g : B -> C) (x : list (list A)) :
  map (map g) (map (map f) x) = map (map (fun a => g (f a))) x.
Proof. rewrite map_map. apply map_ext. intros s. apply map_map. Qed.

Lemma has_channel_keypoints (k C : nat) (x : T3) :
  (k < C)%nat -> keypoints_of C x -> has_channel k x = true.
Proof.
  intros Hk Hx. unfold has_channel. apply forallb_forall. intros s Hs.
  apply forallb_forall. intros kp Hkp. apply Nat.ltb_lt.
  unfold keypoints_of in Hx. rewrite List.Forall_forall in Hx.
  specialize (Hx s Hs). rewrite List.Forall_forall in Hx. by rewrite (Hx kp Hkp).
Qed.

Lemma translate_coords_confidence (c : T1) (x : T3) :
  length c = 3%nat -> keypoints_of 4 x ->
  has_channel 3 (translate_coords c x) = has_channel 3 x /\
  map (map (fun kp : T1 => [nth 3 kp (of_Z 0)])) (translate_coords c x)
    = map (map (fun kp : T1 => [nth 3 kp (of_Z 0)])) x /\
  first_channels 3 (translate_coords c x) = translate c (first_channels 3 x) /\
  keypoints_of 3 (first_channels 3 x).
Proof.
  intros Hc Hx.
  destruct c as [|c0 [|c1 [|c2 [|]]]]; try discriminate Hc.
  assert (Hkp : forall kp : T1, length kp = 4%nat ->
                  exists a b d e, kp = [a; b; d; e]).
  { intros [|a [|b [|d [|e [|]]]]]; try discriminate. intros _. by do 4 eexists. }
  repeat split.
  - rewrite (has_channel_keypoints 3 4 x) by (lia || assumption).
    apply (has_channel_keypoints 3 4); [lia|].
    unfold keypoints_of, translate_coords. rewrite Forall_map.
    eapply Forall_impl; [exact Hx|]. intros s Hs. simpl. rewrite Forall_map.
    eapply Forall_impl; [exact Hs|]. intros kp Hl. simpl.
    by destruct (Hkp kp Hl) as (a & b & d & e & ->).
  - unfold translate_coords. rewrite map_map2.
    apply (map_map_ext_Forall (fun kp => length kp = 4%nat)); [|exact Hx].
    intros kp Hl. by destruct (Hkp kp Hl) as (a & b & d & e & ->).
  - unfold translate_coords, first_channels, translate. rewrite !map_map2.
    apply (map_map_ext_Forall (fun kp => length kp = 4%nat)); [|exact Hx].
    intros kp Hl. by destruct (Hkp kp Hl) as (a & b & d & e & ->).
  - unfold keypoints_of, first_channels. rewrite Forall_map.
    eapply Forall_impl; [exact Hx|]. intros s Hs. simpl. rewrite Forall_map.
    eapply Forall_impl; [exact Hs|]. intros kp Hl. simpl.
    by destruct (Hkp kp Hl) as (a & b & d & e & ->).
Qed.

Lemma has_joints_translate (idxs : list nat) (c : T1) (x : T3) :
  has_joints idxs (translate c x) = has_joints idxs x.
Proof.
  unfold has_joints, translate. induction x as [|s x IH]; [reflexivity|].
  cbn [map forallb]. rewrite IH. by rewrite length_map.
Qed.

End Translation.

Section ExactArithmetic.
Context {F : Type} `{!Scalar F}.
Context {World Img Features DiscData Score LogVars : Type}.

Local Abbreviation T1 := (list F).
Local Abbreviation T2 := (list (list F)).
Local Abbreviation T3 := (list (list (list F))).
Local Abbreviation estimator :=
  (@estimator F World Img Features DiscData Score LogVars).

(** The scalars form a field in which 2 is not 0: arithmetic is exact. *)
Variables (fopp finv : F -> F).
Hypothesis exact_field :
  field_theory (of_Z 0) (of_Z 1) fadd fmul fsub fopp fdiv finv eq.
Hypothesis two_is_one_plus_one : of_Z 2 = fadd (of_Z 1) (of_Z 1).
Hypothesis two_not_zero : of_Z 2 <> of_Z 0.

Add Field exact_scalars : exact_field.

Lemma centered_row (kp a b c : T1) :
  length kp = 3%nat -> length a = 3%nat -> length b = 3%nat -> length c = 3%nat ->
  zip_with fsub (zip_with fadd kp c)
    (mean_rows [zip_with fadd a c; zip_with fadd b c])
  = zip_with fsub kp (mean_rows [a; b]).
Proof using exact_field two_is_one_plus_one two_not_zero.
  intros Hk Ha Hb Hc.
  destruct kp as [|k0 [|k1 [|k2 [|]]]]; try discriminate Hk.
  destruct a as [|a0 [|a1 [|a2 [|]]]]; try discriminate Ha.
  destruct b as [|b0 [|b1 [|b2 [|]]]]; try discriminate Hb.
  destruct c as [|c0 [|c1 [|c2 [|]]]]; try discriminate Hc.
  assert (H2 : fadd (of_Z 1) (of_Z 1) <> of_Z 0) by (by rewrite <- two_is_one_plus_one).
  unfold mean_rows, sum_rows, dim1. cbn.
  change (Z.of_nat 2) with 2. rewrite two_is_one_plus_one.
  f_equal; [|f_equal; [|f_equal]]; field; exact H2.
Qed.

Lemma centered_translate (c : T1) (s : T2) :
  length c = 3%nat -> Forall (fun kp : T1 => length kp = 3%nat) s ->
  (2 < length s)%nat ->
  centered (map (fun kp => zip_with fadd kp c) s) = centered s.
Proof using exact_field two_is_one_plus_one two_not_zero.
  intros Hc Hs Hlen. unfold centered. rewrite map_map. cbn [map].
  change (@nil F) with (zip_with fadd (@nil F) c) at 1 2.
  rewrite !(map_nth (fun kp => zip_with fadd kp c)).
  assert (Hnth : forall i, (i < length s)%nat -> length (nth i s []) = 3%nat).
  { intros i Hi. rewrite List.Forall_forall in Hs. apply Hs, nth_In, Hi. }
  apply map_ext_in. intros kp Hkp.
  apply centered_row; try assumption.
  - rewrite List.Forall_forall in Hs. by apply Hs.
  - apply Hnth. lia.
  - apply Hnth. lia.
Qed.

Lemma centered_selection (c : T1) (x : T3) :
  length c = 3%nat -> keypoints_of 3 x -> has_joints [1; 2]%nat x = true ->
  map centered (translate c x) = map centered x.
Proof using exact_field two_is_one_plus_one two_not_zero.
  intros Hc Hx Hj. unfold translate. rewrite map_map.
  apply map_ext_in. intros s Hs. apply centered_translate; [exact Hc| |].
  - unfold keypoints_of in Hx. rewrite List.Forall_forall in Hx. by apply Hx.
  - unfold has_joints in Hj. rewrite forallb_forall in Hj.
    specialize (Hj s Hs). cbn [forallb] in Hj.
    apply andb_prop in Hj as [_ Hj]. apply andb_prop in Hj as [Hj _].
    by apply Nat.ltb_lt.
Qed.

(** C9, amended: in exact arithmetic the 3D keypoint term does not change
    when one offset is added to all predicted keypoints and another to the
    coordinates of all target keypoints. *)
Theorem keypoints3d_loss_translation_invariant_exact
    (self : estimator) (pred gt : T3) (has : option (list Z)) (c c' : T1) :
  length c = 3%nat -> length c' = 3%nat ->
  keypoints_of 3 pred -> keypoints_of 4 gt ->
  compute_keypoints3d_loss self (translate c pred) (translate_coords c' gt) has
  = compute_keypoints3d_loss self pred gt has.
Proof using exact_field two_is_one_plus_one two_not_zero.
  intros Hc Hc' Hp Hg.
  destruct (translate_coords_confidence c' gt Hc' Hg) as (Hch & Hconf & Hfirst & Hg3).
  unfold compute_keypoints3d_loss, channel. rewrite Hch, Hconf, Hfirst.
  destruct (has_channel 3 gt); [|reflexivity].
  rewrite !bind_lift_ok. cbv zeta.
  destruct (index_mask (repeat_last 3 _) (eq_one_opt has)) as [sel|e]; [|reflexivity].
  rewrite !bind_lift_ok. destruct (numel3 sel =? 0)%nat; [reflexivity|].
  unfold translate at 1 2. rewrite !index_mask_map.
  destruct (index_mask pred (eq_one_opt has)) as [P|e] eqn:HP; [|reflexivity].
  cbn [mbind result_bind]. rewrite !bind_lift_ok.
  destruct (index_mask (first_channels 3 gt) (eq_one_opt has)) as [G|e] eqn:HG;
    [|reflexivity].
  cbn [mbind result_bind]. rewrite !bind_lift_ok.
  fold (translate c P). fold (translate c' G).
  unfold mean_joints. rewrite !has_joints_translate.
  destruct (has_joints [1; 2]%nat P) eqn:HjP; [|reflexivity].
  rewrite !bind_lift_ok.
  destruct (has_joints [1; 2]%nat G) eqn:HjG; [|reflexivity].
  rewrite !bind_lift_ok, !sub_broadcast_pelvis.
  rewrite (centered_selection c P), (centered_selection c' G); try assumption.
  - reflexivity.
  - exact (index_mask_Forall _ _ G _ HG Hg3).
  - exact (index_mask_Forall _ _ P _ HP Hp).
Qed.

End ExactArithmetic.

Section Traces.

Lemma Lpost_ret {A : Type} (a : A) (Q : A -> Prop) E : Q a -> Lpost (mret a) Q E.
Proof. intros H. split; [by intros ? [= <-]|constructor]. Qed.

Lemma Lpost_lift {A : Type} (r : result A) E : Lpost (lift r) (fun _ => True) E.
Proof. split; [done|constructor]. Qed.

Lemma Lpost_invoke {A B : Type} name (f : option (A -> result B)) (a : A)
    (E : event -> Prop) :
  E (Forward name) -> Lpost (invoke name f a) (fun _ => True) E.
Proof.
  intros H. destruct f; split; try done; simpl; repeat constructor; exact H.
Qed.

Lemma Lpost_bind {A B : Type} (m : L A) (f : A -> L B) Q R E :
  Lpost m Q E -> (forall a, Q a -> Lpost (f a) R E) -> Lpost (m ≫= f) R E.
Proof.
  intros [Hv Hc] Hf. unfold mbind, L_bind.
  destruct (value m) as [a|e] eqn:Hm; simpl.
  - destruct (Hf a (Hv a eq_refl)) as [Hv' Hc']. split; [exact Hv'|].
    apply Forall_app. by split.
  - split; [discriminate|exact Hc].
Qed.

Section LossCalls.
Context {F : Type} `{!Scalar F}.
Context {World Img Features DiscData Score LogVars : Type}.
Variable batch_rodrigues : list (list F) -> result (list (list (list F))).
Variable weak_perspective_projection :
  list (list (list F)) -> list F -> list (list F) -> result (list (list (list F))).
Variable get_keypoint_idxs_by_part : string -> string -> result (list nat).
Variable img_last_dim : Img -> Z.

Local Abbreviation estimator :=
  (@estimator F World Img Features DiscData Score LogVars).
Local Abbreviation no_adv := (@no_adv F).

Ltac lpost :=
  cbv zeta;
  lazymatch goal with
  | |- Lpost (mret _) _ _ => apply Lpost_ret; exact I
  | |- Lpost (lift _) _ _ => apply Lpost_lift
  | |- Lpost (invoke _ _ _) _ _ =>
      apply Lpost_invoke; eexists; split; [reflexivity|by_compute]
  | |- Lpost (_ ≫= _) _ _ => eapply Lpost_bind; [lpost | intros ? _; lpost]
  | |- Lpost (if ?b then _ else _) _ _ => destruct b; lpost
  end.

Lemma loss_terms_calls (self : estimator) :
  (forall p g h, Lpost (compute_keypoints3d_loss self p g h) (fun _ => True) loss_call) /\
  (forall p c g r f h,
      Lpost (compute_keypoints2d_loss weak_perspective_projection self p c g r f h)
        (fun _ => True) loss_call) /\
  (forall p g h,
      Lpost (compute_smplx_global_orient_loss batch_rodrigues self p g h)
        (fun _ => True) loss_call) /\
  (forall p g h,
      Lpost (compute_smplx_body_pose_loss batch_rodrigues self p g h)
        (fun _ => True) loss_call) /\
  (forall p g h c,
      Lpost (compute_smplx_jaw_pose_loss batch_rodrigues self p g h c)
        (fun _ => True) loss_call) /\
  (forall p g h c,
      Lpost (compute_smplx_hand_pose_loss batch_rodrigues self p g h c)
        (fun _ => True) loss_call) /\
  (forall p g h, Lpost (compute_smplx_betas_loss self p g h) (fun _ => True) loss_call) /\
  (forall p g h c,
      Lpost (compute_smplx_expression_loss self p g h c) (fun _ => True) loss_call) /\
  (forall p, Lpost (compute_smplx_betas_prior_loss self p) (fun _ => True) loss_call) /\
  (forall c, Lpost (compute_camera_loss self c) (fun _ => True) loss_call).
Proof.
  repeat match goal with |- _ /\ _ => split end; intros;
    unfold compute_keypoints3d_loss, compute_keypoints2d_loss,
      compute_smplx_global_orient_loss, compute_smplx_body_pose_loss,
      compute_smplx_jaw_pose_loss, compute_smplx_hand_pose_loss,
      compute_smplx_betas_loss, compute_smplx_expression_loss,
      compute_smplx_betas_prior_loss, compute_camera_loss; lpost.
Qed.

Lemma Lpost_add_term {A : Type} (module : option A) (key : string)
    (term : L (@Loss F)) (losses : gmap string (@Loss F)) E :
  Lpost term (fun _ => True) E -> key <> "adv_loss"%string -> no_adv losses ->
  Lpost (add_term module key term losses) no_adv E.
Proof.
  intros Ht Hk Hl. unfold add_term. destruct module; [|by apply Lpost_ret].
  eapply Lpost_bind; [exact Ht|]. intros l _. apply Lpost_ret.
  unfold no_adv. by rewrite lookup_insert_ne.
Qed.

Lemma compute_losses_calls (self : estimator) predictions targets :
  Lpost (compute_losses batch_rodrigues weak_perspective_projection
           get_keypoint_idxs_by_part img_last_dim self predictions targets)
    no_adv loss_call.
Proof.
  destruct (loss_terms_calls self) as (H3d & H2d & Hgo & Hbp & Hjaw & Hhand & Hbetas & Hexp & Hprior & Hcam).
  assert (Hins : forall (k : string) l (d : gmap string Loss),
             k <> "adv_loss"%string -> no_adv d -> no_adv (<[k := l]> d)).
  { intros k l d Hk Hd. unfold no_adv. by rewrite lookup_insert_ne. }
  unfold compute_losses.
  do 4 (eapply Lpost_bind; [apply Lpost_lift|intros ? _]).
  eapply (Lpost_bind _ _ (fun _ => True)).
  { destruct (body_model_train self); lpost. }
  intros pred_keypoints3d _. cbv zeta.
  eapply Lpost_bind.
  { apply Lpost_add_term; [|discriminate|reflexivity].
    eapply Lpost_bind; [apply Lpost_lift|intros ? _]. apply H3d. }
  intros d1 Hd1. eapply Lpost_bind.
  { apply Lpost_add_term; [|discriminate|exact Hd1].
    do 2 (eapply Lpost_bind; [apply Lpost_lift|intros ? _]). apply H2d. }
  clear d1 Hd1. intros d1 Hd1. eapply Lpost_bind.
  { apply Lpost_add_term; [|discriminate|exact Hd1].
    do 4 (eapply Lpost_bind; [apply Lpost_lift|intros ? _]). apply Hgo. }
  clear d1 Hd1. intros d1 Hd1. eapply Lpost_bind.
  { apply Lpost_add_term; [|discriminate|exact Hd1].
    do 4 (eapply Lpost_bind; [apply Lpost_lift|intros ? _]). apply Hbp. }
  clear d1 Hd1. intros d1 Hd1. eapply Lpost_bind.
  { apply Lpost_add_term; [|discriminate|exact Hd1].
    do 6 (eapply Lpost_bind; [apply Lpost_lift|intros ? _]). apply Hjaw. }
  clear d1 Hd1. intros d1 Hd1. eapply Lpost_bind.
  { destruct (loss_smplx_hand_pose self); [|by apply Lpost_ret].
    do 6 (eapply Lpost_bind; [apply Lpost_lift|intros ? _]).
    eapply Lpost_bind; [apply Hhand|intros ? _]. cbv zeta.
    destruct (left_hand_pose _); [|by apply Lpost_ret, Hins].
    do 5 (eapply Lpost_bind; [apply Lpost_lift|intros ? _]).
    eapply Lpost_bind; [apply Hhand|intros ? _].
    apply Lpost_ret. by repeat apply Hins. }
  clear d1 Hd1. intros d1 Hd1. eapply Lpost_bind.
  { apply Lpost_add_term; [|discriminate|exact Hd1].
    do 3 (eapply Lpost_bind; [apply Lpost_lift|intros ? _]). apply Hbetas. }
  clear d1 Hd1. intros d1 Hd1. eapply Lpost_bind.
  { apply Lpost_add_term; [|discriminate|exact Hd1].
    do 5 (eapply Lpost_bind; [apply Lpost_lift|intros ? _]). apply Hexp. }
  clear d1 Hd1. intros d1 Hd1. eapply Lpost_bind.
  { apply Lpost_add_term; [|discriminate|exact Hd1].
    eapply Lpost_bind; [apply Lpost_lift|intros ? _]. apply Hprior. }
  clear d1 Hd1. intros d1 Hd1. eapply Lpost_bind.
  { apply Lpost_add_term; [|discriminate|exact Hd1]. apply Hcam. }
  clear d1 Hd1. intros d1 Hd1. by apply Lpost_ret.
Qed.

Lemma Mpost_ret {A : Type} (a : A) (Q : A -> Prop) E : Q a -> Mpost (World:=World) (mret a) Q E.
Proof. intros H w. split; [by intros ? [= <-]|constructor]. Qed.

Lemma Mpost_liftR {A : Type} (r : result A) E : Mpost (World:=World) (liftR r) (fun _ => True) E.
Proof. intros w. split; [done|constructor]. Qed.

Lemma Mpost_liftL {A : Type} (l : L A) Q E : Lpost l Q E -> Mpost (World:=World) (liftL l) Q E.
Proof. intros [Hv Hc] w. by split. Qed.

Lemma Mpost_call {A B : Type} name (f : option (A -> @net World B)) (a : A)
    (E : event -> Prop) :
  E (Forward name) -> Mpost (World:=World) (call name f a) (fun _ => True) E.
Proof.
  intros H w. destruct f as [f|]; simpl; [|split; [done|constructor]].
  destruct (f a w). split; [done|]. repeat constructor. exact H.
Qed.

Lemma Mpost_method {B : Type} ev (f : @net World B) (E : event -> Prop) :
  E ev -> Mpost (World:=World) (method ev f) (fun _ => True) E.
Proof. intros H w. simpl. destruct (f w). split; [done|]. by repeat constructor. Qed.

Lemma Mpost_effect ev (f : World -> World) (E : event -> Prop) :
  E ev -> Mpost (World:=World) (effect ev f) (fun _ => True) E.
Proof. intros H w. split; [done|]. by repeat constructor. Qed.

Lemma Mpost_bind {A B : Type} (m : @M World A) (f : A -> @M World B) Q R E :
  Mpost m Q E -> (forall a, Q a -> Mpost (World:=World) (f a) R E) -> Mpost (World:=World) (m ≫= f) R E.
Proof.
  intros Hm Hf w. destruct (Hm w) as [Hv Hc]. simpl.
  destruct (run m w) as [[[a|e] w1] t1]; simpl in *.
  - destruct (Hf a (Hv a eq_refl) w1) as [Hv' Hc'].
    destruct (run (f a) w1) as [[r w2] t2]; simpl in *.
    split; [exact Hv'|]. apply Forall_app. by split.
  - split; [discriminate|exact Hc].
Qed.

(** A bind that returns: both parts return, and the calls are those of the
    first followed by those of the second. *)
Lemma run_bind_Ok {A B : Type} (m : @M World A) (f : A -> @M World B) w b w2 t :
  run (m ≫= f) w = (Ok b, w2, t) ->
  exists a w1 t1 t2,
    run m w = (Ok a, w1, t1) /\ run (f a) w1 = (Ok b, w2, t2) /\ t = t1 ++ t2.
Proof.
  simpl. destruct (run m w) as [[[a|e] w1] t1]; [|discriminate].
  destruct (run (f a) w1) as [[r w2'] t2] eqn:Hf. intros [= -> -> <-].
  by exists a, w1, t1, t2.
Qed.

Lemma Lpost_events {A : Type} (m : L A) Q (E E' : event -> Prop) :
  Lpost m Q E -> (forall ev, E ev -> E' ev) -> Lpost m Q E'.
Proof.
  intros [Hv Hc] H. split; [exact Hv|]. eapply Forall_impl; [exact Hc|exact H].
Qed.

Lemma loss_call_not_adversarial ev : loss_call ev -> not_adversarial ev.
Proof.
  intros (name & -> & Hname). cbn. split; intros ->; revert Hname; by_compute.
Qed.

Lemma parse_not_adversarial (losses : gmap string (list F)) :
  no_adv losses -> not_adversarial (ParseLosses (elements (dom losses))).
Proof.
  intros Hl. cbn. rewrite elem_of_elements, elem_of_dom. unfold no_adv in Hl.
  rewrite Hl. by intros [? ?].
Qed.

Ltac plain_event := cbn; first [exact I | discriminate | split; discriminate].

Lemma train_step_without_disc (self : estimator) data_batch optimizer :
  disc self = None ->
  Mpost (World:=World) (train_step batch_rodrigues weak_perspective_projection
           get_keypoint_idxs_by_part img_last_dim self data_batch optimizer)
    (fun _ => True) not_adversarial.
Proof.
  intros Hdisc. unfold train_step. rewrite Hdisc.
  eapply (Mpost_bind _ _ (fun _ => True)).
  { destruct (backbone self).
    - eapply Mpost_bind; [apply Mpost_liftR|intros ? _].
      apply Mpost_call. plain_event.
    - apply Mpost_liftR. }
  intros features _. eapply (Mpost_bind _ _ (fun _ => True)).
  { destruct (neck self); [apply Mpost_call; plain_event|by apply Mpost_ret]. }
  clear features. intros features _.
  eapply Mpost_bind; [apply Mpost_call; plain_event|intros predictions _].
  eapply Mpost_bind; [apply Mpost_method; plain_event|intros targets _].
  eapply (Mpost_bind _ _ (fun _ => True)); [by apply Mpost_ret|intros _ _].
  eapply Mpost_bind.
  { apply Mpost_liftL. eapply Lpost_events; [apply compute_losses_calls|].
    apply loss_call_not_adversarial. }
  intros losses Hl.
  eapply Mpost_bind; [apply Mpost_ret; exact Hl|]. clear losses Hl. intros losses Hl.
  eapply (Mpost_bind _ _ (fun _ => True)).
  { intros w. split; [done|].
    constructor; [by apply parse_not_adversarial|constructor]. }
  intros parsed _. cbv zeta.
  do 3 (eapply (Mpost_bind _ _ (fun _ => True));
        [unfold zero_grad_of;
         match goal with |- context [match ?m with _ => _ end] => destruct m end;
         [eapply Mpost_bind; [apply Mpost_liftR|intros ? _];
          apply Mpost_effect; plain_event
         |by apply Mpost_ret]
        |intros _ _]).
  eapply Mpost_bind; [apply Mpost_effect; plain_event|intros _ _].
  do 3 (eapply (Mpost_bind _ _ (fun _ => True));
        [unfold step_of;
         match goal with |- context [match ?m with _ => _ end] => destruct m end;
         [eapply Mpost_bind; [apply Mpost_liftR|intros ? _];
          apply Mpost_effect; plain_event
         |by apply Mpost_ret]
        |intros _ _]).
  eapply Mpost_bind; [apply Mpost_liftR|intros ? _]. by apply Mpost_ret.
Qed.

Lemma run_effect ev (f : World -> World) w r w' t :
  run (effect ev f) w = (r, w', t) -> t = [ev].
Proof. by intros [= _ _ <-]. Qed.

Ltac inv_bind H :=
  let a := fresh "a" in
  let w1 := fresh "w" in
  let t1 := fresh "t" in
  let t2 := fresh "t" in
  let H1 := fresh "Hrun" in
  apply run_bind_Ok in H as (a & w1 & t1 & t2 & H1 & H & ->); cbv beta zeta in H.

Lemma optimize_generator_Ok (self : estimator) predictions w d w' t :
  run (optimize_generator self predictions) w = (Ok d, w', t) ->
  exists l : Loss, d = {["adv_loss"%string := l]}.
Proof.
  unfold optimize_generator. intros H.
  do 4 (inv_bind H). injection H as <- _ _. by eexists.
Qed.

Lemma run_call_Ok {A B : Type} name (f : option (A -> @net World B)) (a : A) w b w' t :
  run (call name f a) w = (Ok b, w', t) -> t = [Forward name].
Proof.
  destruct f as [f|]; simpl; [|discriminate].
  destruct (f a w). by intros [= _ _ <-].
Qed.

Lemma run_method_Ok {B : Type} ev (f : @net World B) w b w' t :
  run (method ev f) w = (Ok b, w', t) -> t = [ev].
Proof. simpl. destruct (f w). by intros [= _ _ <-]. Qed.

End LossCalls.

End Traces.

Section Weights.
Context {F : Type} `{!Scalar F}.
Context {World Img Features DiscData Score LogVars : Type}.
Variable batch_rodrigues : list (list F) -> result (list (list (list F))).
Variable weak_perspective_projection :
  list (list (list F)) -> list F -> list (list F) -> result (list (list (list F))).

Local Abbreviation T1 := (list F).
Local Abbreviation T2 := (list (list F)).
Local Abbreviation T3 := (list (list (list F))).
Local Abbreviation T4 := (list (list (list (list F)))).
Local Abbreviation estimator :=
  (@estimator F World Img Features DiscData Score LogVars).

Lemma index_mask_map_Ok {A B : Type} (f : A -> B) (x s : list A) (m : mask) :
  index_mask x m = Ok s -> index_mask (map f x) m = Ok (map f s).
Proof. intros H. by rewrite index_mask_map, H. Qed.

Lemma repeat_last_confidence (k C : nat) (x : T3) :
  repeat_last C (map (map (fun kp : T1 => [nth k kp (of_Z 0)])) x)
  = joint_confidence k C x.
Proof.
  unfold repeat_last, joint_confidence. rewrite map_map2.
  apply map_ext. intros s. apply map_ext. intros kp.
  induction C as [|C IH]; [reflexivity|]. cbn [replicate concat app]. by rewrite IH.
Qed.

Lemma length_sub_broadcast_mean (x : T3) (idxs : list nat) :
  length (sub_broadcast x (map (fun s : T2 => mean_rows (map (fun i => nth i s []) idxs)) x))
  = length x.
Proof. unfold sub_broadcast. rewrite length_zip_with, length_map. lia. Qed.

Ltac no_call := left; reflexivity.

Lemma keypoints3d_weight (self : estimator) (pred gt : T3) has (sel : T3) :
  has_channel 3 gt = true -> index_mask gt (eq_one_opt has) = Ok sel ->
  calls (compute_keypoints3d_loss self pred gt has) = [] \/
  exists P G : T3,
    compute_keypoints3d_loss self pred gt has =
      (loss ← invoke "loss_keypoints3d" (loss_keypoints3d self)
                (P, G, joint_confidence 3 3 sel);
       mret (loss_div loss (length sel))).
Proof.
  intros Hc Hsel. unfold compute_keypoints3d_loss, channel. rewrite Hc.
  rewrite !bind_lift_ok. cbv zeta. rewrite repeat_last_confidence.
  unfold joint_confidence, first_channels.
  rewrite !(index_mask_map_Ok _ gt sel _ Hsel), !bind_lift_ok.
  fold (first_channels 3 sel).
  destruct (numel3 _ =? 0)%nat; [no_call|].
  destruct (index_mask pred _) as [P|e]; [|no_call].
  rewrite !bind_lift_ok. unfold mean_joints.
  destruct (has_joints _ P); [|no_call]. rewrite !bind_lift_ok.
  destruct (has_joints _ (first_channels 3 sel)); [|no_call]. rewrite !bind_lift_ok.
  right. do 2 eexists. rewrite length_sub_broadcast_mean.
  unfold first_channels. rewrite length_map. reflexivity.
Qed.

Ltac step :=
  rewrite ?bind_lift_ok;
  match goal with
  | |- context [lift ?r ≫= _] => destruct r as [?|?]; [rewrite ?bind_lift_ok|no_call]
  end.

Lemma keypoints2d_weight (self : estimator) (pred : T3) (cam : T2) (gt : T3)
    (img_res focal_length : Z) has (sel : T3) :
  has_channel 2 gt = true -> index_mask gt (eq_one_opt has) = Ok sel ->
  calls (compute_keypoints2d_loss weak_perspective_projection self pred cam gt
           img_res focal_length has) = [] \/
  exists P G : T3,
    compute_keypoints2d_loss weak_perspective_projection self pred cam gt
      img_res focal_length has =
      (loss ← invoke "loss_keypoints2d" (loss_keypoints2d self)
                (P, G, joint_confidence 2 2 sel);
       mret (loss_div loss (length sel))).
Proof.
  intros Hc Hsel. unfold compute_keypoints2d_loss, channel. rewrite Hc.
  rewrite !bind_lift_ok. cbv zeta. rewrite repeat_last_confidence.
  unfold joint_confidence, first_channels, normalize_keypoints. rewrite !map_map.
  rewrite !(index_mask_map_Ok _ gt sel _ Hsel), !bind_lift_ok.
  destruct (numel3 _ =? 0)%nat; [no_call|].
  do 4 step.
  right. do 2 eexists. rewrite length_map. reflexivity.
Qed.

Lemma jaw_pose_weight (self : estimator) (pred : T4) (gt : T2) has
    (face_conf sel : T2) :
  index_mask face_conf (eq_one has) = Ok sel ->
  calls (compute_smplx_jaw_pose_loss batch_rodrigues self pred gt has face_conf) = [] \/
  exists P G : T4,
    compute_smplx_jaw_pose_loss batch_rodrigues self pred gt has face_conf =
      invoke "loss_smplx_jaw_pose" (loss_smplx_jaw_pose self)
        (P, G, map (fun c => [[[c]]]) (part_confidence sel)).
Proof.
  intros Hsel. unfold compute_smplx_jaw_pose_loss. cbv zeta.
  rewrite (index_mask_map_Ok _ _ _ _ (index_mask_map_Ok mean_entries _ _ _ Hsel)).
  step. destruct (numel2 _ =? 0)%nat; [no_call|].
  do 3 step. rewrite ?bind_lift_ok. right. by do 2 eexists.
Qed.

Lemma hand_pose_weight (self : estimator) (pred : T4) (gt : T3) has
    (hand_conf sel : T2) :
  index_mask hand_conf (eq_one has) = Ok sel ->
  calls (compute_smplx_hand_pose_loss batch_rodrigues self pred gt has hand_conf) = [] \/
  exists P G : T4,
    compute_smplx_hand_pose_loss batch_rodrigues self pred gt has hand_conf =
      invoke "loss_smplx_hand_pose" (loss_smplx_hand_pose self)
        (P, G, map (fun c => replicate (dim1 pred) [[c]]) (part_confidence sel)).
Proof.
  intros Hsel. unfold compute_smplx_hand_pose_loss. cbv zeta.
  rewrite map_map.
  rewrite (index_mask_map_Ok _ _ _ _ Hsel).
  step. destruct (numel3 _ =? 0)%nat; [no_call|].
  do 3 step. rewrite ?bind_lift_ok. right. do 2 eexists.
  unfold part_confidence. rewrite map_map. do 2 f_equal.
  apply map_ext. intros r. apply (fmap_replicate (fun c : F => [[c]])).
Qed.

Lemma expression_weight (self : estimator) (pred gt : T2) has (face_conf sel : T2) :
  index_mask face_conf (eq_one has) = Ok sel ->
  calls (compute_smplx_expression_loss self pred gt has face_conf) = [] \/
  exists P G : T2,
    compute_smplx_expression_loss self pred gt has face_conf =
      (loss ← invoke "loss_smplx_expression" (loss_smplx_expression self)
                (P, G, map (fun c => [c]) (part_confidence sel));
       mret (loss_div loss (length G))).
Proof.
  intros Hsel. unfold compute_smplx_expression_loss. cbv zeta.
  rewrite (index_mask_map_Ok _ _ _ _ (index_mask_map_Ok mean_entries _ _ _ Hsel)).
  destruct (index_mask gt (eq_one has)) as [G|e]; [|no_call].
  rewrite !bind_lift_ok. destruct (numel2 _ =? 0)%nat; [no_call|].
  step. right. by do 2 eexists.
Qed.

Lemma gather_confidence (idxs : list nat) (x : T3) (conf : T2) :
  gather idxs 2 x = Ok conf -> conf = keypoint_confidences idxs x.
Proof. unfold gather. destruct (_ && _); [by intros [= <-]|discriminate]. Qed.

End Weights.

(** *** The claims on concrete batches *)

(** C9, as claimed, fails in single precision.  The predicted keypoints
    moved by 2^24 - 2 along the first axis are exact, and the targets are
    left where they are.  The pelvis mean of the moved keypoints,
    (16777215 + 16777214) / 2, is no single-precision number and rounds to
    16777214, so the centered keypoints become 0, 1, 0 in place of
    -1/2, 1/2, -1/2, and the weighted squared error rises from 3/4 to 1. *)
Lemma keypoints3d_loss_translation_rounds_float32 :
  translate far_offset pred_keypoints = far_keypoints (F:=float32) /\
  translate_coords [of_Z 0; of_Z 0; of_Z 0] gt_keypoints = gt_keypoints (F:=float32) /\
  compute_keypoints3d_loss est32 pred_keypoints gt_keypoints (Some [1])
    = Run (Ok [fdiv (of_Z 3) (of_Z 4)]) [Forward "loss_keypoints3d"] /\
  compute_keypoints3d_loss est32 (translate far_offset pred_keypoints)
      (translate_coords [of_Z 0; of_Z 0; of_Z 0] gt_keypoints) (Some [1])
    = Run (Ok [of_Z 1]) [Forward "loss_keypoints3d"] /\
  compute_keypoints3d_loss est32 (translate far_offset pred_keypoints)
      (translate_coords [of_Z 0; of_Z 0; of_Z 0] gt_keypoints) (Some [1])
    <> compute_keypoints3d_loss est32 pred_keypoints gt_keypoints (Some [1]).
Proof.
  repeat match goal with |- _ /\ _ => split end.
  - vm_compute. reflexivity.
  - vm_compute. reflexivity.
  - vm_compute. reflexivity.
  - vm_compute. reflexivity.
  - vm_compute. discriminate.
Qed.

Lemma keypoints3d_loss_translation_invariant_exact_witness :
  length (far_offset (F:=Qc)) = 3%nat /\
  keypoints_of 3 (pred_keypoints (F:=Qc)) /\ keypoints_of 4 (gt_keypoints (F:=Qc)) /\
  compute_keypoints3d_loss estQc (translate far_offset pred_keypoints)
      (translate_coords far_offset gt_keypoints) (Some [1])
    = compute_keypoints3d_loss estQc pred_keypoints gt_keypoints (Some [1]).
Proof.
  assert (Hp : keypoints_of 3 (pred_keypoints (F:=Qc))) by (repeat constructor).
  assert (Hg : keypoints_of 4 (gt_keypoints (F:=Qc))) by (repeat constructor).
  split; [reflexivity|]. split; [exact Hp|]. split; [exact Hg|].
  apply (@keypoints3d_loss_translation_invariant_exact Qc Qc_scalar
           unit unit unit unit unit unit Qcopp Qcinv Qcft);
    [apply Qc_is_canon; reflexivity|discriminate|reflexivity|reflexivity|exact Hp|exact Hg].
Defined.

(** C4, as claimed, fails on the hand term: for a hand whose two keypoints
    have the confidences 0 and 1, the weight that reaches the loss module
    for the joint is their mean 1/2, which is the confidence of neither. *)
Lemma hand_pose_weight_is_mean_confidence :
  compute_smplx_hand_pose_loss rows_to_matrices probe32
      [[ [[of_Z 1]] ]] [[ [of_Z 0; of_Z 0; of_Z 0] ]] [1] [[of_Z 0; of_Z 1]]
    = Run (Ok [fdiv (of_Z 1) (of_Z 2)]) [Forward "loss_smplx_hand_pose"] /\
  ~ hand_weight_holds_keypoint_confidences.
Proof.
  split; [vm_compute; reflexivity|].
  intros H.
  specialize (H [[ [[of_Z 1]] ]] [[ [of_Z 0; of_Z 0; of_Z 0] ]] [1]
                [[of_Z 0; of_Z 1]] [fdiv (of_Z 1) (of_Z 2)]).
  assert (Hw : Forall (fun w : float32 => w ∈ concat [[of_Z 0; of_Z 1]])
                 [fdiv (of_Z 1) (of_Z 2)]) by (apply H; vm_compute; reflexivity).
  apply Forall_cons in Hw as [Hw _]. vm_compute in Hw.
  apply elem_of_cons in Hw as [Hw|Hw]; [discriminate Hw|].
  apply elem_of_cons in Hw as [Hw|Hw]; [discriminate Hw|].
  by apply elem_of_nil in Hw.
Qed.

Lemma empty_selection_returns_zero_without_call_witness :
  has_channel (F:=float32) 3 gt_keypoints = true /\
  selects_nothing [0] (gt_keypoints (F:=float32)) /\
  compute_keypoints3d_loss est32 pred_keypoints gt_keypoints (Some [0])
    = Run (Ok zero_loss) [].
Proof.
  assert (Hs : selects_nothing [0] (gt_keypoints (F:=float32))).
  { split; [|reflexivity]. repeat constructor. discriminate. }
  split; [reflexivity|]. split; [exact Hs|].
  apply (proj1 (empty_selection_returns_zero_without_call
                  rows_to_matrices project_batch est32)); [reflexivity|exact Hs].
Defined.

Lemma keypoint_losses_without_flags_witness :
  has_channel (F:=float32) 3 gt_keypoints = true /\
  compute_keypoints3d_loss est32 pred_keypoints gt_keypoints None
    = Run (Ok zero_loss) [].
Proof.
  split; [reflexivity|].
  apply (proj1 (keypoint_losses_without_flags project_batch est32)). reflexivity.
Defined.

(** A second sample, not marked valid, with two different contents. *)
Lemma losses_depend_on_valid_samples_only_witness :
  compute_keypoints3d_loss est32
      (pred_keypoints ++ pred_keypoints) (gt_keypoints ++ gt_keypoints) (Some [1; 0])
  = compute_keypoints3d_loss est32
      (pred_keypoints ++ translate far_offset pred_keypoints)
      (gt_keypoints ++ translate_coords far_offset gt_keypoints) (Some [1; 0]).
Proof.
  assert (Hv : forall (A : Type) (a b c : A),
             same_where_valid (Some [1; 0]) [a; b] [a; c]).
  { intros A a b c. split; [reflexivity|].
    intros [|[|i]] Hi; [reflexivity|discriminate Hi|discriminate Hi]. }
  apply (proj1 (losses_depend_on_valid_samples_only rows_to_matrices project_batch
                  (fun r => [r; r; r]) project_sample
                  (fun rows _ => eq_refl) (fun pts sc tr _ _ _ => eq_refl) est32)).
  - apply Hv.
  - apply Hv.
  - reflexivity.
Defined.

End EstimatorSpec.

(* ===================================================================== *)
(** ** Further properties of the loss terms                            *)
(* ===================================================================== *)

Module TermLaws.
Import Estimator Examples MoreExamples Properties Notions EstimatorSpec.

Section Selection.
Context {A : Type}.

Lemma select_valid_samples (has : list Z) (x : list A) :
  select (map (Z.eqb 1) has) x = valid_samples has x.
Proof.
  unfold valid_samples. revert x.
  induction has as [|h has IH]; intros [|a x]; try reflexivity.
  cbn [select map zip_with]. rewrite filter_cons. cbn [fst].
  destruct (Z.eqb_spec 1 h) as [<-|Hne].
  - rewrite decide_True by done. cbn [fmap list_fmap snd]. by rewrite IH.
  - rewrite decide_False by congruence. apply IH.
Qed.

Lemma index_mask_valid (has : list Z) (x : list A) :
  length has = length x ->
  index_mask x (eq_one has) = Ok (valid_samples has x).
Proof.
  intros Hlen. unfold index_mask, eq_one.
  by rewrite length_map, Hlen, Nat.eqb_refl, select_valid_samples.
Qed.

Lemma index_mask_mismatch (has : list Z) (x : list A) :
  length has <> length x ->
  index_mask x (eq_one has) = Raise IndexError.
Proof.
  intros Hlen. unfold index_mask, eq_one. rewrite length_map.
  by destruct (Nat.eqb_spec (length has) (length x)).
Qed.

Lemma length_valid_samples (has : list Z) (x : list A) :
  length has = length x -> length (valid_samples has x) = valid_count has.
Proof.
  unfold valid_samples, valid_count. rewrite length_fmap. revert x.
  induction has as [|h has IH]; intros [|a x] Hlen; try discriminate Hlen; [reflexivity|].
  cbn [zip_with]. rewrite !filter_cons. cbn [fst].
  injection Hlen as Hlen. destruct (decide (h = 1)); cbn [length]; by rewrite IH.
Qed.

Lemma valid_samples_Forall (P : A -> Prop) (has : list Z) (x : list A) :
  Forall P x -> Forall P (valid_samples has x).
Proof.
  intros Hx. rewrite <- select_valid_samples. revert x Hx.
  induction (map (Z.eqb 1) has) as [|b m IH]; intros x Hx;
    destruct Hx as [|a x Ha Hx]; try constructor.
  cbn [select]. destruct b; [constructor|]; auto.
Qed.

End Selection.

Lemma L_bind_ext {A B : Type} (m : L A) (f g : A -> L B) :
  (forall a, f a = g a) -> m ≫= f = m ≫= g.
Proof.
  intros Hfg. unfold mbind, L_bind. destruct (value m) as [a|e]; [|reflexivity].
  by rewrite Hfg.
Qed.

Lemma valid_samples_map {A B : Type} (f : A -> B) (has : list Z) (x : list A) :
  valid_samples has (map f x) = map f (valid_samples has x).
Proof.
  rewrite <- !select_valid_samples. revert x.
  induction (map (Z.eqb 1) has) as [|b m IH]; intros [|a x]; try reflexivity.
  cbn [select map]. destruct b; by rewrite IH.
Qed.


Section Terms.
Context {F : Type} `{!Scalar F}.
Context {World Img Features DiscData Score LogVars : Type}.
Variable batch_rodrigues : list (list F) -> result (list (list (list F))).
Variable weak_perspective_projection :
  list (list (list F)) -> list F -> list (list F) -> result (list (list (list F))).
Variable rodrigues : list F -> list (list F).
Variable project : list (list F) -> F -> list F -> list (list F).

Local Abbreviation T1 := (list F).
Local Abbreviation T2 := (list (list F)).
Local Abbreviation T3 := (list (list (list F))).
Local Abbreviation T4 := (list (list (list (list F)))).
Local Abbreviation estimator :=
  (@estimator F World Img Features DiscData Score LogVars).

Lemma valid_samples_nonempty {A : Type} (has : list Z) (x : list A) :
  length has = length x -> (0 < valid_count has)%nat -> valid_samples has x <> [].
Proof.
  intros Hlen Hv Hnil. apply (f_equal length) in Hnil.
  rewrite length_valid_samples in Hnil by exact Hlen. simpl in Hnil. lia.
Qed.

Lemma numel3_joint_confidence (k : nat) (V : T3) :
  V <> [] -> Forall (fun s : T2 => (2 < length s)%nat) V ->
  (numel3 (joint_confidence k 3 V) =? 0)%nat = false.
Proof.
  intros Hne HV. apply Nat.eqb_neq.
  destruct HV as [|s V Hs _]; [done|].
  destruct s as [|kp s]; [simpl in Hs; lia|].
  unfold numel3, numel2, numel1, joint_confidence. cbn. lia.
Qed.

Lemma has_joints_pelvis (x : T3) :
  Forall (fun s : T2 => (2 < length s)%nat) x -> has_joints [1; 2]%nat x = true.
Proof.
  intros Hx. unfold has_joints. apply forallb_forall. intros s Hs.
  rewrite List.Forall_forall in Hx. specialize (Hx s Hs). cbn [forallb].
  rewrite !andb_true_iff. repeat split; apply Nat.ltb_lt; lia.
Qed.

(** X1: the 3D keypoint term on a batch with at least one valid sample: the
    loss module is called once, on the valid predictions and the valid
    targets, each centered at the mean of its keypoints 1 and 2, with the
    confidence of every target keypoint as weight of its three
    coordinates; what it gives is divided by the number of valid
    samples. *)
Theorem keypoints3d_loss_on_valid_samples (self : estimator) (pred gt : T3)
    (has : list Z) :
  length has = length gt -> length pred = length gt ->
  has_channel 3 gt = true ->
  Forall (fun s : T2 => (2 < length s)%nat) pred ->
  Forall (fun s : T2 => (2 < length s)%nat) gt ->
  (0 < valid_count has)%nat ->
  compute_keypoints3d_loss self pred gt (Some has) =
    (loss ← invoke "loss_keypoints3d" (loss_keypoints3d self)
              (map centered (valid_samples has pred),
               map centered (first_channels 3 (valid_samples has gt)),
               joint_confidence 3 3 (valid_samples has gt));
     mret (loss_div loss (valid_count has))).
Proof.
  intros Hlen Hlenp Hc Hp Hg Hv.
  unfold compute_keypoints3d_loss, channel. rewrite Hc.
  rewrite !bind_lift_ok. cbv zeta. rewrite repeat_last_confidence.
  unfold eq_one_opt.
  assert (Hconf : index_mask (joint_confidence 3 3 gt) (eq_one has)
                  = Ok (joint_confidence 3 3 (valid_samples has gt))).
  { unfold joint_confidence. rewrite index_mask_valid by (by rewrite length_map).
    by rewrite valid_samples_map. }
  rewrite !Hconf, !bind_lift_ok.
  rewrite numel3_joint_confidence;
    [|by apply valid_samples_nonempty|by apply valid_samples_Forall].
  rewrite (index_mask_valid has pred) by congruence. rewrite bind_lift_ok.
  unfold first_channels at 1 2.
  rewrite (index_mask_valid has (map _ gt)) by (by rewrite length_map).
  rewrite bind_lift_ok, valid_samples_map. fold (first_channels 3 (valid_samples has gt)).
  unfold mean_joints.
  rewrite (has_joints_pelvis (valid_samples has pred))
    by (by apply valid_samples_Forall).
  rewrite bind_lift_ok.
  rewrite (has_joints_pelvis (first_channels 3 (valid_samples has gt))).
  2:{ unfold first_channels. rewrite Forall_map.
      eapply Forall_impl; [apply valid_samples_Forall, Hg|].
      intros s Hs. simpl. by rewrite length_map. }
  rewrite bind_lift_ok, !sub_broadcast_pelvis.
  unfold first_channels. rewrite !length_map, length_valid_samples by exact Hlen.
  by rewrite bind_lift_ok.
Qed.


Lemma numel3_joint_confidence2 (k : nat) (V : T3) :
  V <> [] -> Forall (fun s : T2 => s <> []) V ->
  (numel3 (joint_confidence k 2 V) =? 0)%nat = false.
Proof.
  intros Hne HV. apply Nat.eqb_neq.
  destruct HV as [|s V Hs _]; [done|].
  destruct s as [|kp s]; [done|].
  unfold numel3, numel2, numel1, joint_confidence. cbn. lia.
Qed.

Lemma zip_with_zip_map {A B C D E : Type} (f : A * C -> E -> D) (g : B -> C)
    (h : B -> E) (x : list A) (y : list B) :
  zip_with f (zip x (map g y)) (map h y)
  = map (fun p => f (p.1, g p.2) (h p.2)) (zip x y).
Proof.
  revert y. induction x as [|a x IH]; intros [|b y]; try reflexivity.
  cbn [zip_with map fst snd]. by rewrite <- IH.
Qed.

Lemma valid_samples_zip {A B : Type} (has : list Z) (x : list A) (y : list B) :
  valid_samples has (zip x y) = zip (valid_samples has x) (valid_samples has y).
Proof.
  rewrite <- !select_valid_samples. revert x y.
  induction (map (Z.eqb 1) has) as [|b m IH]; intros [|a x] [|c y];
    try reflexivity; cbn [select zip_with].
  - destruct b; [reflexivity|by destruct (select m x)].
  - destruct b; by rewrite IH.
Qed.

(** X2: the 2D keypoint term on a batch with at least one valid sample.
    When [img_res - 1] is a 64-bit integer, the loss module is called
    once, on the projections of the valid predicted samples, each with the
    scale (entry 0) and the translation (entries 1 and 2) of its own
    camera, on the valid targets normalized to [2 * x / (img_res - 1) - 1],
    with the confidence of every target keypoint as weight of its two
    coordinates; what it gives is divided by the number of valid samples.
    When [img_res - 1] is no 64-bit integer, the division of the targets
    raises [RuntimeError] and the loss module is not called.  The focal
    length is not used. *)
Theorem keypoints2d_loss_on_valid_samples (self : estimator) (pred : T3)
    (cam : T2) (gt : T3) (img_res focal_length : Z) (has : list Z) :
  samplewise_projection weak_perspective_projection project ->
  length has = length gt -> length pred = length gt -> length cam = length gt ->
  rect2 3 cam -> has_channel 2 gt = true ->
  Forall (fun s : T2 => s <> []) gt ->
  (0 < valid_count has)%nat ->
  (- 2 ^ 63 <= img_res - 1 < 2 ^ 63 ->
   compute_keypoints2d_loss weak_perspective_projection self pred cam gt
     img_res focal_length (Some has) =
     (loss ← invoke "loss_keypoints2d" (loss_keypoints2d self)
               (map (fun pc : T2 * T1 =>
                       project pc.1 (nth 0 pc.2 (of_Z 0)) (take 2 (drop 1 pc.2)))
                    (valid_samples has (zip pred cam)),
                normalize_keypoints img_res (first_channels 2 (valid_samples has gt)),
                joint_confidence 2 2 (valid_samples has gt));
      mret (loss_div loss (valid_count has)))) /\
  (~ (- 2 ^ 63 <= img_res - 1 < 2 ^ 63) ->
   compute_keypoints2d_loss weak_perspective_projection self pred cam gt
     img_res focal_length (Some has) = Run (Raise RuntimeError) []).
Proof.
  intros Hwpp Hlen Hlenp Hlenc Hcam Hc Hg Hv.
  unfold compute_keypoints2d_loss, channel. rewrite Hc.
  rewrite !bind_lift_ok. cbv zeta. rewrite repeat_last_confidence.
  unfold eq_one_opt.
  assert (Hconf : index_mask (joint_confidence 2 2 gt) (eq_one has)
                  = Ok (joint_confidence 2 2 (valid_samples has gt))).
  { unfold joint_confidence. rewrite index_mask_valid by (by rewrite length_map).
    by rewrite valid_samples_map. }
  rewrite !Hconf, !bind_lift_ok.
  rewrite numel3_joint_confidence2;
    [|by apply valid_samples_nonempty|by apply valid_samples_Forall].
  rewrite (column_rect2 0 3) by (lia || assumption). rewrite bind_lift_ok.
  rewrite Hwpp;
    [|rewrite length_map; congruence
     |unfold columns; rewrite length_map; congruence
     |apply (columns_rect2 1 3 3); [lia|assumption]].
  rewrite bind_lift_ok. unfold int64_operand.
  split; intros Hres.
  - rewrite (proj2 (andb_true_iff _ _)) by (split; [apply Z.leb_le|apply Z.ltb_lt]; lia).
    rewrite bind_lift_ok.
    unfold columns. rewrite zip_with_zip_map.
    rewrite (index_mask_valid has (map _ (zip pred cam)))
      by (rewrite length_map, length_zip_with; lia).
    rewrite bind_lift_ok.
    unfold normalize_keypoints, first_channels.
    rewrite (index_mask_valid has (map _ (map _ gt))) by (by rewrite !length_map).
    rewrite bind_lift_ok, !valid_samples_map, bind_lift_ok.
    rewrite !length_map, length_valid_samples by exact Hlen.
    reflexivity.
  - destruct ((- 2 ^ 63 <=? img_res - 1) && (img_res - 1 <? 2 ^ 63)) eqn:Hb; [|reflexivity].
    apply andb_true_iff in Hb as [Hlo Hhi].
    apply Z.leb_le in Hlo. apply Z.ltb_lt in Hhi. lia.
Qed.

Lemma numel2_rect2 (C : nat) (V : T2) :
  V <> [] -> (0 < C)%nat -> rect2 C V -> (numel2 V =? 0)%nat = false.
Proof.
  intros Hne HC HV. apply Nat.eqb_neq. destruct HV as [|r V Hr _]; [done|].
  unfold numel2, numel1. cbn. lia.
Qed.

Lemma numel3_rect3 (J C : nat) (V : T3) :
  V <> [] -> (0 < J)%nat -> (0 < C)%nat -> rect3 J C V ->
  (numel3 V =? 0)%nat = false.
Proof.
  intros Hne HJ HC HV. apply Nat.eqb_neq. destruct HV as [|s V [Hs Hr] _]; [done|].
  destruct Hr as [|r s Hr _]; [simpl in Hs; lia|].
  unfold numel3, numel2, numel1. cbn. lia.
Qed.

(** X3: the shape term and the expression term on a batch with at least one
    valid sample: the loss module is called once, on the valid
    predictions and the valid targets, and what it gives is divided by
    the number of valid samples.  The expression term weights every valid
    sample with the mean of the confidences it is given for it. *)
Theorem betas_and_expression_loss_on_valid_samples (self : estimator) (C : nat)
    (pred gt : T2) (has : list Z) :
  length has = length gt -> length pred = length gt ->
  rect2 C gt -> (0 < C)%nat -> (0 < valid_count has)%nat ->
  compute_smplx_betas_loss self pred gt has =
    (loss ← invoke "loss_smplx_betas" (loss_smplx_betas self)
              (valid_samples has pred, valid_samples has gt);
     mret (loss_div loss (valid_count has))) /\
  forall face_conf : T2, length face_conf = length gt ->
    compute_smplx_expression_loss self pred gt has face_conf =
      (loss ← invoke "loss_smplx_expression" (loss_smplx_expression self)
                (valid_samples has pred, valid_samples has gt,
                 map (fun c => [c]) (part_confidence (valid_samples has face_conf)));
       mret (loss_div loss (valid_count has))).
Proof.
  intros Hlen Hlenp Hgt HC Hv.
  assert (Hnum : (numel2 (valid_samples has gt) =? 0)%nat = false).
  { apply (numel2_rect2 C); [by apply valid_samples_nonempty|exact HC|].
    by apply valid_samples_Forall. }
  split.
  - unfold compute_smplx_betas_loss. cbv zeta.
    rewrite !(index_mask_valid has gt) by exact Hlen.
    rewrite (index_mask_valid has pred) by congruence.
    rewrite !bind_lift_ok, Hnum, ?bind_lift_ok.
    apply L_bind_ext. intros loss.
    by rewrite bind_lift_ok, length_valid_samples.
  - intros face_conf Hlenf.
    unfold compute_smplx_expression_loss. cbv zeta.
    rewrite !(index_mask_valid has gt) by exact Hlen.
    rewrite (index_mask_valid has pred) by congruence.
    rewrite !map_map.
    rewrite index_mask_valid by (rewrite length_map; congruence).
    rewrite !bind_lift_ok, Hnum, ?bind_lift_ok, valid_samples_map.
    unfold part_confidence. rewrite map_map.
    apply L_bind_ext. intros loss.
    by rewrite bind_lift_ok, length_valid_samples.
Qed.


(** X4: the pose terms on a batch with at least one valid sample: the loss
    module is called once, on the valid predicted rotation matrices and on
    the rotation matrices of the valid axis-angle targets, and what it
    gives is returned as it is, not divided by the number of valid
    samples.  The jaw and the hand term weight every valid sample with the
    mean of the confidences they are given for it. *)
Theorem pose_losses_on_valid_samples (self : estimator) (has : list Z) :
  rowwise_rodrigues batch_rodrigues rodrigues -> (0 < valid_count has)%nat ->
  (forall (pred : T4) (gt : T2),
      length has = length gt -> length pred = length gt -> rect2 3 gt ->
      compute_smplx_global_orient_loss batch_rodrigues self pred gt has =
        invoke "loss_smplx_global_orient" (loss_smplx_global_orient self)
          (valid_samples has pred,
           map (fun r => [rodrigues r]) (valid_samples has gt))) /\
  (forall (J : nat) (pred : T4) (gt : T3),
      length has = length gt -> length pred = length gt ->
      dim1 pred = J -> (0 < J)%nat -> rect3 J 3 gt ->
      compute_smplx_body_pose_loss batch_rodrigues self pred gt has =
        invoke "loss_smplx_body_pose" (loss_smplx_body_pose self)
          (valid_samples has pred,
           map (map rodrigues) (valid_samples has gt))) /\
  (forall (pred : T4) (gt face_conf : T2),
      length has = length gt -> length pred = length gt ->
      length face_conf = length gt -> rect2 3 gt ->
      compute_smplx_jaw_pose_loss batch_rodrigues self pred gt has face_conf =
        invoke "loss_smplx_jaw_pose" (loss_smplx_jaw_pose self)
          (valid_samples has pred,
           map (fun r => [rodrigues r]) (valid_samples has gt),
           map (fun c => [[[c]]]) (part_confidence (valid_samples has face_conf)))) /\
  (forall (J : nat) (pred : T4) (gt : T3) (hand_conf : T2),
      length has = length gt -> length pred = length gt ->
      length hand_conf = length gt ->
      dim1 pred = J -> (0 < J)%nat -> rect3 J 3 gt ->
      compute_smplx_hand_pose_loss batch_rodrigues self pred gt has hand_conf =
        invoke "loss_smplx_hand_pose" (loss_smplx_hand_pose self)
          (valid_samples has pred,
           map (map rodrigues) (valid_samples has gt),
           map (fun c => replicate J [[c]])
             (part_confidence (valid_samples has hand_conf)))).
Proof.
  intros Hrod Hv.
  assert (Hnum2 : forall gt : T2, length has = length gt -> rect2 3 gt ->
            (numel2 (valid_samples has gt) =? 0)%nat = false).
  { intros gt Hlen Hgt. apply (numel2_rect2 3); [by apply valid_samples_nonempty|lia|].
    by apply valid_samples_Forall. }
  assert (Hnum3 : forall J (gt : T3), length has = length gt -> (0 < J)%nat ->
            rect3 J 3 gt -> (numel3 (valid_samples has gt) =? 0)%nat = false).
  { intros J gt Hlen HJ Hgt.
    apply (numel3_rect3 J 3); [by apply valid_samples_nonempty|lia|lia|].
    by apply valid_samples_Forall. }
  repeat match goal with |- _ /\ _ => split end.
  - intros pred gt Hlen Hlenp Hgt.
    unfold compute_smplx_global_orient_loss. cbv zeta.
    rewrite (index_mask_valid has gt), bind_lift_ok, Hnum2 by assumption.
    rewrite (rotmat_view_rows batch_rodrigues rodrigues) by assumption.
    rewrite bind_lift_ok, (index_mask_valid has pred), bind_lift_ok by congruence.
    rewrite index_mask_valid by (by rewrite length_map).
    by rewrite bind_lift_ok, valid_samples_map.
  - intros J pred gt Hlen Hlenp HJ HJ0 Hgt.
    unfold compute_smplx_body_pose_loss. cbv zeta. rewrite HJ.
    rewrite (index_mask_valid has gt), bind_lift_ok, (Hnum3 J) by assumption.
    rewrite (rotmat_view_joints batch_rodrigues rodrigues J) by assumption.
    destruct (Nat.eqb_spec J 0) as [->|_]; [lia|].
    rewrite bind_lift_ok, (index_mask_valid has pred), bind_lift_ok by congruence.
    rewrite index_mask_valid by (by rewrite length_map).
    by rewrite bind_lift_ok, valid_samples_map.
  - intros pred gt face_conf Hlen Hlenp Hlenf Hgt.
    unfold compute_smplx_jaw_pose_loss. cbv zeta.
    rewrite (index_mask_valid has gt), bind_lift_ok, Hnum2 by assumption.
    rewrite (rotmat_view_rows batch_rodrigues rodrigues) by assumption.
    rewrite bind_lift_ok, (index_mask_valid has pred), bind_lift_ok by congruence.
    rewrite (index_mask_valid has (map _ gt)) by (by rewrite length_map).
    rewrite bind_lift_ok, map_map.
    rewrite index_mask_valid by (rewrite length_map; congruence).
    rewrite bind_lift_ok, !valid_samples_map.
    unfold part_confidence. by rewrite map_map.
  - intros J pred gt hand_conf Hlen Hlenp Hlenh HJ HJ0 Hgt.
    unfold compute_smplx_hand_pose_loss. cbv zeta. rewrite HJ.
    rewrite (index_mask_valid has gt), bind_lift_ok, (Hnum3 J) by assumption.
    rewrite (rotmat_view_joints batch_rodrigues rodrigues J) by assumption.
    destruct (Nat.eqb_spec J 0) as [->|_]; [lia|].
    rewrite bind_lift_ok, (index_mask_valid has pred), bind_lift_ok by congruence.
    rewrite (index_mask_valid has (map _ gt)) by (by rewrite length_map).
    rewrite bind_lift_ok, map_map.
    rewrite index_mask_valid by (rewrite length_map; congruence).
    rewrite bind_lift_ok, !valid_samples_map.
    unfold part_confidence. rewrite map_map. do 2 f_equal.
    apply map_ext. intros r. apply (fmap_replicate (fun c : F => [[c]])).
Qed.

(** X5: flags whose number differs from the number of samples of the batch:
    every term with flags raises [IndexError] at its first selection, and
    the loss module is not called. *)
Theorem flags_of_another_length_raise (self : estimator) (has : list Z) :
  (forall (pred gt : T3),
      length has <> length gt ->
      compute_keypoints3d_loss self pred gt (Some has) = Run (Raise IndexError) []) /\
  (forall (pred : T3) (cam : T2) (gt : T3) (img_res focal_length : Z),
      length has <> length gt ->
      compute_keypoints2d_loss weak_perspective_projection self pred cam gt
        img_res focal_length (Some has) = Run (Raise IndexError) []) /\
  (forall (pred : T4) (gt : T3),
      length has <> length gt ->
      compute_smplx_body_pose_loss batch_rodrigues self pred gt has
        = Run (Raise IndexError) []) /\
  (forall (pred : T4) (gt : T2),
      length has <> length gt ->
      compute_smplx_global_orient_loss batch_rodrigues self pred gt has
        = Run (Raise IndexError) []) /\
  (forall (pred : T4) (gt : T2) (face_conf : T2),
      length has <> length gt ->
      compute_smplx_jaw_pose_loss batch_rodrigues self pred gt has face_conf
        = Run (Raise IndexError) []) /\
  (forall (pred : T4) (gt : T3) (hand_conf : T2),
      length has <> length gt ->
      compute_smplx_hand_pose_loss batch_rodrigues self pred gt has hand_conf
        = Run (Raise IndexError) []) /\
  (forall (pred gt : T2),
      length has <> length gt ->
      compute_smplx_betas_loss self pred gt has = Run (Raise IndexError) []) /\
  (forall (pred gt : T2) (face_conf : T2),
      length has <> length gt ->
      compute_smplx_expression_loss self pred gt has face_conf
        = Run (Raise IndexError) []).
Proof.
  repeat match goal with |- _ /\ _ => split end.
  - intros pred gt Hlen. unfold compute_keypoints3d_loss, channel.
    destruct (has_channel 3 gt); [|reflexivity].
    rewrite bind_lift_ok. cbv zeta. unfold eq_one_opt.
    by rewrite index_mask_mismatch by (unfold repeat_last; by rewrite !length_map).
  - intros pred cam gt img_res fl Hlen. unfold compute_keypoints2d_loss, channel.
    destruct (has_channel 2 gt); [|reflexivity].
    rewrite bind_lift_ok. cbv zeta. unfold eq_one_opt.
    by rewrite index_mask_mismatch by (unfold repeat_last; by rewrite !length_map).
  - intros pred gt Hlen. unfold compute_smplx_body_pose_loss. cbv zeta.
    by rewrite (index_mask_mismatch has gt) by exact Hlen.
  - intros pred gt Hlen. unfold compute_smplx_global_orient_loss. cbv zeta.
    by rewrite (index_mask_mismatch has gt) by exact Hlen.
  - intros pred gt fc Hlen. unfold compute_smplx_jaw_pose_loss. cbv zeta.
    by rewrite (index_mask_mismatch has gt) by exact Hlen.
  - intros pred gt hc Hlen. unfold compute_smplx_hand_pose_loss. cbv zeta.
    by rewrite (index_mask_mismatch has gt) by exact Hlen.
  - intros pred gt Hlen. unfold compute_smplx_betas_loss. cbv zeta.
    by rewrite (index_mask_mismatch has gt) by exact Hlen.
  - intros pred gt fc Hlen. unfold compute_smplx_expression_loss. cbv zeta.
    by rewrite (index_mask_mismatch has gt) by exact Hlen.
Qed.

(** X6: the 3D keypoint term centers at the keypoints 1 and 2: on a batch
    with a valid sample whose predictions or whose targets have fewer than
    three keypoints (and at least one) per sample, it raises [IndexError],
    and the loss module is not called. *)
Theorem keypoints3d_loss_needs_three_keypoints (self : estimator) (Jp Jg : nat)
    (pred gt : T3) (has : list Z) :
  length has = length gt -> length pred = length gt ->
  (0 < valid_count has)%nat ->
  Forall (fun s : T2 => length s = Jp) pred ->
  Forall (fun s : T2 => length s = Jg) gt -> has_channel 3 gt = true ->
  (0 < Jg)%nat -> (Jp < 3 \/ Jg < 3)%nat ->
  compute_keypoints3d_loss self pred gt (Some has) = Run (Raise IndexError) [].
Proof.
  intros Hlen Hlenp Hv Hp Hg Hc HJg HJ.
  unfold compute_keypoints3d_loss, channel. rewrite Hc.
  rewrite !bind_lift_ok. cbv zeta. rewrite repeat_last_confidence.
  unfold eq_one_opt.
  assert (Hconf : index_mask (joint_confidence 3 3 gt) (eq_one has)
                  = Ok (joint_confidence 3 3 (valid_samples has gt))).
  { unfold joint_confidence. rewrite index_mask_valid by (by rewrite length_map).
    by rewrite valid_samples_map. }
  rewrite !Hconf, !bind_lift_ok.
  assert (Hne : forall A (x : list A), length x = length gt -> valid_samples has x <> [])
    by (intros A x Hx; apply valid_samples_nonempty; [congruence|exact Hv]).
  assert (Hnum : (numel3 (joint_confidence 3 3 (valid_samples has gt)) =? 0)%nat = false).
  { apply Nat.eqb_neq.
    pose proof (Hne _ gt eq_refl) as Hgne.
    pose proof (valid_samples_Forall _ has gt Hg) as HV.
    destruct HV as [|s V Hs _]; [done|].
    destruct s as [|kp s]; [simpl in Hs; lia|].
    unfold numel3, numel2, numel1, joint_confidence. cbn. lia. }
  rewrite Hnum.
  rewrite (index_mask_valid has pred) by congruence. rewrite bind_lift_ok.
  unfold first_channels at 1.
  rewrite (index_mask_valid has (map _ gt)) by (by rewrite length_map).
  rewrite bind_lift_ok, valid_samples_map.
  assert (Hshort : forall (J : nat) (V : T3), V <> [] -> (J < 3)%nat ->
            Forall (fun s : T2 => length s = J) V -> has_joints [1; 2]%nat V = false).
  { intros J V HVne HJ3 HV. destruct HV as [|s V Hs _]; [done|].
    unfold has_joints. cbn [forallb]. apply andb_false_intro1.
    rewrite Hs. destruct J as [|[|[|J]]]; try reflexivity. lia. }
  unfold mean_joints.
  destruct (has_joints [1; 2]%nat (valid_samples has pred)) eqn:Hjp; [|reflexivity].
  rewrite bind_lift_ok.
  destruct HJ as [HJ|HJ].
  - rewrite (Hshort Jp) in Hjp; [discriminate| |exact HJ|by apply valid_samples_Forall].
    apply Hne. exact Hlenp.
  - rewrite (Hshort Jg); [reflexivity| |exact HJ|].
    + intros Hnil. apply (f_equal length) in Hnil. rewrite length_map in Hnil.
      apply (Hne _ gt eq_refl). by apply nil_length_inv.
    + rewrite Forall_map. eapply Forall_impl; [apply valid_samples_Forall, Hg|].
      intros s Hs. simpl. by rewrite length_map.
Qed.


(** X7: [pose2rotmat] on a batch with samples.  Rotation matrices (a tensor
    of four dimensions) are given back as they are.  An axis-angle pose
    (B, J, 3) is converted joint by joint, and the result keeps the batch
    and the joints of the pose; with no joint at all (J = 0) the last
    [view] has no size to infer and raises [RuntimeError]. *)
Theorem pose2rotmat_converts_axis_angle (J : nat) (x : T3) (r : T4) :
  rowwise_rodrigues batch_rodrigues rodrigues ->
  x <> [] -> rect3 J 3 x ->
  pose2rotmat batch_rodrigues (AxisAngle x)
    = (if (J =? 0)%nat then Raise RuntimeError else Ok (map (map rodrigues) x)) /\
  pose2rotmat batch_rodrigues (RotMat r) = Ok r.
Proof.
  intros Hrod Hne Hx. split; [|reflexivity].
  unfold pose2rotmat.
  assert (HJ : dim1 x = J).
  { destruct Hx as [|s x [Hs _] _]; [done|exact Hs]. }
  rewrite HJ. by apply (rotmat_view_joints batch_rodrigues rodrigues).
Qed.

End Terms.

Section Normalization.
Context {F : Type} `{!Scalar F}.

(** The scalars form a field in which 2 is 1 + 1: arithmetic is exact. *)
Variables (fopp finv : F -> F).
Hypothesis exact_field :
  field_theory (of_Z 0) (of_Z 1) fadd fmul fsub fopp fdiv finv eq.
Hypothesis two_is_one_plus_one : of_Z 2 = fadd (of_Z 1) (of_Z 1).

Add Field exact_coordinates : exact_field.

(** X8: the normalization of the 2D targets, in exact arithmetic: the pixel
    coordinate 0 goes to -1 and the last pixel coordinate [img_res - 1]
    goes to 1. *)
Theorem normalize_keypoints_corners (img_res : Z) :
  of_Z (img_res - 1) <> of_Z 0 ->
  normalize_keypoints img_res [[ [of_Z 0; of_Z (img_res - 1)] ]]
    = [[ [fsub (of_Z 0) (of_Z 1); of_Z 1] ]].
Proof using exact_field two_is_one_plus_one.
  intros Hres. unfold normalize_keypoints. cbn [map].
  rewrite two_is_one_plus_one.
  do 3 f_equal; [|f_equal]; field; exact Hres.
Qed.

End Normalization.

(** *** The properties on concrete batches *)

Lemma keypoints3d_loss_on_valid_samples_witness :
  compute_keypoints3d_loss est32 pred_keypoints gt_keypoints (Some [1]) =
    (loss ← invoke "loss_keypoints3d" (loss_keypoints3d est32)
              (map centered (valid_samples [1] pred_keypoints),
               map centered (first_channels 3 (valid_samples [1] gt_keypoints)),
               joint_confidence 3 3 (valid_samples [1] gt_keypoints));
     mret (loss_div loss (valid_count [1]))).
Proof.
  apply keypoints3d_loss_on_valid_samples;
    [reflexivity|reflexivity|reflexivity
    |repeat constructor|repeat constructor|vm_compute; lia].
Defined.

(** One sample of three keypoints with the camera of scale 1 and no
    translation: the projections are (0, 0), (1, 0), (0, 0), the
    normalized targets (-1, -1), (1, -1), (-1, 1), and the module gives the
    sum 5 of the squared residuals. *)
Lemma keypoints2d_loss_on_valid_samples_witness :
  compute_keypoints2d_loss project_batch terms32 pred_keypoints
      [[of_Z 1; of_Z 0; of_Z 0]] gt_keypoints2d 224 5000 (Some [1]) =
    (loss ← invoke "loss_keypoints2d" (loss_keypoints2d terms32)
              (map (fun pc : list (list float32) * list float32 =>
                      project_sample pc.1 (nth 0 pc.2 (of_Z 0)) (take 2 (drop 1 pc.2)))
                   (valid_samples [1] (zip pred_keypoints [[of_Z 1; of_Z 0; of_Z 0]])),
               normalize_keypoints 224 (first_channels 2 (valid_samples [1] gt_keypoints2d)),
               joint_confidence 2 2 (valid_samples [1] gt_keypoints2d));
     mret (loss_div loss (valid_count [1]))) /\
  compute_keypoints2d_loss project_batch terms32 pred_keypoints
      [[of_Z 1; of_Z 0; of_Z 0]] gt_keypoints2d 224 5000 (Some [1])
    = Run (Ok [of_Z 5]) [Forward "loss_keypoints2d"] /\
  compute_keypoints2d_loss project_batch terms32 pred_keypoints
      [[of_Z 1; of_Z 0; of_Z 0]] gt_keypoints2d (2 ^ 63 + 1) 5000 (Some [1])
    = Run (Raise RuntimeError) [].
Proof.
  destruct (keypoints2d_loss_on_valid_samples project_batch project_sample terms32
              pred_keypoints [[of_Z 1; of_Z 0; of_Z 0]] gt_keypoints2d 224 5000 [1])
    as [Hcall _];
    [intros pts sc tr _ _ _; reflexivity
    |reflexivity|reflexivity|reflexivity
    |repeat constructor|reflexivity
    |repeat constructor; discriminate|vm_compute; lia|].
  split; [apply Hcall; lia|]. split; [vm_compute; reflexivity|].
  apply (keypoints2d_loss_on_valid_samples project_batch project_sample terms32
           pred_keypoints [[of_Z 1; of_Z 0; of_Z 0]] gt_keypoints2d (2 ^ 63 + 1) 5000 [1]);
    [intros pts sc tr _ _ _; reflexivity
    |reflexivity|reflexivity|reflexivity
    |repeat constructor|reflexivity
    |repeat constructor; discriminate|vm_compute; lia|lia].
Defined.

(** The shape (0, 0) against the target (1, 1) gives the squared error 2;
    the expression term passes the mean 1/2 of the confidences 0 and 1 as
    weight. *)
Lemma betas_and_expression_loss_on_valid_samples_witness :
  (compute_smplx_betas_loss terms32 [[of_Z 0; of_Z 0]] [[of_Z 1; of_Z 1]] [1] =
     (loss ← invoke "loss_smplx_betas" (loss_smplx_betas terms32)
               (valid_samples [1] [[of_Z 0; of_Z 0]],
                valid_samples [1] [[of_Z 1; of_Z 1]]);
      mret (loss_div loss (valid_count [1]))) /\
   compute_smplx_betas_loss terms32 [[of_Z 0; of_Z 0]] [[of_Z 1; of_Z 1]] [1]
     = Run (Ok [of_Z 2]) [Forward "loss_smplx_betas"]) /\
  (compute_smplx_expression_loss terms32 [[of_Z 0; of_Z 0]] [[of_Z 1; of_Z 1]] [1]
       [[of_Z 0; of_Z 1]] =
     (loss ← invoke "loss_smplx_expression" (loss_smplx_expression terms32)
               (valid_samples [1] [[of_Z 0; of_Z 0]],
                valid_samples [1] [[of_Z 1; of_Z 1]],
                map (fun c => [c]) (part_confidence (valid_samples [1] [[of_Z 0; of_Z 1]])));
      mret (loss_div loss (valid_count [1]))) /\
   compute_smplx_expression_loss terms32 [[of_Z 0; of_Z 0]] [[of_Z 1; of_Z 1]] [1]
       [[of_Z 0; of_Z 1]]
     = Run (Ok [fdiv (of_Z 1) (of_Z 2)]) [Forward "loss_smplx_expression"]).
Proof.
  destruct (betas_and_expression_loss_on_valid_samples terms32 2
              [[of_Z 0; of_Z 0]] [[of_Z 1; of_Z 1]] [1]) as [Hbetas Hexpr];
    [reflexivity|reflexivity|repeat constructor|lia|vm_compute; lia|].
  split; (split; [|vm_compute; reflexivity]).
  - exact Hbetas.
  - apply Hexpr. reflexivity.
Defined.

(** One sample of one joint for each of the four pose terms.  The
    predicted matrices hold zeros and the target axis-angle (1, 0, 0)
    becomes three rows (1, 0, 0), so the orientation and the body term
    give the squared error 3; the jaw and the hand term pass the mean 1/2
    of the confidences 0 and 1 as weight. *)
Lemma pose_losses_on_valid_samples_witness :
  let zeros : list (list (list (list float32))) :=
    [[ [[of_Z 0; of_Z 0; of_Z 0]; [of_Z 0; of_Z 0; of_Z 0]; [of_Z 0; of_Z 0; of_Z 0]] ]] in
  (compute_smplx_global_orient_loss rows_to_matrices terms32 zeros
       [[of_Z 1; of_Z 0; of_Z 0]] [1] =
     invoke "loss_smplx_global_orient" (loss_smplx_global_orient terms32)
       (valid_samples [1] zeros,
        map (fun r => [[r; r; r]]) (valid_samples [1] [[of_Z 1; of_Z 0; of_Z 0]])) /\
   compute_smplx_global_orient_loss rows_to_matrices terms32 zeros
       [[of_Z 1; of_Z 0; of_Z 0]] [1]
     = Run (Ok [of_Z 3]) [Forward "loss_smplx_global_orient"]) /\
  (compute_smplx_body_pose_loss rows_to_matrices terms32 zeros
       [[ [of_Z 1; of_Z 0; of_Z 0] ]] [1] =
     invoke "loss_smplx_body_pose" (loss_smplx_body_pose terms32)
       (valid_samples [1] zeros,
        map (map (fun r => [r; r; r])) (valid_samples [1] [[ [of_Z 1; of_Z 0; of_Z 0] ]])) /\
   compute_smplx_body_pose_loss rows_to_matrices terms32 zeros
       [[ [of_Z 1; of_Z 0; of_Z 0] ]] [1]
     = Run (Ok [of_Z 3]) [Forward "loss_smplx_body_pose"]) /\
  (compute_smplx_jaw_pose_loss rows_to_matrices terms32 zeros
       [[of_Z 1; of_Z 0; of_Z 0]] [1] [[of_Z 0; of_Z 1]] =
     invoke "loss_smplx_jaw_pose" (loss_smplx_jaw_pose terms32)
       (valid_samples [1] zeros,
        map (fun r => [[r; r; r]]) (valid_samples [1] [[of_Z 1; of_Z 0; of_Z 0]]),
        map (fun c => [[[c]]]) (part_confidence (valid_samples [1] [[of_Z 0; of_Z 1]]))) /\
   compute_smplx_jaw_pose_loss rows_to_matrices terms32 zeros
       [[of_Z 1; of_Z 0; of_Z 0]] [1] [[of_Z 0; of_Z 1]]
     = Run (Ok [fdiv (of_Z 1) (of_Z 2)]) [Forward "loss_smplx_jaw_pose"]) /\
  (compute_smplx_hand_pose_loss rows_to_matrices terms32 zeros
       [[ [of_Z 1; of_Z 0; of_Z 0] ]] [1] [[of_Z 0; of_Z 1]] =
     invoke "loss_smplx_hand_pose" (loss_smplx_hand_pose terms32)
       (valid_samples [1] zeros,
        map (map (fun r => [r; r; r])) (valid_samples [1] [[ [of_Z 1; of_Z 0; of_Z 0] ]]),
        map (fun c => replicate 1 [[c]])
          (part_confidence (valid_samples [1] [[of_Z 0; of_Z 1]]))) /\
   compute_smplx_hand_pose_loss rows_to_matrices terms32 zeros
       [[ [of_Z 1; of_Z 0; of_Z 0] ]] [1] [[of_Z 0; of_Z 1]]
     = Run (Ok [fdiv (of_Z 1) (of_Z 2)]) [Forward "loss_smplx_hand_pose"]).
Proof.
  cbv zeta.
  destruct (pose_losses_on_valid_samples rows_to_matrices (fun r => [r; r; r]) terms32 [1])
    as (Horient & Hbody & Hjaw & Hhand);
    [intros rows _; reflexivity|vm_compute; lia|].
  split; [|split; [|split]]; (split; [|vm_compute; reflexivity]).
  - apply Horient; [reflexivity|reflexivity|repeat constructor].
  - apply (Hbody 1%nat); [reflexivity|reflexivity|reflexivity|lia|repeat constructor].
  - apply Hjaw; [reflexivity|reflexivity|reflexivity|repeat constructor].
  - apply (Hhand 1%nat);
      [reflexivity|reflexivity|reflexivity|reflexivity|lia|repeat constructor].
Defined.

Lemma flags_of_another_length_raise_witness :
  compute_keypoints3d_loss est32 pred_keypoints gt_keypoints (Some [1; 1])
    = Run (Raise IndexError) [].
Proof.
  apply (flags_of_another_length_raise rows_to_matrices project_batch est32 [1; 1]).
  simpl. lia.
Defined.

Lemma keypoints3d_loss_needs_three_keypoints_witness :
  compute_keypoints3d_loss est32 two_keypoints gt_keypoints (Some [1])
    = Run (Raise IndexError) [].
Proof.
  apply (keypoints3d_loss_needs_three_keypoints est32 2 3);
    [reflexivity|reflexivity|vm_compute; lia
    |repeat constructor|repeat constructor|reflexivity|lia|lia].
Defined.

Lemma pose2rotmat_converts_axis_angle_witness :
  pose2rotmat rows_to_matrices (AxisAngle (pred_keypoints (F:=float32)))
    = Ok (map (map (fun r => [r; r; r])) pred_keypoints) /\
  pose2rotmat rows_to_matrices (RotMat [[ [[of_Z 1 : float32]] ]]) = Ok [[ [[of_Z 1]] ]].
Proof.
  apply (pose2rotmat_converts_axis_angle rows_to_matrices (fun r => [r; r; r]) 3);
    [intros rows _; reflexivity|discriminate|repeat constructor].
Defined.

Lemma normalize_keypoints_corners_witness :
  normalize_keypoints 224 [[ [of_Z 0; of_Z (224 - 1)] ]]
    = [[ [fsub (of_Z 0) (of_Z 1); of_Z 1 : Qc] ]].
Proof.
  apply (@normalize_keypoints_corners Qc Qc_scalar Qcopp Qcinv Qcft);
    [apply Qc_is_canon; reflexivity|discriminate].
Defined.

End TermLaws.

(* ===================================================================== *)
(** ** Properties of [compute_losses]                                  *)
(* ===================================================================== *)

Module ComputeLossesLaws.
#[local] Set Warnings "-clear-no-such-hyp".
Import Estimator Examples MoreExamples Properties Notions EstimatorSpec.

Section Results.
Context {A B : Type}.

(** A bind that returns: both parts return, and the calls are those of the
    first followed by those of the second. *)
Lemma L_bind_Ok (m : L A) (f : A -> L B) (b : B) :
  value (m ≫= f) = Ok b ->
  exists a, value m = Ok a /\ value (f a) = Ok b /\
            calls (m ≫= f) = calls m ++ calls (f a).
Proof.
  unfold mbind, L_bind. destruct (value m) as [a|e]; [|discriminate].
  cbn [value calls]. intros H. by exists a.
Qed.

End Results.

Lemma Lpost_weaken {A : Type} (m : L A) (Q Q' : A -> Prop) (E E' : event -> Prop) :
  Lpost m Q E -> (forall a, Q a -> Q' a) -> (forall ev, E ev -> E' ev) ->
  Lpost m Q' E'.
Proof.
  intros [Hv Hc] HQ HE. split; [by auto|]. eapply Forall_impl; [exact Hc|exact HE].
Qed.

Lemma Lpost_getitem {A : Type} (key : string) (entry : option A) E :
  Lpost (lift (getitem key entry)) (fun a => entry = Some a) E.
Proof.
  split; [|constructor]. destruct entry as [a|]; [|discriminate].
  by intros ? [= <-].
Qed.

Lemma Lpost_True {A : Type} (m : L A) : Lpost m (fun _ => True) (fun _ => True).
Proof. split; [done|]. by apply Forall_true. Qed.

Lemma Lpost_add_term_dom {F A : Type} (module : option A) (key : string)
    (term : L (@Loss F))
    (losses : gmap string (@Loss F)) E :
  Lpost term (fun _ => True) E ->
  Lpost (add_term module key term losses)
    (fun d => dom d = dom losses ∪ key_if module key) E.
Proof.
  intros Ht. unfold add_term, key_if. destruct module.
  - eapply Lpost_bind; [exact Ht|]. intros l _. apply Lpost_ret.
    by rewrite dom_insert_L, (comm_L (∪)).
  - apply Lpost_ret. by rewrite (right_id_L ∅ (∪)).
Qed.

Ltac own_calls :=
  cbv zeta;
  lazymatch goal with
  | |- Lpost (mret _) _ _ => apply Lpost_ret; exact I
  | |- Lpost (lift _) _ _ => apply Lpost_lift
  | |- Lpost (invoke _ _ _) _ _ => apply Lpost_invoke; reflexivity
  | |- Lpost (_ ≫= _) _ _ => eapply Lpost_bind; [own_calls | intros ? _; own_calls]
  | |- Lpost (if ?b then _ else _) _ _ => destruct b; own_calls
  end.

Lemma Lpost_add_term_new {F A : Type} (module : option A) (key : string)
    (term : L (@Loss F)) (losses : gmap string (@Loss F)) (v : @Loss F) E :
  is_Some module -> Lpost term (fun l => l = v) E ->
  Lpost (add_term module key term losses) (fun d => d !! key = Some v) E.
Proof.
  intros [m ->] Ht. unfold add_term.
  eapply Lpost_bind; [exact Ht|]. intros l ->. apply Lpost_ret.
  by rewrite lookup_insert_eq.
Qed.

Lemma Lpost_add_term_keep {F A : Type} (module : option A) (key key' : string)
    (term : L (@Loss F)) (losses : gmap string (@Loss F)) (v : @Loss F) E :
  key' <> key -> losses !! key = Some v -> Lpost term (fun _ => True) E ->
  Lpost (add_term module key' term losses) (fun d => d !! key = Some v) E.
Proof.
  intros Hk Hl Ht. unfold add_term. destruct module; [|by apply Lpost_ret].
  eapply Lpost_bind; [exact Ht|]. intros l _. apply Lpost_ret.
  by rewrite lookup_insert_ne.
Qed.

Lemma value_getitem_Ok {A : Type} (key : string) (entry : option A) (a : A) :
  value (lift (getitem key entry)) = Ok a -> entry = Some a.
Proof. destruct entry; [by intros [= ->]|discriminate]. Qed.

Lemma value_local_Ok {A : Type} (var : string) (v : option A) (a : A) :
  value (lift (local var v)) = Ok a -> v = Some a.
Proof. destruct v; [by intros [= ->]|discriminate]. Qed.

Lemma add_term_entry {F A : Type} (module : option A) (key : string)
    (term : L (@Loss F)) (d d' : gmap string (@Loss F)) :
  value (add_term module key term d) = Ok d' ->
  forall k l, d' !! k = Some l -> (k = key /\ value term = Ok l) \/ d !! k = Some l.
Proof.
  unfold add_term. destruct module.
  - intros H. apply L_bind_Ok in H as (l0 & Ht & Hret & _). injection Hret as <-.
    intros k l. destruct (decide (k = key)) as [->|Hne].
    + rewrite lookup_insert_eq. intros [= <-]. by left.
    + rewrite lookup_insert_ne by done. by right.
  - intros [= <-]. by right.
Qed.

Section Calls.
Context {F : Type} `{!Scalar F}.
Context {World Img Features DiscData Score LogVars : Type}.
Variable batch_rodrigues : list (list F) -> result (list (list (list F))).
Variable weak_perspective_projection :
  list (list (list F)) -> list F -> list (list F) -> result (list (list (list F))).
Variable get_keypoint_idxs_by_part : string -> string -> result (list nat).
Variable img_last_dim : Img -> Z.

Local Abbreviation estimator :=
  (@estimator F World Img Features DiscData Score LogVars).
Local Abbreviation compute_losses_ :=
  (compute_losses batch_rodrigues weak_perspective_projection
     get_keypoint_idxs_by_part img_last_dim).

(** X9: the first four reads of [compute_losses] are made whatever the
    estimator is configured for: without [pred_param] or [pred_cam] among
    the predictions, or without [keypoints3d] or [keypoints2d] among the
    targets, it raises the [KeyError] of the first of them that is
    missing, and calls nothing, the body model included. *)
Theorem compute_losses_missing_key (self : estimator)
    (predictions : @predictions_t F) (targets : @batch F Img Features) :
  let missing :=
    match pred_param predictions, pred_cam predictions,
          keypoints3d targets, keypoints2d targets with
    | None, _, _, _ => Some "pred_param"
    | _, None, _, _ => Some "pred_cam"
    | _, _, None, _ => Some "keypoints3d"
    | _, _, _, None => Some "keypoints2d"
    | _, _, _, _ => None
    end%string in
  forall key, missing = Some key ->
  compute_losses_ self predictions targets = Run (Raise (KeyError key)) [].
Proof.
  cbv zeta. intros key. unfold compute_losses.
  destruct (pred_param predictions) as [pp|]; [|by intros [= <-]].
  destruct (pred_cam predictions) as [pc|]; [|by intros [= <-]].
  destruct (keypoints3d targets) as [k3|]; [|by intros [= <-]].
  destruct (keypoints2d targets) as [k2|]; [|by intros [= <-]].
  discriminate.
Qed.

(** X10: without a training body model the predicted keypoints are never
    assigned: an estimator with a 3D or a 2D keypoint loss and no
    [body_model_train] raises [UnboundLocalError] at the first keypoint
    term and calls nothing. *)
Theorem compute_losses_without_body_model (self : estimator)
    (predictions : @predictions_t F) (targets : @batch F Img Features) :
  body_model_train self = None ->
  is_Some (pred_param predictions) -> is_Some (pred_cam predictions) ->
  is_Some (keypoints3d targets) -> is_Some (keypoints2d targets) ->
  is_Some (loss_keypoints3d self) \/ is_Some (loss_keypoints2d self) ->
  compute_losses_ self predictions targets
    = Run (Raise (UnboundLocalError "pred_keypoints3d")) [].
Proof.
  intros Hbm [pp Hpp] [pc Hpc] [k3 Hk3] [k2 Hk2] Hloss.
  unfold compute_losses. rewrite Hbm, Hpp, Hpc, Hk3, Hk2.
  destruct (loss_keypoints3d self) as [l3|]; [reflexivity|].
  destruct Hloss as [[? [=]]|[l2 ->]]. reflexivity.
Qed.


Lemma compute_losses_dom (self : estimator) (predictions : @predictions_t F)
    (targets : @batch F Img Features) :
  Lpost (compute_losses_ self predictions targets)
    (fun losses => exists pp, pred_param predictions = Some pp /\
                              dom losses = term_keys self pp)
    (fun _ => True).
Proof.
  unfold compute_losses.
  eapply Lpost_bind; [apply Lpost_getitem|intros pp Hpp].
  do 3 (eapply Lpost_bind; [apply Lpost_lift|intros ? _]).
  eapply Lpost_bind; [apply Lpost_True|intros pred_keypoints3d _]. cbv zeta.
  eapply Lpost_bind; [apply Lpost_add_term_dom, Lpost_True|intros d1 Hd1].
  eapply Lpost_bind; [apply Lpost_add_term_dom, Lpost_True|intros d2 Hd2].
  eapply Lpost_bind; [apply Lpost_add_term_dom, Lpost_True|intros d3 Hd3].
  eapply Lpost_bind; [apply Lpost_add_term_dom, Lpost_True|intros d4 Hd4].
  eapply Lpost_bind; [apply Lpost_add_term_dom, Lpost_True|intros d5 Hd5].
  eapply (Lpost_bind _ _
            (fun d => dom d = dom d5 ∪
                              key_if (loss_smplx_hand_pose self) "smplx_right_hand_pose_loss" ∪
                              match loss_smplx_hand_pose self with
                              | Some _ => key_if (left_hand_pose pp) "smplx_left_hand_pose_loss"
                              | None => ∅
                              end)).
  { destruct (loss_smplx_hand_pose self);
      [|apply Lpost_ret; unfold key_if; by rewrite !(right_id_L ∅ (∪))].
    do 6 (eapply Lpost_bind; [apply Lpost_lift|intros ? _]).
    eapply Lpost_bind; [apply Lpost_True|intros ? _]. cbv zeta.
    destruct (left_hand_pose pp).
    - do 5 (eapply Lpost_bind; [apply Lpost_lift|intros ? _]).
      eapply Lpost_bind; [apply Lpost_True|intros ? _].
      apply Lpost_ret. rewrite !dom_insert_L. unfold key_if.
      by rewrite (comm_L (∪) {["smplx_left_hand_pose_loss"%string]}),
                 (comm_L (∪) {["smplx_right_hand_pose_loss"%string]}).
    - apply Lpost_ret. rewrite !dom_insert_L. unfold key_if.
      by rewrite (right_id_L ∅ (∪)), (comm_L (∪)). }
  intros d6 Hd6.
  eapply Lpost_bind; [apply Lpost_add_term_dom, Lpost_True|intros d7 Hd7].
  eapply Lpost_bind; [apply Lpost_add_term_dom, Lpost_True|intros d8 Hd8].
  eapply Lpost_bind; [apply Lpost_add_term_dom, Lpost_True|intros d9 Hd9].
  eapply Lpost_bind; [apply Lpost_add_term_dom, Lpost_True|intros d10 Hd10].
  apply Lpost_ret. exists pp. split; [exact Hpp|].
  cbv beta in *. rewrite Hd10, Hd9, Hd8, Hd7, Hd6, Hd5, Hd4, Hd3, Hd2, Hd1, dom_empty_L.
  unfold term_keys. by rewrite (left_id_L ∅ (∪)).
Qed.

(** X11: the dictionary [compute_losses] returns has a key for every loss
    module that is configured and for no other: the eleven modules give
    the keys of their terms (the global orientation under
    ["smplx_global_orient"], without the suffix of the others), and the
    hand module gives the key of the left hand as well when [pred_param]
    has a left hand pose. *)
Theorem compute_losses_keys (self : estimator) (predictions : @predictions_t F)
    (targets : @batch F Img Features) (losses : gmap string (@Loss F)) :
  value (compute_losses_ self predictions targets) = Ok losses ->
  exists pp, pred_param predictions = Some pp /\ dom losses = term_keys self pp.
Proof.
  intros H. by apply (proj1 (compute_losses_dom self predictions targets)).
Qed.


(** Every term calls at most its own loss module. *)
Lemma terms_call_their_module (self : estimator) :
  (forall p g h, Lpost (compute_keypoints3d_loss self p g h) (fun _ => True)
                   (fun ev => ev = Forward "loss_keypoints3d")) /\
  (forall p c g r f h,
      Lpost (compute_keypoints2d_loss weak_perspective_projection self p c g r f h)
        (fun _ => True) (fun ev => ev = Forward "loss_keypoints2d")) /\
  (forall p g h,
      Lpost (compute_smplx_global_orient_loss batch_rodrigues self p g h)
        (fun _ => True) (fun ev => ev = Forward "loss_smplx_global_orient")) /\
  (forall p g h,
      Lpost (compute_smplx_body_pose_loss batch_rodrigues self p g h)
        (fun _ => True) (fun ev => ev = Forward "loss_smplx_body_pose")) /\
  (forall p g h c,
      Lpost (compute_smplx_jaw_pose_loss batch_rodrigues self p g h c)
        (fun _ => True) (fun ev => ev = Forward "loss_smplx_jaw_pose")) /\
  (forall p g h c,
      Lpost (compute_smplx_hand_pose_loss batch_rodrigues self p g h c)
        (fun _ => True) (fun ev => ev = Forward "loss_smplx_hand_pose")) /\
  (forall p g h, Lpost (compute_smplx_betas_loss self p g h) (fun _ => True)
                   (fun ev => ev = Forward "loss_smplx_betas")) /\
  (forall p g h c,
      Lpost (compute_smplx_expression_loss self p g h c) (fun _ => True)
        (fun ev => ev = Forward "loss_smplx_expression")) /\
  (forall p, Lpost (compute_smplx_betas_prior_loss self p) (fun _ => True)
               (fun ev => ev = Forward "loss_smplx_betas_piror")) /\
  (forall c, Lpost (compute_camera_loss self c) (fun _ => True)
               (fun ev => ev = Forward "loss_camera")).
Proof.
  repeat match goal with |- _ /\ _ => split end; intros;
    unfold compute_keypoints3d_loss, compute_keypoints2d_loss,
      compute_smplx_global_orient_loss, compute_smplx_body_pose_loss,
      compute_smplx_jaw_pose_loss, compute_smplx_hand_pose_loss,
      compute_smplx_betas_loss, compute_smplx_expression_loss,
      compute_smplx_betas_prior_loss, compute_camera_loss; own_calls.
Qed.

Lemma keypoints3d_loss_no_flags (self : estimator) p g E :
  Lpost (compute_keypoints3d_loss self p g None) (fun l => l = zero_loss) E.
Proof.
  unfold compute_keypoints3d_loss, channel.
  destruct (has_channel 3 g); [|split; [discriminate|constructor]].
  split; [by intros l [= <-]|constructor].
Qed.

Lemma keypoints2d_loss_no_flags (self : estimator) p c g r f E :
  Lpost (compute_keypoints2d_loss weak_perspective_projection self p c g r f None)
    (fun l => l = zero_loss) E.
Proof.
  unfold compute_keypoints2d_loss, channel.
  destruct (has_channel 2 g); [|split; [discriminate|constructor]].
  split; [by intros l [= <-]|constructor].
Qed.

Ltac other_term H :=
  eapply Lpost_events; [apply H|]; intros ? ->; discriminate.

Tactic Notation "reads" integer(n) :=
  do n (eapply Lpost_bind; [apply Lpost_lift|intros ? _]).

Lemma compute_losses_no_flags3d (self : estimator) (predictions : @predictions_t F)
    (targets : @batch F Img Features) :
  has_keypoints3d targets = None -> is_Some (loss_keypoints3d self) ->
  Lpost (compute_losses_ self predictions targets)
    (fun losses => losses !! "keypoints3d_loss"%string = Some zero_loss)
    (fun ev => ev <> Forward "loss_keypoints3d").
Proof.
  intros Hhas Hloss.
  destruct (terms_call_their_module self)
    as (_ & H2d & Hgo & Hbp & Hjaw & Hhand & Hbetas & Hexp & Hprior & Hcam).
  unfold compute_losses. rewrite Hhas. reads 4.
  eapply (Lpost_bind _ _ (fun _ => True)).
  { destruct (body_model_train self); [|by apply Lpost_ret].
    eapply Lpost_bind; [by apply Lpost_invoke|intros ? _]. reads 2.
    by apply Lpost_ret. }
  intros pred_keypoints3d _. cbv zeta.
  eapply (Lpost_bind _ _ (fun d => d !! "keypoints3d_loss"%string = Some zero_loss)).
  { apply Lpost_add_term_new; [exact Hloss|].
    eapply Lpost_bind; [apply Lpost_lift|intros ? _]. apply keypoints3d_loss_no_flags. }
  intros d Hd. eapply (Lpost_bind _ _ (fun d => d !! "keypoints3d_loss"%string = Some zero_loss)).
  { apply Lpost_add_term_keep; [discriminate|exact Hd|]. reads 2. other_term H2d. }
  clear d Hd. intros d Hd. eapply (Lpost_bind _ _ (fun d => d !! "keypoints3d_loss"%string = Some zero_loss)).
  { apply Lpost_add_term_keep; [discriminate|exact Hd|]. reads 4. other_term Hgo. }
  clear d Hd. intros d Hd. eapply (Lpost_bind _ _ (fun d => d !! "keypoints3d_loss"%string = Some zero_loss)).
  { apply Lpost_add_term_keep; [discriminate|exact Hd|]. reads 4. other_term Hbp. }
  clear d Hd. intros d Hd. eapply (Lpost_bind _ _ (fun d => d !! "keypoints3d_loss"%string = Some zero_loss)).
  { apply Lpost_add_term_keep; [discriminate|exact Hd|]. reads 6. other_term Hjaw. }
  clear d Hd. intros d Hd.
  eapply (Lpost_bind _ _ (fun d => d !! "keypoints3d_loss"%string = Some zero_loss)).
  { destruct (loss_smplx_hand_pose self); [|by apply Lpost_ret]. reads 6.
    eapply Lpost_bind; [other_term Hhand|intros ? _]. cbv zeta.
    destruct (left_hand_pose _).
    - reads 5. eapply Lpost_bind; [other_term Hhand|intros ? _].
      apply Lpost_ret. by rewrite !lookup_insert_ne.
    - apply Lpost_ret. by rewrite !lookup_insert_ne. }
  clear d Hd. intros d Hd. eapply (Lpost_bind _ _ (fun d => d !! "keypoints3d_loss"%string = Some zero_loss)).
  { apply Lpost_add_term_keep; [discriminate|exact Hd|]. reads 3. other_term Hbetas. }
  clear d Hd. intros d Hd. eapply (Lpost_bind _ _ (fun d => d !! "keypoints3d_loss"%string = Some zero_loss)).
  { apply Lpost_add_term_keep; [discriminate|exact Hd|]. reads 5. other_term Hexp. }
  clear d Hd. intros d Hd. eapply (Lpost_bind _ _ (fun d => d !! "keypoints3d_loss"%string = Some zero_loss)).
  { apply Lpost_add_term_keep; [discriminate|exact Hd|]. reads 1. other_term Hprior. }
  clear d Hd. intros d Hd. eapply (Lpost_bind _ _ (fun d => d !! "keypoints3d_loss"%string = Some zero_loss)).
  { apply Lpost_add_term_keep; [discriminate|exact Hd|]. other_term Hcam. }
  clear d Hd. intros d Hd. by apply Lpost_ret.
Qed.

Lemma compute_losses_no_flags2d (self : estimator) (predictions : @predictions_t F)
    (targets : @batch F Img Features) :
  has_keypoints2d targets = None -> is_Some (loss_keypoints2d self) ->
  Lpost (compute_losses_ self predictions targets)
    (fun losses => losses !! "keypoints2d_loss"%string = Some zero_loss)
    (fun ev => ev <> Forward "loss_keypoints2d").
Proof.
  intros Hhas Hloss.
  destruct (terms_call_their_module self)
    as (H3d & _ & Hgo & Hbp & Hjaw & Hhand & Hbetas & Hexp & Hprior & Hcam).
  unfold compute_losses. rewrite Hhas. reads 4.
  eapply (Lpost_bind _ _ (fun _ => True)).
  { destruct (body_model_train self); [|by apply Lpost_ret].
    eapply Lpost_bind; [by apply Lpost_invoke|intros ? _]. reads 2.
    by apply Lpost_ret. }
  intros pred_keypoints3d _. cbv zeta.
  eapply (Lpost_bind _ _ (fun _ => True)).
  { unfold add_term. destruct (loss_keypoints3d self); [|by apply Lpost_ret].
    eapply Lpost_bind; [|intros ? _; by apply Lpost_ret].
    reads 1. other_term H3d. }
  intros d _. eapply (Lpost_bind _ _ (fun d => d !! "keypoints2d_loss"%string = Some zero_loss)).
  { apply Lpost_add_term_new; [exact Hloss|]. reads 2.
    apply keypoints2d_loss_no_flags. }
  clear d. intros d Hd. eapply (Lpost_bind _ _ (fun d => d !! "keypoints2d_loss"%string = Some zero_loss)).
  { apply Lpost_add_term_keep; [discriminate|exact Hd|]. reads 4. other_term Hgo. }
  clear d Hd. intros d Hd. eapply (Lpost_bind _ _ (fun d => d !! "keypoints2d_loss"%string = Some zero_loss)).
  { apply Lpost_add_term_keep; [discriminate|exact Hd|]. reads 4. other_term Hbp. }
  clear d Hd. intros d Hd. eapply (Lpost_bind _ _ (fun d => d !! "keypoints2d_loss"%string = Some zero_loss)).
  { apply Lpost_add_term_keep; [discriminate|exact Hd|]. reads 6. other_term Hjaw. }
  clear d Hd. intros d Hd.
  eapply (Lpost_bind _ _ (fun d => d !! "keypoints2d_loss"%string = Some zero_loss)).
  { destruct (loss_smplx_hand_pose self); [|by apply Lpost_ret]. reads 6.
    eapply Lpost_bind; [other_term Hhand|intros ? _]. cbv zeta.
    destruct (left_hand_pose _).
    - reads 5. eapply Lpost_bind; [other_term Hhand|intros ? _].
      apply Lpost_ret. by rewrite !lookup_insert_ne.
    - apply Lpost_ret. by rewrite !lookup_insert_ne. }
  clear d Hd. intros d Hd. eapply (Lpost_bind _ _ (fun d => d !! "keypoints2d_loss"%string = Some zero_loss)).
  { apply Lpost_add_term_keep; [discriminate|exact Hd|]. reads 3. other_term Hbetas. }
  clear d Hd. intros d Hd. eapply (Lpost_bind _ _ (fun d => d !! "keypoints2d_loss"%string = Some zero_loss)).
  { apply Lpost_add_term_keep; [discriminate|exact Hd|]. reads 5. other_term Hexp. }
  clear d Hd. intros d Hd. eapply (Lpost_bind _ _ (fun d => d !! "keypoints2d_loss"%string = Some zero_loss)).
  { apply Lpost_add_term_keep; [discriminate|exact Hd|]. reads 1. other_term Hprior. }
  clear d Hd. intros d Hd. eapply (Lpost_bind _ _ (fun d => d !! "keypoints2d_loss"%string = Some zero_loss)).
  { apply Lpost_add_term_keep; [discriminate|exact Hd|]. other_term Hcam. }
  clear d Hd. intros d Hd. by apply Lpost_ret.
Qed.

(** X12: targets without the flags of a keypoint term: when [has_keypoints3d]
    (or [has_keypoints2d]) is no key of the targets and the loss module of
    the term is configured, the entry of the term in the dictionary
    [compute_losses] returns is the zero loss, and the loss module of the
    term is not called, whether [compute_losses] returns or raises. *)
Theorem compute_losses_without_keypoint_flags (self : estimator)
    (predictions : @predictions_t F) (targets : @batch F Img Features) :
  (has_keypoints3d targets = None -> is_Some (loss_keypoints3d self) ->
   (forall losses, value (compute_losses_ self predictions targets) = Ok losses ->
                   losses !! "keypoints3d_loss"%string = Some zero_loss) /\
   Forward "loss_keypoints3d" ∉ calls (compute_losses_ self predictions targets)) /\
  (has_keypoints2d targets = None -> is_Some (loss_keypoints2d self) ->
   (forall losses, value (compute_losses_ self predictions targets) = Ok losses ->
                   losses !! "keypoints2d_loss"%string = Some zero_loss) /\
   Forward "loss_keypoints2d" ∉ calls (compute_losses_ self predictions targets)).
Proof.
  split; intros Hhas Hloss.
  - destruct (compute_losses_no_flags3d self predictions targets Hhas Hloss) as [Hv Hc].
    split; [exact Hv|]. rewrite List.Forall_forall in Hc.
    intros Hin. apply list_elem_of_In in Hin. by apply (Hc _ Hin).
  - destruct (compute_losses_no_flags2d self predictions targets Hhas Hloss) as [Hv Hc].
    split; [exact Hv|]. rewrite List.Forall_forall in Hc.
    intros Hin. apply list_elem_of_In in Hin. by apply (Hc _ Hin).
Qed.


Ltac raises :=
  lazymatch goal with
  | |- Lpost ?m _ _ =>
      let m' := eval cbv beta iota zeta delta [add_term] in m in
      change m with m'
  end;
  lazymatch goal with
  | |- Lpost (_ ≫= _) _ _ =>
      first
        [ eapply (Lpost_bind _ _ (fun _ => False));
          [ first [ solve [split; [intros ? H; discriminate H|by apply Forall_true]]
                  | raises ]
          | by intros ? [] ]
        | eapply (Lpost_bind _ _ (fun _ => True));
          [apply Lpost_True|intros ? _; raises] ]
  end.

Lemma compute_losses_lacking_flags (self : estimator)
    (predictions : @predictions_t F) (targets : @batch F Img Features) :
  lacks_parameter_flags self predictions targets ->
  Lpost (compute_losses_ self predictions targets) (fun _ => False) (fun _ => True).
Proof.
  intros Hlacks. unfold compute_losses.
  eapply Lpost_bind; [apply Lpost_getitem|intros pp Hpp].
  destruct Hlacks as [[[l Hl] Hhas]|[[[l Hl] Hhas]|[[[l Hl] Hhas]|[[[l Hl] Hhas]|
                     [[[l Hl] [Hleft Hhas]]|[[[l Hl] Hhas]|[[l Hl] Hhas]]]]]]];
    rewrite Hl, Hhas.
  5: { rewrite Hpp in Hleft. destruct Hleft as [lh Hlh]. cbn in Hlh. rewrite Hlh.
       raises. }
  all: raises.
Qed.

(** X13: the flags of the parameter terms must be there.  Unlike the keypoint
    terms, which take targets without [has_keypoints3d] or
    [has_keypoints2d] as targets without valid samples, a configured term
    of the global orientation, the body, jaw or hand pose, the shape or
    the expression reads its flags from the targets without a test: when
    the key is missing, [compute_losses] does not return. *)
Theorem compute_losses_needs_parameter_flags (self : estimator)
    (predictions : @predictions_t F) (targets : @batch F Img Features) :
  lacks_parameter_flags self predictions targets ->
  forall losses, value (compute_losses_ self predictions targets) <> Ok losses.
Proof.
  intros Hlacks losses Hv.
  exact (proj1 (compute_losses_lacking_flags self predictions targets Hlacks) losses Hv).
Qed.

Local Abbreviation pose_inputs_ := (pose_inputs batch_rodrigues).
Local Abbreviation part_confidences_ := (part_confidences get_keypoint_idxs_by_part).

Lemma part_confidences_gather (self : estimator) (part : string)
    (k2 : list (list (list F))) (idxs : list nat) (conf : list (list F)) :
  value (lift (get_keypoint_idxs_by_part part (convention self))) = Ok idxs ->
  value (lift (gather idxs 2 k2)) = Ok conf ->
  part_confidences_ self part k2 conf.
Proof. intros Hidxs Hconf. exists idxs. split; [exact Hidxs|by apply gather_confidence]. Qed.

Ltac open_bind H :=
  let a := fresh "a" in
  let Ha := fresh "Ha" in
  apply L_bind_Ok in H as (a & Ha & H & _); cbv beta zeta in H.

Ltac entry_from E Hl Hv :=
  let Hk := fresh "Hk" in
  apply E in Hl as [[Hk Hv]|Hl]; [try discriminate Hk|].

Lemma body_model_block (self : estimator) (pp : @pred_param_t F)
    (o : option (list (list (list F)))) :
  value match body_model_train self with
        | Some _ =>
            pred_output ← invoke "body_model_train" (body_model_train self) pp;
            pred_keypoints3d ← lift (getitem "joints" (joints pred_output));
            pred_vertices ← lift (getitem "vertices" (vertices pred_output));
            mret (Some pred_keypoints3d)
        | None => mret None
        end = Ok o ->
  o = predicted_joints self pp.
Proof.
  unfold predicted_joints. destruct (body_model_train self) as [bm|].
  - intros H. cbv iota in H. open_bind H. open_bind H. open_bind H.
    injection H as <-. cbn in Ha. cbn. rewrite Ha.
    by apply value_getitem_Ok in Ha0 as ->.
  - by intros [= <-].
Qed.

Lemma hand_entry (self : estimator) (part : string) (k2 : list (list (list F)))
    (pose_ : option pose) (gt : option (list (list (list F))))
    (has : option (list Z)) (rest : Loss -> L (gmap string (@Loss F)))
    (d' : gmap string (@Loss F)) :
  value (pred ← lift (getitem (part +:+ "_pose") pose_);
         pred ← lift (pose2rotmat batch_rodrigues pred);
         gt ← lift (getitem ("smplx_" +:+ part +:+ "_pose") gt);
         conf ← lift (get_keypoint_idxs_by_part part (convention self));
         has ← lift (getitem ("has_smplx_" +:+ part +:+ "_pose") has);
         conf ← lift (gather conf 2 k2);
         l ← compute_smplx_hand_pose_loss batch_rodrigues self pred gt has conf;
         rest l) = Ok d' ->
  exists l r g h conf,
    pose_inputs_ pose_ gt has r g h /\ part_confidences_ self part k2 conf /\
    value (compute_smplx_hand_pose_loss batch_rodrigues self r g h conf) = Ok l /\
    value (rest l) = Ok d'.
Proof.
  intros H. do 7 open_bind H.
  apply value_getitem_Ok in Ha as ->. apply value_getitem_Ok in Ha1 as ->.
  apply value_getitem_Ok in Ha3 as ->.
  exists a5, a0, a1, a3, a4. split; [by eexists|].
  split; [by eapply part_confidences_gather|]. by split.
Qed.

Lemma compute_losses_entries_inv (self : estimator) (predictions : @predictions_t F)
    (targets : @batch F Img Features) (losses : gmap string (@Loss F)) :
  value (compute_losses_ self predictions targets) = Ok losses ->
  exists pp pc k3 k2,
    pred_param predictions = Some pp /\ pred_cam predictions = Some pc /\
    keypoints3d targets = Some k3 /\ keypoints2d targets = Some k2 /\
    (forall l, losses !! "keypoints3d_loss"%string = Some l ->
       exists j, predicted_joints self pp = Some j /\
         value (compute_keypoints3d_loss self j k3 (has_keypoints3d targets)) = Ok l) /\
    (forall l, losses !! "keypoints2d_loss"%string = Some l ->
       exists j image, predicted_joints self pp = Some j /\ img targets = Some image /\
         value (compute_keypoints2d_loss weak_perspective_projection self j pc k2
                  (img_last_dim image) 5000 (has_keypoints2d targets)) = Ok l) /\
    (forall l, losses !! "smplx_global_orient"%string = Some l ->
       exists r gt has,
         pose_inputs_ (global_orient pp) (smplx_global_orient targets)
           (has_smplx_global_orient targets) r gt has /\
         value (compute_smplx_global_orient_loss batch_rodrigues self r gt has) = Ok l) /\
    (forall l, losses !! "smplx_body_pose_loss"%string = Some l ->
       exists r gt has,
         pose_inputs_ (body_pose pp) (smplx_body_pose targets)
           (has_smplx_body_pose targets) r gt has /\
         value (compute_smplx_body_pose_loss batch_rodrigues self r gt has) = Ok l) /\
    (forall l, losses !! "smplx_jaw_pose_loss"%string = Some l ->
       exists r gt has conf,
         pose_inputs_ (jaw_pose pp) (smplx_jaw_pose targets)
           (has_smplx_jaw_pose targets) r gt has /\
         part_confidences_ self "head" k2 conf /\
         value (compute_smplx_jaw_pose_loss batch_rodrigues self r gt has conf) = Ok l) /\
    (forall l, losses !! "smplx_right_hand_pose_loss"%string = Some l ->
       exists r gt has conf,
         pose_inputs_ (right_hand_pose pp) (smplx_right_hand_pose targets)
           (has_smplx_right_hand_pose targets) r gt has /\
         part_confidences_ self "right_hand" k2 conf /\
         value (compute_smplx_hand_pose_loss batch_rodrigues self r gt has conf) = Ok l) /\
    (forall l, losses !! "smplx_left_hand_pose_loss"%string = Some l ->
       exists r gt has conf,
         pose_inputs_ (left_hand_pose pp) (smplx_left_hand_pose targets)
           (has_smplx_left_hand_pose targets) r gt has /\
         part_confidences_ self "left_hand" k2 conf /\
         value (compute_smplx_hand_pose_loss batch_rodrigues self r gt has conf) = Ok l) /\
    (forall l, losses !! "smplx_betas_loss"%string = Some l ->
       exists b gt has,
         betas pp = Some b /\ smplx_betas targets = Some gt /\
         has_smplx_betas targets = Some has /\
         value (compute_smplx_betas_loss self b gt has) = Ok l) /\
    (forall l, losses !! "smplx_expression_loss"%string = Some l ->
       exists e gt has conf,
         expression pp = Some e /\ smplx_expression targets = Some gt /\
         has_smplx_expression targets = Some has /\
         part_confidences_ self "head" k2 conf /\
         value (compute_smplx_expression_loss self e gt has conf) = Ok l) /\
    (forall l, losses !! "smplx_betas_prior_loss"%string = Some l ->
       exists b, betas pp = Some b /\
         value (compute_smplx_betas_prior_loss self b) = Ok l) /\
    (forall l, losses !! "camera_loss"%string = Some l ->
       value (compute_camera_loss self pc) = Ok l).
Proof.
  intros H. unfold compute_losses in H.
  apply L_bind_Ok in H as (pp & Hpp & H & _); cbv beta in H.
  apply L_bind_Ok in H as (pc & Hpc & H & _); cbv beta in H.
  apply L_bind_Ok in H as (k3 & Hk3 & H & _); cbv beta in H.
  apply L_bind_Ok in H as (k2 & Hk2 & H & _); cbv beta in H.
  apply value_getitem_Ok in Hpp, Hpc, Hk3, Hk2.
  apply L_bind_Ok in H as (o & Ho & H & _); cbv beta zeta in H.
  apply body_model_block in Ho as ->.
  apply L_bind_Ok in H as (d1 & Hd1 & H & _); cbv beta in H.
  apply L_bind_Ok in H as (d2 & Hd2 & H & _); cbv beta in H.
  apply L_bind_Ok in H as (d3 & Hd3 & H & _); cbv beta in H.
  apply L_bind_Ok in H as (d4 & Hd4 & H & _); cbv beta in H.
  apply L_bind_Ok in H as (d5 & Hd5 & H & _); cbv beta in H.
  apply L_bind_Ok in H as (d6 & Hd6 & H & _); cbv beta in H.
  apply L_bind_Ok in H as (d7 & Hd7 & H & _); cbv beta in H.
  apply L_bind_Ok in H as (d8 & Hd8 & H & _); cbv beta in H.
  apply L_bind_Ok in H as (d9 & Hd9 & H & _); cbv beta in H.
  apply L_bind_Ok in H as (d10 & Hd10 & H & _); cbv beta in H.
  injection H as <-.
  pose proof (add_term_entry _ _ _ _ _ Hd1) as E1.
  pose proof (add_term_entry _ _ _ _ _ Hd2) as E2.
  pose proof (add_term_entry _ _ _ _ _ Hd3) as E3.
  pose proof (add_term_entry _ _ _ _ _ Hd4) as E4.
  pose proof (add_term_entry _ _ _ _ _ Hd5) as E5.
  pose proof (add_term_entry _ _ _ _ _ Hd7) as E7.
  pose proof (add_term_entry _ _ _ _ _ Hd8) as E8.
  pose proof (add_term_entry _ _ _ _ _ Hd9) as E9.
  pose proof (add_term_entry _ _ _ _ _ Hd10) as E10.
  clear Hd1 Hd2 Hd3 Hd4 Hd5 Hd7 Hd8 Hd9 Hd10.
  (* the entries of the hands *)
  assert (E6 : forall k l, d6 !! k = Some l ->
            (k = "smplx_right_hand_pose_loss"%string /\
             exists r gt has conf,
               pose_inputs_ (right_hand_pose pp) (smplx_right_hand_pose targets)
                 (has_smplx_right_hand_pose targets) r gt has /\
               part_confidences_ self "right_hand" k2 conf /\
               value (compute_smplx_hand_pose_loss batch_rodrigues self r gt has conf) = Ok l) \/
            (k = "smplx_left_hand_pose_loss"%string /\
             exists r gt has conf,
               pose_inputs_ (left_hand_pose pp) (smplx_left_hand_pose targets)
                 (has_smplx_left_hand_pose targets) r gt has /\
               part_confidences_ self "left_hand" k2 conf /\
               value (compute_smplx_hand_pose_loss batch_rodrigues self r gt has conf) = Ok l) \/
            d5 !! k = Some l).
  { destruct (loss_smplx_hand_pose self); [|injection Hd6 as <-; by auto].
    apply (hand_entry self "right_hand") in Hd6
      as (lr & rr & gr & hr & confr & Hin & Hconf & Hv & Hd6). cbv zeta in Hd6.
    destruct (left_hand_pose pp) as [left|] eqn:Hleft.
    - change (lift (pose2rotmat batch_rodrigues left))
        with (lift (getitem "left_hand_pose" (Some left)) ≫=
              fun p => lift (pose2rotmat batch_rodrigues p)) in Hd6.
      apply (hand_entry self "left_hand" k2 (Some left)) in Hd6
        as (ll & rl & gl & hl & confl & Hin' & Hconf' & Hv' & Hd6).
      injection Hd6 as <-. intros k l.
      destruct (decide (k = "smplx_left_hand_pose_loss"%string)) as [->|Hnl].
      { rewrite lookup_insert_eq. intros [= <-]. right. left.
        split; [done|]. by exists rl, gl, hl, confl. }
      rewrite lookup_insert_ne by done.
      destruct (decide (k = "smplx_right_hand_pose_loss"%string)) as [->|Hnr].
      { rewrite lookup_insert_eq. intros [= <-]. left.
        split; [done|]. by exists rr, gr, hr, confr. }
      rewrite lookup_insert_ne by done. auto.
    - injection Hd6 as <-. intros k l.
      destruct (decide (k = "smplx_right_hand_pose_loss"%string)) as [->|Hnr].
      { rewrite lookup_insert_eq. intros [= <-]. left.
        split; [done|]. by exists rr, gr, hr, confr. }
      rewrite lookup_insert_ne by done. auto. }
  clear Hd6.
  (* every entry is followed back from the dictionary that is returned to
     the empty one *)
  exists pp, pc, k3, k2. do 4 (split; [assumption|]).
  repeat match goal with |- _ /\ _ => split end; intros l Hl;
    try entry_from E10 Hl Hv; try entry_from E9 Hl Hv; try entry_from E8 Hl Hv; try entry_from E7 Hl Hv;
    try (apply E6 in Hl as [[Hk Hv]|[[Hk Hv]|Hl]];
         [try discriminate Hk|try discriminate Hk|]);
    try entry_from E5 Hl Hv; try entry_from E4 Hl Hv; try entry_from E3 Hl Hv; try entry_from E2 Hl Hv;
    try entry_from E1 Hl Hv; try (by rewrite lookup_empty in Hl);
    clear E1 E2 E3 E4 E5 E6 E7 E8 E9 E10.
  - open_bind Hv. apply value_local_Ok in Ha. by exists a.
  - open_bind Hv. open_bind Hv. apply value_local_Ok in Ha. apply value_getitem_Ok in Ha0.
    by exists a, a0.
  - do 4 open_bind Hv. apply value_getitem_Ok in Ha, Ha1, Ha2.
    exists a0, a1, a2. split; [by eexists|done].
  - do 4 open_bind Hv. apply value_getitem_Ok in Ha, Ha1, Ha2.
    exists a0, a1, a2. split; [by eexists|done].
  - do 6 open_bind Hv. apply value_getitem_Ok in Ha, Ha1, Ha3.
    exists a0, a1, a3, a4. split; [by eexists|].
    split; [by eapply part_confidences_gather|done].
  - exact Hv.
  - exact Hv.
  - do 3 open_bind Hv. apply value_getitem_Ok in Ha, Ha0, Ha1. by exists a, a0, a1.
  - do 5 open_bind Hv. apply value_getitem_Ok in Ha, Ha0, Ha2.
    exists a, a0, a2, a3. do 3 (split; [done|]).
    split; [by eapply part_confidences_gather|done].
  - open_bind Hv. apply value_getitem_Ok in Ha. by exists a.
  - exact Hv.
Qed.

(** X28: where the entries of the dictionary come from.  When [compute_losses]
    returns, every entry is what the term of its key gives on the inputs
    of this term and no other: the keypoint terms on the joints of the
    training body model, the keypoint targets and their flags (and, in 2D,
    the predicted camera and the width of the image); a pose term on the
    predicted pose of its part as rotation matrices, with the target and
    the flags of the same part; the jaw and the expression term with the
    confidences of the head keypoints, each hand term with those of its
    own hand; the shape term on the predicted and the target shape; the
    shape prior on the predicted shape; the camera term on the predicted
    camera. *)
Theorem compute_losses_entries (self : estimator) (predictions : @predictions_t F)
    (targets : @batch F Img Features) (losses : gmap string (@Loss F)) :
  value (compute_losses_ self predictions targets) = Ok losses ->
  exists pp pc k3 k2,
    pred_param predictions = Some pp /\ pred_cam predictions = Some pc /\
    keypoints3d targets = Some k3 /\ keypoints2d targets = Some k2 /\
    (forall l, losses !! "keypoints3d_loss"%string = Some l ->
       exists j, predicted_joints self pp = Some j /\
         value (compute_keypoints3d_loss self j k3 (has_keypoints3d targets)) = Ok l) /\
    (forall l, losses !! "keypoints2d_loss"%string = Some l ->
       exists j image, predicted_joints self pp = Some j /\ img targets = Some image /\
         value (compute_keypoints2d_loss weak_perspective_projection self j pc k2
                  (img_last_dim image) 5000 (has_keypoints2d targets)) = Ok l) /\
    (forall l, losses !! "smplx_global_orient"%string = Some l ->
       exists r gt has,
         pose_inputs_ (global_orient pp) (smplx_global_orient targets)
           (has_smplx_global_orient targets) r gt has /\
         value (compute_smplx_global_orient_loss batch_rodrigues self r gt has) = Ok l) /\
    (forall l, losses !! "smplx_body_pose_loss"%string = Some l ->
       exists r gt has,
         pose_inputs_ (body_pose pp) (smplx_body_pose targets)
           (has_smplx_body_pose targets) r gt has /\
         value (compute_smplx_body_pose_loss batch_rodrigues self r gt has) = Ok l) /\
    (forall l, losses !! "smplx_jaw_pose_loss"%string = Some l ->
       exists r gt has conf,
         pose_inputs_ (jaw_pose pp) (smplx_jaw_pose targets)
           (has_smplx_jaw_pose targets) r gt has /\
         part_confidences_ self "head" k2 conf /\
         value (compute_smplx_jaw_pose_loss batch_rodrigues self r gt has conf) = Ok l) /\
    (forall l, losses !! "smplx_right_hand_pose_loss"%string = Some l ->
       exists r gt has conf,
         pose_inputs_ (right_hand_pose pp) (smplx_right_hand_pose targets)
           (has_smplx_right_hand_pose targets) r gt has /\
         part_confidences_ self "right_hand" k2 conf /\
         value (compute_smplx_hand_pose_loss batch_rodrigues self r gt has conf) = Ok l) /\
    (forall l, losses !! "smplx_left_hand_pose_loss"%string = Some l ->
       exists r gt has conf,
         pose_inputs_ (left_hand_pose pp) (smplx_left_hand_pose targets)
           (has_smplx_left_hand_pose targets) r gt has /\
         part_confidences_ self "left_hand" k2 conf /\
         value (compute_smplx_hand_pose_loss batch_rodrigues self r gt has conf) = Ok l) /\
    (forall l, losses !! "smplx_betas_loss"%string = Some l ->
       exists b gt has,
         betas pp = Some b /\ smplx_betas targets = Some gt /\
         has_smplx_betas targets = Some has /\
         value (compute_smplx_betas_loss self b gt has) = Ok l) /\
    (forall l, losses !! "smplx_expression_loss"%string = Some l ->
       exists e gt has conf,
         expression pp = Some e /\ smplx_expression targets = Some gt /\
         has_smplx_expression targets = Some has /\
         part_confidences_ self "head" k2 conf /\
         value (compute_smplx_expression_loss self e gt has conf) = Ok l) /\
    (forall l, losses !! "smplx_betas_prior_loss"%string = Some l ->
       exists b, betas pp = Some b /\
         value (compute_smplx_betas_prior_loss self b) = Ok l) /\
    (forall l, losses !! "camera_loss"%string = Some l ->
       value (compute_camera_loss self pc) = Ok l).
Proof. apply compute_losses_entries_inv. Qed.

End Calls.

(** *** The properties on concrete batches *)

Lemma compute_losses_missing_key_witness :
  compute_losses rows_to_matrices project_batch no_parts (fun _ : unit => 224)
    keypoint32 no_predictions (keypoint_batch (Some [1]) (Some ()))
  = Run (Raise (KeyError "pred_param")) [].
Proof.
  apply (compute_losses_missing_key rows_to_matrices project_batch no_parts
           (fun _ => 224) keypoint32 no_predictions (keypoint_batch (Some [1]) (Some ()))).
  reflexivity.
Defined.

Lemma compute_losses_without_body_model_witness :
  compute_losses rows_to_matrices project_batch no_parts (fun _ : unit => 224)
    est32 example_predictions example_batch
  = Run (Raise (UnboundLocalError "pred_keypoints3d")) [].
Proof.
  apply compute_losses_without_body_model;
    [reflexivity|by eexists|by eexists|by eexists|by eexists|left; by eexists].
Defined.

Lemma compute_losses_keys_witness :
  exists pp, pred_param example_predictions = Some pp /\
    dom (<["camera_loss"%string := [of_Z 0]]>
           (<["keypoints3d_loss"%string := [fdiv (of_Z 3) (of_Z 4)]]>
              (∅ : gmap string (list float32))))
      = term_keys keypoint32 pp.
Proof.
  apply (compute_losses_keys rows_to_matrices project_batch no_parts
           (fun _ => 224) keypoint32 example_predictions
           (keypoint_batch (Some [1]) (Some ()))).
  vm_compute. reflexivity.
Defined.

Lemma compute_losses_without_keypoint_flags_witness :
  (forall losses,
      value (compute_losses rows_to_matrices project_batch no_parts
               (fun _ : unit => 224) keypoint32 example_predictions
               (keypoint_batch None (Some ()))) = Ok losses ->
      losses !! "keypoints3d_loss"%string = Some zero_loss) /\
  Forward "loss_keypoints3d" ∉
    calls (compute_losses rows_to_matrices project_batch no_parts
             (fun _ : unit => 224) keypoint32 example_predictions
             (keypoint_batch None (Some ()))).
Proof.
  apply (proj1 (compute_losses_without_keypoint_flags rows_to_matrices project_batch
                  no_parts (fun _ => 224) keypoint32 example_predictions
                  (keypoint_batch None (Some ()))));
    [reflexivity|by eexists].
Defined.

(** The module of the shape is configured, the head predicts a shape and
    the targets hold one, but no flags for it: reading the flags raises. *)
Lemma compute_losses_needs_parameter_flags_witness :
  compute_losses rows_to_matrices project_batch three_parts (fun _ : unit => 224)
    shape32 part_predictions (part_batch None)
  = Run (Raise (KeyError "has_smplx_betas")) [] /\
  ~ exists losses,
      value (compute_losses rows_to_matrices project_batch three_parts (fun _ : unit => 224)
               shape32 part_predictions (part_batch None)) = Ok losses.
Proof.
  split; [vm_compute; reflexivity|].
  intros [losses H]. revert H.
  apply compute_losses_needs_parameter_flags.
  do 5 right. left. split; [by eexists|reflexivity].
Defined.

(** The estimator with a body model and a weighted squared error on the
    3D keypoints: the entry of the 3D keypoints is the value of the term
    on the joints of the body model and the 3D keypoints of the targets. *)
Lemma compute_losses_entries_witness :
  exists j, predicted_joints keypoint32 example_pred_param = Some j /\
    value (compute_keypoints3d_loss keypoint32 j gt_keypoints (Some [1]))
    = Ok [fdiv (of_Z 3) (of_Z 4)].
Proof.
  assert (Hv : value (compute_losses rows_to_matrices project_batch no_parts
                        (fun _ : unit => 224) keypoint32 example_predictions
                        (keypoint_batch (Some [1]) (Some ())))
               = Ok (<["camera_loss"%string := [of_Z 0]]>
                       (<["keypoints3d_loss"%string := [fdiv (of_Z 3) (of_Z 4)]]>
                          (∅ : gmap string (list float32)))))
    by (vm_compute; reflexivity).
  destruct (compute_losses_entries _ _ _ _ _ _ _ _ Hv)
    as (pp & pc & k3 & k2 & Hpp & _ & Hk3 & _ & Hentry & _).
  injection Hpp as <-. injection Hk3 as <-.
  apply Hentry. reflexivity.
Defined.

End ComputeLossesLaws.

(* ===================================================================== *)
(** ** The weights of the confidence-weighted terms                       *)
(* ===================================================================== *)

Module ConfidenceSpec.
Import Estimator Examples MoreExamples Properties Notions EstimatorSpec ComputeLossesLaws.

Section Weights.
Context {F : Type} `{!Scalar F}.
Context {World Img Features DiscData Score LogVars : Type}.
Variable batch_rodrigues : list (list F) -> result (list (list (list F))).
Variable weak_perspective_projection :
  list (list (list F)) -> list F -> list (list F) -> result (list (list (list F))).
Variable get_keypoint_idxs_by_part : string -> string -> result (list nat).
Variable img_last_dim : Img -> Z.

Local Abbreviation T1 := (list F).
Local Abbreviation T2 := (list (list F)).
Local Abbreviation T3 := (list (list (list F))).
Local Abbreviation T4 := (list (list (list (list F)))).
Local Abbreviation estimator :=
  (@estimator F World Img Features DiscData Score LogVars).
Local Abbreviation compute_losses_ :=
  (compute_losses batch_rodrigues weak_perspective_projection
     get_keypoint_idxs_by_part img_last_dim).

(** C4, amended: what a confidence-weighted term passes as weight when it
    calls its loss module, and where [compute_losses] takes the
    confidences from.  For the 3D and 2D keypoint terms the weight is, for
    every valid sample and keypoint, the confidence of that keypoint (the
    trailing channel of the targets the term is given) replicated over the
    3 or 2 coordinates.  For the jaw pose, hand pose and expression terms
    it is, for every valid sample, the mean of the confidences the term is
    given, the same for every joint and coordinate.  In [compute_losses]
    the keypoint terms are given the targets [keypoints3d] and
    [keypoints2d], and the other terms the trailing channel of the 2D
    keypoints of the targets at the indices of the head (jaw pose and
    expression), of the right hand and of the left hand. *)
Theorem confidence_weights_passed (self : estimator) :
  (forall (pred gt : T3) has (sel : T3),
      has_channel 3 gt = true -> index_mask gt (eq_one_opt has) = Ok sel ->
      calls (compute_keypoints3d_loss self pred gt has) = [] \/
      exists P G : T3,
        compute_keypoints3d_loss self pred gt has =
          (loss ← invoke "loss_keypoints3d" (loss_keypoints3d self)
                    (P, G, joint_confidence 3 3 sel);
           mret (loss_div loss (length sel)))) /\
  (forall (pred : T3) (cam : T2) (gt : T3) (img_res focal_length : Z) has (sel : T3),
      has_channel 2 gt = true -> index_mask gt (eq_one_opt has) = Ok sel ->
      calls (compute_keypoints2d_loss weak_perspective_projection self pred cam gt
               img_res focal_length has) = [] \/
      exists P G : T3,
        compute_keypoints2d_loss weak_perspective_projection self pred cam gt
          img_res focal_length has =
          (loss ← invoke "loss_keypoints2d" (loss_keypoints2d self)
                    (P, G, joint_confidence 2 2 sel);
           mret (loss_div loss (length sel)))) /\
  (forall (pred : T4) (gt : T2) has (face_conf sel : T2),
      index_mask face_conf (eq_one has) = Ok sel ->
      calls (compute_smplx_jaw_pose_loss batch_rodrigues self pred gt has face_conf) = [] \/
      exists P G : T4,
        compute_smplx_jaw_pose_loss batch_rodrigues self pred gt has face_conf =
          invoke "loss_smplx_jaw_pose" (loss_smplx_jaw_pose self)
            (P, G, map (fun c => [[[c]]]) (part_confidence sel))) /\
  (forall (pred : T4) (gt : T3) has (hand_conf sel : T2),
      index_mask hand_conf (eq_one has) = Ok sel ->
      calls (compute_smplx_hand_pose_loss batch_rodrigues self pred gt has hand_conf) = [] \/
      exists P G : T4,
        compute_smplx_hand_pose_loss batch_rodrigues self pred gt has hand_conf =
          invoke "loss_smplx_hand_pose" (loss_smplx_hand_pose self)
            (P, G, map (fun c => replicate (dim1 pred) [[c]]) (part_confidence sel))) /\
  (forall (pred gt : T2) has (face_conf sel : T2),
      index_mask face_conf (eq_one has) = Ok sel ->
      calls (compute_smplx_expression_loss self pred gt has face_conf) = [] \/
      exists P G : T2,
        compute_smplx_expression_loss self pred gt has face_conf =
          (loss ← invoke "loss_smplx_expression" (loss_smplx_expression self)
                    (P, G, map (fun c => [c]) (part_confidence sel));
           mret (loss_div loss (length G)))) /\
  (forall (predictions : @predictions_t F) (targets : @batch F Img Features)
          (losses : gmap string (@Loss F)),
      value (compute_losses_ self predictions targets) = Ok losses ->
      exists k3 k2,
        keypoints3d targets = Some k3 /\ keypoints2d targets = Some k2 /\
        (forall l, losses !! "keypoints3d_loss"%string = Some l ->
           exists pred,
             value (compute_keypoints3d_loss self pred k3 (has_keypoints3d targets))
             = Ok l) /\
        (forall l, losses !! "keypoints2d_loss"%string = Some l ->
           exists pred cam image,
             value (compute_keypoints2d_loss weak_perspective_projection self pred cam k2
                      (img_last_dim image) 5000 (has_keypoints2d targets)) = Ok l) /\
        (forall l, losses !! "smplx_jaw_pose_loss"%string = Some l ->
           exists pred gt has idxs,
             has_smplx_jaw_pose targets = Some has /\
             get_keypoint_idxs_by_part "head" (convention self) = Ok idxs /\
             value (compute_smplx_jaw_pose_loss batch_rodrigues self pred gt has
                      (keypoint_confidences idxs k2)) = Ok l) /\
        (forall l, losses !! "smplx_right_hand_pose_loss"%string = Some l ->
           exists pred gt has idxs,
             has_smplx_right_hand_pose targets = Some has /\
             get_keypoint_idxs_by_part "right_hand" (convention self) = Ok idxs /\
             value (compute_smplx_hand_pose_loss batch_rodrigues self pred gt has
                      (keypoint_confidences idxs k2)) = Ok l) /\
        (forall l, losses !! "smplx_left_hand_pose_loss"%string = Some l ->
           exists pred gt has idxs,
             has_smplx_left_hand_pose targets = Some has /\
             get_keypoint_idxs_by_part "left_hand" (convention self) = Ok idxs /\
             value (compute_smplx_hand_pose_loss batch_rodrigues self pred gt has
                      (keypoint_confidences idxs k2)) = Ok l) /\
        (forall l, losses !! "smplx_expression_loss"%string = Some l ->
           exists pred gt has idxs,
             has_smplx_expression targets = Some has /\
             get_keypoint_idxs_by_part "head" (convention self) = Ok idxs /\
             value (compute_smplx_expression_loss self pred gt has
                      (keypoint_confidences idxs k2)) = Ok l)).
Proof.
  repeat match goal with |- _ /\ _ => split end.
  - apply keypoints3d_weight.
  - apply keypoints2d_weight.
  - apply jaw_pose_weight.
  - apply hand_pose_weight.
  - apply expression_weight.
  - intros predictions targets losses Hv.
    apply compute_losses_entries_inv in Hv
      as (pp & pc & k3 & k2 & _ & _ & Hk3 & Hk2 & H3d & H2d & _ & _ & Hjaw & Hright
          & Hleft & _ & Hexpr & _).
    exists k3, k2. split; [exact Hk3|]. split; [exact Hk2|].
    repeat match goal with |- _ /\ _ => split end; intros l Hl.
    + apply H3d in Hl as (j & _ & Hl). by exists j.
    + apply H2d in Hl as (j & image & _ & _ & Hl). by exists j, pc, image.
    + apply Hjaw in Hl as (r & gt & has & conf & (p & _ & _ & _ & Hhas)
                           & (idxs & Hidxs & ->) & Hl).
      by exists r, gt, has, idxs.
    + apply Hright in Hl as (r & gt & has & conf & (p & _ & _ & _ & Hhas)
                             & (idxs & Hidxs & ->) & Hl).
      by exists r, gt, has, idxs.
    + apply Hleft in Hl as (r & gt & has & conf & (p & _ & _ & _ & Hhas)
                            & (idxs & Hidxs & ->) & Hl).
      by exists r, gt, has, idxs.
    + apply Hexpr in Hl as (e & gt & has & conf & _ & _ & Hhas
                            & (idxs & Hidxs & ->) & Hl).
      by exists e, gt, has, idxs.
Qed.

End Weights.

(** The hand term on its own, with the confidences 0 and 1 of two
    keypoints, and [compute_losses] on targets whose 2D keypoints 0, 1 and
    2 have the confidences 0, 1 and 3 (and whose 3D keypoints have the
    confidence 7): the weights that reach the modules are 1/2 for the head
    (keypoints 0 and 1), 2 for the right hand (keypoints 1 and 2) and 3 for
    the left hand (keypoint 2). *)
Lemma confidence_weights_passed_witness :
  (calls (compute_smplx_hand_pose_loss rows_to_matrices probe32
            [[ [[of_Z 1]] ]] [[ [of_Z 0; of_Z 0; of_Z 0] ]] [1] [[of_Z 0; of_Z 1]]) = [] \/
   exists P G,
     compute_smplx_hand_pose_loss rows_to_matrices probe32
       [[ [[of_Z 1]] ]] [[ [of_Z 0; of_Z 0; of_Z 0] ]] [1] [[of_Z 0; of_Z 1]]
     = invoke "loss_smplx_hand_pose" (loss_smplx_hand_pose probe32)
         (P, G, map (fun c => replicate 1 [[c]]) (part_confidence [[of_Z 0; of_Z 1]]))) /\
  value (compute_losses rows_to_matrices project_batch three_parts (fun _ : unit => 224)
           weights32 part_predictions (part_batch (Some [1])))
  = Ok (<["smplx_jaw_pose_loss"%string := [fdiv (of_Z 1) (of_Z 2)]]>
          (<["smplx_right_hand_pose_loss"%string := [of_Z 2]]>
             (<["smplx_left_hand_pose_loss"%string := [of_Z 3]]>
                (<["smplx_expression_loss"%string := [fdiv (of_Z 1) (of_Z 2)]]>
                   (∅ : gmap string (list float32)))))) /\
  exists pred gt has idxs,
    has_smplx_right_hand_pose (part_batch (F:=float32) (Some [1])) = Some has /\
    three_parts "right_hand" (convention weights32) = Ok idxs /\
    value (compute_smplx_hand_pose_loss rows_to_matrices weights32 pred gt has
             (keypoint_confidences idxs
                [[ [of_Z 5; of_Z 5; of_Z 0]; [of_Z 5; of_Z 5; of_Z 1];
                   [of_Z 5; of_Z 5; of_Z 3] ]])) = Ok [of_Z 2].
Proof.
  assert (Hv : value (compute_losses rows_to_matrices project_batch three_parts
                        (fun _ : unit => 224) weights32 part_predictions
                        (part_batch (Some [1])))
               = Ok (<["smplx_jaw_pose_loss"%string := [fdiv (of_Z 1) (of_Z 2)]]>
                       (<["smplx_right_hand_pose_loss"%string := [of_Z 2]]>
                          (<["smplx_left_hand_pose_loss"%string := [of_Z 3]]>
                             (<["smplx_expression_loss"%string := [fdiv (of_Z 1) (of_Z 2)]]>
                                (∅ : gmap string (list float32)))))))
    by (vm_compute; reflexivity).
  destruct (confidence_weights_passed rows_to_matrices project_batch three_parts
              (fun _ : unit => 224) weights32)
    as (_ & _ & _ & Hhand & _ & Hlosses).
  split; [by apply Hhand|]. split; [exact Hv|].
  destruct (Hlosses _ _ _ Hv) as (k3 & k2 & _ & Hk2 & _ & _ & _ & Hright & _).
  injection Hk2 as <-. apply Hright. reflexivity.
Defined.

End ConfidenceSpec.

(* ===================================================================== *)
(** ** Properties of the training step                                 *)
(* ===================================================================== *)

Module TrainingLaws.
#[local] Set Warnings "-clear-no-such-hyp".
Import Estimator Examples MoreExamples Properties Notions EstimatorSpec ComputeLossesLaws.

Section Runs.
Context {World : Type}.

Lemma run_liftR_Ok {A : Type} (r : result A) (w : World) a w' t :
  run (liftR r) w = (Ok a, w', t) -> r = Ok a /\ w' = w /\ t = [].
Proof. by intros [= -> <- <-]. Qed.

Lemma run_liftL_Ok {A : Type} (l : L A) (w : World) a w' t :
  run (liftL l) w = (Ok a, w', t) -> value l = Ok a /\ w' = w /\ t = calls l.
Proof. by intros [= -> <- <-]. Qed.

Lemma run_ret_Ok {A : Type} (a0 : A) (w : World) a w' t :
  run (mret a0 : M A) w = (Ok a, w', t) -> a = a0 /\ w' = w /\ t = [].
Proof. by intros [= <- <- <-]. Qed.

Lemma run_zero_grad_of_Ok {A : Type} (name : string) (module : option A)
    (optimizer : gmap string (@optimizer_t World)) (w : World) u w' t :
  run (zero_grad_of name module optimizer) w = (Ok u, w', t) ->
  t = map ZeroGrad (name_if module name).
Proof.
  unfold zero_grad_of. destruct module; [|by intros [= _ <-]].
  intros H. apply run_bind_Ok in H as (opt & w1 & t1 & t2 & H1 & H2 & ->).
  apply run_liftR_Ok in H1 as (_ & _ & ->). by apply run_effect in H2 as ->.
Qed.

Lemma run_step_of_Ok {A : Type} (name : string) (module : option A)
    (optimizer : gmap string (@optimizer_t World)) (w : World) u w' t :
  run (step_of name module optimizer) w = (Ok u, w', t) ->
  t = map Step (name_if module name).
Proof.
  unfold step_of. destruct module; [|by intros [= _ <-]].
  intros H. apply run_bind_Ok in H as (opt & w1 & t1 & t2 & H1 & H2 & ->).
  apply run_liftR_Ok in H1 as (_ & _ & ->). by apply run_effect in H2 as ->.
Qed.

Lemma run_call_inv {A B : Type} name (f : option (A -> @net World B)) (a : A)
    (w : World) b w' t :
  run (call name f a) w = (Ok b, w', t) ->
  exists g, f = Some g /\ g a w = (Ok b, w') /\ t = [Forward name].
Proof.
  destruct f as [g|]; [|discriminate]. cbn.
  destruct (g a w) as [r w1] eqn:Hg. intros [= -> -> <-]. by exists g.
Qed.

Lemma run_method_inv {B : Type} ev (f : @net World B) (w : World) b w' t :
  run (method ev f) w = (Ok b, w', t) -> f w = (Ok b, w') /\ t = [ev].
Proof. cbn. destruct (f w) as [r w1]. by intros [= -> -> <-]. Qed.

Lemma run_effect_inv ev (f : World -> World) (w : World) u w' t :
  run (effect ev f) w = (Ok u, w', t) -> w' = f w /\ t = [ev].
Proof. by intros [= _ <- <-]. Qed.

Lemma run_invoke_inv {A B : Type} name (f : option (A -> result B)) (a : A)
    (w : World) b w' t :
  run (liftL (invoke name f a)) w = (Ok b, w', t) ->
  exists g, f = Some g /\ g a = Ok b /\ w' = w /\ t = [Forward name].
Proof.
  destruct f as [g|]; [|discriminate]. cbn. intros [= Hg <- <-]. by exists g.
Qed.

End Runs.

Section Steps.
Context {F : Type} `{!Scalar F}.
Context {World Img Features DiscData Score LogVars : Type}.
Variable batch_rodrigues : list (list F) -> result (list (list (list F))).
Variable weak_perspective_projection :
  list (list (list F)) -> list F -> list (list F) -> result (list (list (list F))).
Variable get_keypoint_idxs_by_part : string -> string -> result (list nat).
Variable img_last_dim : Img -> Z.

Local Abbreviation estimator :=
  (@estimator F World Img Features DiscData Score LogVars).
Local Abbreviation train_step_ :=
  (train_step batch_rodrigues weak_perspective_projection
     get_keypoint_idxs_by_part img_last_dim).

(** X14: the inputs of [train_step]: with a backbone the batch must hold
    ['img'], without one it must hold ['features'].  When the key is
    missing, [train_step] raises its [KeyError] before any module is
    called, and nothing has changed. *)
Theorem train_step_missing_input (self : estimator)
    (data_batch : @batch F Img Features)
    (optimizer : gmap string (@optimizer_t World)) (w : World) :
  (is_Some (backbone self) -> img data_batch = None ->
   run (train_step_ self data_batch optimizer) w = (Raise (KeyError "img"), w, [])) /\
  (backbone self = None -> features data_batch = None ->
   run (train_step_ self data_batch optimizer) w
     = (Raise (KeyError "features"), w, [])).
Proof.
  split.
  - intros [b Hb] Himg. unfold train_step. rewrite Hb, Himg. reflexivity.
  - intros Hb Hf. unfold train_step. rewrite Hb, Hf. reflexivity.
Qed.

Lemma train_step_final_phase_inv (self : estimator)
    (data_batch : @batch F Img Features)
    (optimizer : gmap string (@optimizer_t World)) (w w' : World)
    (out : @outputs F LogVars) (t : list event) :
  run (train_step_ self data_batch optimizer) w = (Ok out, w', t) ->
  exists pp t0,
    t = t0 ++
        ParseLosses (elements (term_keys self pp ∪ key_if (disc self) "adv_loss")) ::
        map ZeroGrad (optimized_modules self) ++
        Backward "loss" :: map Step (optimized_modules self) /\
    is_Some (head self) /\
    last t = Some (Step "head") /\
    first_value_len data_batch = Some (num_samples out).
Proof.
  intros H. unfold train_step in H.
  apply run_bind_Ok in H as (features & w1 & tf & ra & _ & H & ->); cbv beta in H.
  apply run_bind_Ok in H as (features' & w2 & tn & rb & _ & H & ->); cbv beta in H.
  apply run_bind_Ok in H as (predictions & w3 & th & rc & Hhead & H & ->); cbv beta in H.
  assert (Hh : is_Some (head self)).
  { destruct (head self); [by eexists|discriminate Hhead]. }
  apply run_bind_Ok in H as (targets & w4 & tp & rd & _ & H & ->); cbv beta in H.
  apply run_bind_Ok in H as (u & w5 & td & re & _ & H & ->); cbv beta in H.
  apply run_bind_Ok in H as (losses & w6 & tl & rf & Hlosses & H & ->); cbv beta in H.
  apply run_liftL_Ok in Hlosses as (Hlosses & _ & ->).
  apply (proj1 (compute_losses_dom _ _ _ _ _ _ _)) in Hlosses as (pp & Hpp & Hdom).
  apply run_bind_Ok in H as (losses' & w7 & tg & rg & Hgen & H & ->); cbv beta in H.
  assert (Hdom' : dom losses' = term_keys self pp ∪ key_if (disc self) "adv_loss").
  { destruct (disc self) as [d|].
    - apply run_bind_Ok in Hgen as (adv & w8 & tg1 & tg2 & Hgen & Hret & ->).
      apply optimize_generator_Ok in Hgen as [l ->].
      apply run_ret_Ok in Hret as (-> & _ & _).
      rewrite dom_union_L, dom_singleton_L, Hdom. unfold key_if.
      apply (comm_L (∪)).
    - apply run_ret_Ok in Hgen as (-> & _ & _). rewrite Hdom. unfold key_if.
      by rewrite (right_id_L ∅ (∪)). }
  apply run_bind_Ok in H as (parsed & w9 & tparse & ri & Hparse & H & ->); cbv beta zeta in H.
  injection Hparse as _ _ <-. rewrite Hdom'.
  apply run_bind_Ok in H as (? & wa & tz1 & rj & Hz1 & H & ->); cbv beta in H.
  apply run_zero_grad_of_Ok in Hz1 as ->.
  apply run_bind_Ok in H as (? & wb & tz2 & rk & Hz2 & H & ->); cbv beta in H.
  apply run_zero_grad_of_Ok in Hz2 as ->.
  apply run_bind_Ok in H as (? & wc & tz3 & rl & Hz3 & H & ->); cbv beta in H.
  apply run_zero_grad_of_Ok in Hz3 as ->.
  apply run_bind_Ok in H as (? & wd & tb & rm & Hb & H & ->); cbv beta in H.
  apply run_effect in Hb as ->.
  apply run_bind_Ok in H as (? & we & ts1 & rn & Hs1 & H & ->); cbv beta in H.
  apply run_step_of_Ok in Hs1 as ->.
  apply run_bind_Ok in H as (? & wf & ts2 & ro & Hs2 & H & ->); cbv beta in H.
  apply run_step_of_Ok in Hs2 as ->.
  apply run_bind_Ok in H as (? & wg & ts3 & rp & Hs3 & H & ->); cbv beta in H.
  apply run_step_of_Ok in Hs3 as ->.
  apply run_bind_Ok in H as (n & wh & tnum & rq & Hnum & H & ->); cbv beta in H.
  apply run_liftR_Ok in Hnum as (Hnum & _ & ->).
  apply run_ret_Ok in H as (-> & _ & ->).
  exists pp, (tf ++ tn ++ th ++ tp ++ td ++ calls
                (compute_losses batch_rodrigues weak_perspective_projection
                   get_keypoint_idxs_by_part img_last_dim self predictions targets) ++ tg).
  split; [|split; [exact Hh|split]].
  - unfold optimized_modules. rewrite !map_app, <- !app_assoc. cbn [app].
    by rewrite app_nil_r.
  - destruct Hh as [h Hh]. rewrite Hh. cbn [name_if map].
    rewrite !app_nil_r, !app_assoc. apply last_snoc.
  - cbn [num_samples]. by destruct (first_value_len data_batch); [injection Hnum as ->|].
Qed.

(** X15: how a run of [train_step] that returns ends: the dictionary that is
    parsed last holds the keys of the configured terms, and ["adv_loss"]
    when a discriminator is configured; then the gradients of the
    optimizers of the configured modules among backbone, neck and head are
    zeroed, the loss is propagated back once, and these optimizers step,
    each group in this order.  The head is configured, so the last call
    is the step of its optimizer. *)
Theorem train_step_final_phase (self : estimator)
    (data_batch : @batch F Img Features)
    (optimizer : gmap string (@optimizer_t World)) (w w' : World)
    (out : @outputs F LogVars) (t : list event) :
  run (train_step_ self data_batch optimizer) w = (Ok out, w', t) ->
  exists pp t0,
    t = t0 ++
        ParseLosses (elements (term_keys self pp ∪ key_if (disc self) "adv_loss")) ::
        map ZeroGrad (optimized_modules self) ++
        Backward "loss" :: map Step (optimized_modules self) /\
    is_Some (head self) /\
    last t = Some (Step "head") /\
    first_value_len data_batch = Some (num_samples out).
Proof. apply train_step_final_phase_inv. Qed.

Ltac plain :=
  unfold no_generator_update;
  split; [discriminate|intros ? ?; first [discriminate|congruence]].

Ltac mpost :=
  cbv zeta;
  lazymatch goal with
  | |- Mpost (mret _) _ _ => apply Mpost_ret; exact I
  | |- Mpost (liftR _) _ _ => apply Mpost_liftR
  | |- Mpost (liftL (invoke _ _ _)) _ _ => apply Mpost_liftL, Lpost_invoke; plain
  | |- Mpost (call _ _ _) _ _ => apply Mpost_call; plain
  | |- Mpost (method _ _) _ _ => apply Mpost_method; plain
  | |- Mpost (effect _ _) _ _ => apply Mpost_effect; plain
  | |- Mpost (set_requires_grad _ ?n _) _ _ =>
      unfold set_requires_grad; destruct n; mpost
  | |- Mpost (do_parse_losses _ _) _ _ =>
      intros ?; split; [done|constructor; [plain|constructor]]
  | |- Mpost (_ ≫= _) _ _ =>
      eapply (Mpost_bind _ _ (fun _ => True)); [mpost | intros ? _; mpost]
  end.

Lemma optimize_discrinimator_no_generator_update (self : estimator) predictions
    data_batch optimizer :
  Mpost (World:=World) (optimize_discrinimator self predictions data_batch optimizer)
    (fun _ => True) no_generator_update.
Proof. unfold optimize_discrinimator. mpost. Qed.

Lemma optimize_generator_no_generator_update (self : estimator) predictions :
  Mpost (World:=World) (optimize_generator self predictions)
    (fun _ => True) no_generator_update.
Proof. unfold optimize_generator. mpost. Qed.

Lemma zero_grad_of_no_generator_update {A : Type} name (module : option A)
    (optimizer : gmap string (@optimizer_t World)) :
  Mpost (World:=World) (zero_grad_of name module optimizer)
    (fun _ => True) no_generator_update.
Proof. unfold zero_grad_of. destruct module; mpost. Qed.

Lemma zero_grad_of_missing {A : Type} name (module : option A)
    (optimizer : gmap string (@optimizer_t World)) (Q : unit -> Prop) :
  name ∈ name_if module name -> optimizer !! name = None ->
  Mpost (World:=World) (zero_grad_of name module optimizer) Q no_generator_update.
Proof.
  intros Hin Hopt. unfold zero_grad_of.
  destruct module; [|by apply elem_of_nil in Hin].
  rewrite Hopt. intros w. split; [discriminate|constructor].
Qed.

Lemma train_step_prefix_no_generator_update (self : estimator) data_batch optimizer
    (rest : Loss * LogVars -> @M World (@outputs F LogVars)) (Q : _ -> Prop) :
  (forall parsed, Mpost (rest parsed) Q no_generator_update) ->
  Mpost (World:=World)
    (features ←
       match backbone self with
       | Some _ => image ← liftR (getitem "img" (img data_batch));
                   call "backbone" (backbone self) image
       | None => liftR (getitem "features" (features data_batch))
       end;
     features ←
       match neck self with
       | Some _ => call "neck" (neck self) features
       | None => mret features
       end;
     predictions ← call "head" (head self) features;
     targets ← method PrepareTargets (prepare_targets self data_batch);
     _ ← match disc self with
         | Some _ => optimize_discrinimator self predictions data_batch optimizer
         | None => mret ()
         end;
     losses ← liftL (compute_losses batch_rodrigues weak_perspective_projection
                       get_keypoint_idxs_by_part img_last_dim self predictions targets);
     losses ←
       match disc self with
       | Some _ => adv_loss ← optimize_generator self predictions;
                   mret (adv_loss ∪ losses)
       | None => mret losses
       end;
     parsed ← do_parse_losses self losses;
     rest parsed) Q no_generator_update.
Proof.
  intros Hrest.
  eapply (Mpost_bind _ _ (fun _ => True)).
  { destruct (backbone self); mpost. }
  intros features _. eapply (Mpost_bind _ _ (fun _ => True)).
  { destruct (neck self); mpost. }
  clear features. intros features _.
  eapply (Mpost_bind _ _ (fun _ => True)); [mpost|intros predictions _].
  eapply (Mpost_bind _ _ (fun _ => True)); [mpost|intros targets _].
  eapply (Mpost_bind _ _ (fun _ => True)).
  { destruct (disc self); [apply optimize_discrinimator_no_generator_update|mpost]. }
  intros _ _. eapply (Mpost_bind _ _ (fun _ => True)).
  { apply Mpost_liftL. eapply Lpost_weaken; [apply compute_losses_calls|done|].
    intros ev (name & -> & _). plain. }
  intros losses _. eapply (Mpost_bind _ _ (fun _ => True)).
  { destruct (disc self); [|mpost].
    eapply (Mpost_bind _ _ (fun _ => True));
      [apply optimize_generator_no_generator_update|intros ? _; mpost]. }
  clear losses. intros losses _.
  eapply (Mpost_bind _ _ (fun _ => True)); [mpost|intros parsed _].
  apply Hrest.
Qed.

(** X16: the optimizers of the modules [train_step] updates: when the
    optimizer dictionary has no entry for a module among backbone, neck
    and head that is configured, no run of [train_step] returns, and none
    propagates the loss back or steps an optimizer of these modules (a
    discriminator may have been updated before). *)
Theorem train_step_missing_optimizer (self : estimator)
    (data_batch : @batch F Img Features)
    (optimizer : gmap string (@optimizer_t World)) (w : World) (name : string) :
  name ∈ optimized_modules self -> optimizer !! name = None ->
  (forall out, result_of (train_step_ self data_batch optimizer) w <> Ok out) /\
  Forall no_generator_update (trace_of (train_step_ self data_batch optimizer) w).
Proof.
  intros Hin Hopt.
  assert (H : Mpost (World:=World) (train_step_ self data_batch optimizer)
                (fun _ => False) no_generator_update).
  { unfold train_step. apply train_step_prefix_no_generator_update.
    intros parsed. cbv zeta.
    unfold optimized_modules in Hin. rewrite !elem_of_app in Hin.
    assert (Hn : forall A (m : option A) (n : string), name ∈ name_if m n -> name = n).
    { intros A [a|] n Hn; [by apply list_elem_of_singleton in Hn|by apply elem_of_nil in Hn]. }
    destruct Hin as [Hin|[Hin|Hin]]; pose proof (Hn _ _ _ Hin) as ->.
    - eapply Mpost_bind; [by apply (zero_grad_of_missing _ _ _ (fun _ => False))|].
      by intros ? [].
    - eapply (Mpost_bind _ _ (fun _ => True));
        [apply zero_grad_of_no_generator_update|intros _ _].
      eapply Mpost_bind; [by apply (zero_grad_of_missing _ _ _ (fun _ => False))|].
      by intros ? [].
    - eapply (Mpost_bind _ _ (fun _ => True));
        [apply zero_grad_of_no_generator_update|intros _ _].
      eapply (Mpost_bind _ _ (fun _ => True));
        [apply zero_grad_of_no_generator_update|intros _ _].
      eapply Mpost_bind; [by apply (zero_grad_of_missing _ _ _ (fun _ => False))|].
      by intros ? []. }
  destruct (H w) as [Hv Hc]. split; [|exact Hc].
  intros out Hout. exact (Hv out Hout).
Qed.


Ltac mpost_with event :=
  cbv zeta;
  lazymatch goal with
  | |- Mpost (mret _) _ _ => apply Mpost_ret; exact I
  | |- Mpost (liftR _) _ _ => apply Mpost_liftR
  | |- Mpost (liftL (invoke _ _ _)) _ _ => apply Mpost_liftL, Lpost_invoke; event
  | |- Mpost (call _ _ _) _ _ => apply Mpost_call; event
  | |- Mpost (method _ _) _ _ => apply Mpost_method; event
  | |- Mpost (effect _ _) _ _ => apply Mpost_effect; event
  | |- Mpost (set_requires_grad _ ?n _) _ _ =>
      unfold set_requires_grad; destruct n; mpost_with event
  | |- Mpost (do_parse_losses _ _) _ _ =>
      intros ?; split; [done|constructor; [event|constructor]]
  | |- Mpost (_ ≫= _) _ _ =>
      eapply (Mpost_bind _ _ (fun _ => True));
        [mpost_with event | intros ? _; mpost_with event]
  end.

(** X17: the optimizer of the discriminator: when a discriminator is
    configured and the optimizer dictionary has no entry ['disc'], no run
    of [train_step] returns, and none zeroes a gradient, propagates a loss
    back or steps an optimizer: the run ends before the first update. *)
Theorem train_step_missing_disc_optimizer (self : estimator)
    (data_batch : @batch F Img Features)
    (optimizer : gmap string (@optimizer_t World)) (w : World) :
  is_Some (disc self) -> optimizer !! "disc"%string = None ->
  (forall out, result_of (train_step_ self data_batch optimizer) w <> Ok out) /\
  Forall no_update (trace_of (train_step_ self data_batch optimizer) w).
Proof.
  intros [d Hd] Hopt.
  assert (H : Mpost (World:=World) (train_step_ self data_batch optimizer)
                (fun _ => False) no_update).
  { unfold train_step. rewrite Hd.
    eapply (Mpost_bind _ _ (fun _ => True)).
    { destruct (backbone self); mpost_with ltac:(exact I). }
    intros features _. eapply (Mpost_bind _ _ (fun _ => True)).
    { destruct (neck self); mpost_with ltac:(exact I). }
    clear features. intros features _.
    eapply (Mpost_bind _ _ (fun _ => True)); [mpost_with ltac:(exact I)|intros predictions _].
    eapply (Mpost_bind _ _ (fun _ => True)); [mpost_with ltac:(exact I)|intros targets _].
    eapply (Mpost_bind _ _ (fun _ => False)); [|by intros ? []].
    unfold optimize_discrinimator. rewrite Hopt.
    do 5 (eapply (Mpost_bind _ _ (fun _ => True));
          [mpost_with ltac:(exact I)|intros ? _]).
    cbv zeta.
    do 3 (eapply (Mpost_bind _ _ (fun _ => True));
          [mpost_with ltac:(exact I)|intros ? _]).
    cbv zeta.
    eapply (Mpost_bind _ _ (fun _ => False)); [|by intros ? []].
    intros w0. split; [discriminate|constructor]. }
  destruct (H w) as [Hv Hc]. split; [|exact Hc].
  intros out Hout. exact (Hv out Hout).
Qed.

Lemma optimize_discrinimator_inv (self : estimator)
    (predictions : @predictions_t F) (data_batch : @batch F Img Features)
    (optimizer : gmap string (@optimizer_t World)) (w w' : World) (u : unit)
    (t : list event) :
  run (optimize_discrinimator self predictions data_batch optimizer) w = (Ok u, w', t) ->
  exists D A opt fake real fake_score real_score real_loss fake_loss parsed w1 w2 w3 w4 keys,
    disc self = Some D /\ loss_adv self = Some A /\
    optimizer !! "disc"%string = Some opt /\
    make_fake_data self predictions false w = (Ok fake, w1) /\
    make_real_data self data_batch w1 = (Ok real, w2) /\
    D fake w2 = (Ok fake_score, w3) /\ D real w3 = (Ok real_score, w4) /\
    A (real_score, true, true) = Ok real_loss /\
    A (fake_score, false, true) = Ok fake_loss /\
    parse_losses self {[ "real_loss"%string := real_loss; "fake_loss"%string := fake_loss ]}
      = Ok parsed /\
    w' = step opt (backward self parsed.1 (zero_grad opt w4)) /\
    keys ≡ₚ ["real_loss"; "fake_loss"]%string /\
    t = [RequiresGrad "disc" true; MakeFakeData false; MakeRealData;
         Forward "disc"; Forward "disc"; Forward "loss_adv"; Forward "loss_adv";
         ParseLosses keys; ZeroGrad "disc"; Backward "loss_disc"; Step "disc"].
Proof.
  unfold optimize_discrinimator. intros H.
  apply run_bind_Ok in H as (? & w0 & t0 & ? & Hgrad & H & ->); cbv beta in H.
  apply run_bind_Ok in H as (fake & w1 & t1 & ? & Hfake & H & ->); cbv beta in H.
  apply run_method_inv in Hfake as (Hfake & ->).
  apply run_bind_Ok in H as (real & w2 & t2 & ? & Hreal & H & ->); cbv beta in H.
  apply run_method_inv in Hreal as (Hreal & ->).
  apply run_bind_Ok in H as (fs & w3 & t3 & ? & Hfs & H & ->); cbv beta in H.
  apply run_call_inv in Hfs as (D & HD & Hfs & ->).
  apply run_bind_Ok in H as (rs & w4 & t4 & ? & Hrs & H & ->); cbv beta zeta in H.
  apply run_call_inv in Hrs as (D' & HD' & Hrs & ->).
  rewrite HD in HD'. injection HD' as <-.
  rewrite HD in Hgrad. apply run_effect_inv in Hgrad as (-> & ->).
  apply run_bind_Ok in H as (rl & w5 & t5 & ? & Hrl & H & ->); cbv beta zeta in H.
  apply run_invoke_inv in Hrl as (A & HA & Hrl & -> & ->).
  apply run_bind_Ok in H as (fl & w6 & t6 & ? & Hfl & H & ->); cbv beta zeta in H.
  apply run_invoke_inv in Hfl as (A' & HA' & Hfl & -> & ->).
  rewrite HA in HA'. injection HA' as <-.
  apply run_bind_Ok in H as (parsed & w7 & t7 & ? & Hparse & H & ->); cbv beta zeta in H.
  injection Hparse as Hparse <- <-.
  apply run_bind_Ok in H as (opt & w8 & t8 & ? & Hopt & H & ->); cbv beta in H.
  apply run_liftR_Ok in Hopt as (Hopt & -> & ->).
  apply run_bind_Ok in H as (? & w9 & t9 & ? & Hzero & H & ->); cbv beta in H.
  apply run_effect_inv in Hzero as (-> & ->).
  apply run_bind_Ok in H as (? & wa & ta & ? & Hback & H & ->); cbv beta in H.
  apply run_effect_inv in Hback as (-> & ->).
  apply run_bind_Ok in H as (opt' & wb & tb & ? & Hopt' & H & ->); cbv beta in H.
  apply run_liftR_Ok in Hopt' as (Hopt' & -> & ->).
  apply run_effect_inv in H as (-> & ->).
  assert (Hsome : optimizer !! "disc"%string = Some opt)
    by (by destruct (optimizer !! "disc"%string); [injection Hopt as ->|]).
  rewrite Hsome in Hopt'. injection Hopt' as <-.
  exists D, A, opt, fake, real, fs, rs, rl, fl, parsed, w1, w2, w3, w4.
  exists (elements (dom (<["fake_loss"%string := fl]>
                           (<["real_loss"%string := rl]> (∅ : gmap string Loss))))).
  repeat match goal with |- _ /\ _ => split end; try done.
  rewrite !dom_insert_L, dom_empty_L.
  rewrite elements_union_singleton by set_solver.
  rewrite elements_union_singleton by set_solver.
  rewrite elements_empty. apply Permutation_swap.
Qed.

(** X18: the update of the discriminator, step by step.  A run that returns
    has switched the gradients of the discriminator on, made the fake data
    without gradients and then the real data, scored the fake and then the
    real data, taken the adversarial loss of the real score with target
    real and of the fake score with target fake (both as discriminator
    losses), parsed the two losses, and zeroed the gradients, propagated
    back and stepped with the optimizer of the discriminator. *)
Theorem optimize_discrinimator_steps (self : estimator)
    (predictions : @predictions_t F) (data_batch : @batch F Img Features)
    (optimizer : gmap string (@optimizer_t World)) (w w' : World) (u : unit)
    (t : list event) :
  run (optimize_discrinimator self predictions data_batch optimizer) w = (Ok u, w', t) ->
  exists D A opt fake real fake_score real_score real_loss fake_loss parsed w1 w2 w3 w4 keys,
    disc self = Some D /\ loss_adv self = Some A /\
    optimizer !! "disc"%string = Some opt /\
    make_fake_data self predictions false w = (Ok fake, w1) /\
    make_real_data self data_batch w1 = (Ok real, w2) /\
    D fake w2 = (Ok fake_score, w3) /\ D real w3 = (Ok real_score, w4) /\
    A (real_score, true, true) = Ok real_loss /\
    A (fake_score, false, true) = Ok fake_loss /\
    parse_losses self {[ "real_loss"%string := real_loss; "fake_loss"%string := fake_loss ]}
      = Ok parsed /\
    w' = step opt (backward self parsed.1 (zero_grad opt w4)) /\
    keys ≡ₚ ["real_loss"; "fake_loss"]%string /\
    t = [RequiresGrad "disc" true; MakeFakeData false; MakeRealData;
         Forward "disc"; Forward "disc"; Forward "loss_adv"; Forward "loss_adv";
         ParseLosses keys; ZeroGrad "disc"; Backward "loss_disc"; Step "disc"].
Proof. apply optimize_discrinimator_inv. Qed.

Lemma optimize_generator_inv (self : estimator)
    (predictions : @predictions_t F) (w w' : World)
    (losses : gmap string (@Loss F)) (t : list event) :
  run (optimize_generator self predictions) w = (Ok losses, w', t) ->
  exists D A fake score loss w1,
    disc self = Some D /\ loss_adv self = Some A /\
    make_fake_data self predictions true w = (Ok fake, w1) /\
    D fake w1 = (Ok score, w') /\
    A (score, true, false) = Ok loss /\
    losses = {[ "adv_loss"%string := loss ]} /\
    t = [RequiresGrad "disc" false; MakeFakeData true; Forward "disc";
         Forward "loss_adv"].
Proof.
  unfold optimize_generator. intros H.
  apply run_bind_Ok in H as (? & w0 & t0 & ? & Hgrad & H & ->); cbv beta in H.
  apply run_bind_Ok in H as (fake & w1 & t1 & ? & Hfake & H & ->); cbv beta in H.
  apply run_method_inv in Hfake as (Hfake & ->).
  apply run_bind_Ok in H as (score & w2 & t2 & ? & Hscore & H & ->); cbv beta in H.
  apply run_call_inv in Hscore as (D & HD & Hscore & ->).
  rewrite HD in Hgrad. apply run_effect_inv in Hgrad as (-> & ->).
  apply run_bind_Ok in H as (l & w3 & t3 & ? & Hl & H & ->); cbv beta zeta in H.
  apply run_invoke_inv in Hl as (A & HA & Hl & -> & ->).
  apply run_ret_Ok in H as (-> & -> & ->).
  by exists D, A, fake, score, l, w1.
Qed.

(** X19: the adversarial term of the generator.  A run of [optimize_generator]
    that returns has switched the gradients of the discriminator off, made
    the fake data with gradients, scored it, and taken the adversarial
    loss of the score with target real, as a generator loss; it returns
    the dictionary with this loss under ["adv_loss"] and nothing else, and
    updates no optimizer. *)
Theorem optimize_generator_steps (self : estimator)
    (predictions : @predictions_t F) (w w' : World)
    (losses : gmap string (@Loss F)) (t : list event) :
  run (optimize_generator self predictions) w = (Ok losses, w', t) ->
  exists D A fake score loss w1,
    disc self = Some D /\ loss_adv self = Some A /\
    make_fake_data self predictions true w = (Ok fake, w1) /\
    D fake w1 = (Ok score, w') /\
    A (score, true, false) = Ok loss /\
    losses = {[ "adv_loss"%string := loss ]} /\
    t = [RequiresGrad "disc" false; MakeFakeData true; Forward "disc";
         Forward "loss_adv"].
Proof. apply optimize_generator_inv. Qed.

End Steps.

(** *** The properties on concrete batches *)

Lemma train_step_missing_input_witness :
  run (train_step rows_to_matrices project_batch no_parts (fun _ => 224)
         keypoint32 (keypoint_batch (Some [1]) None) example_optimizers) ()
  = (Raise (KeyError "features"), (), []).
Proof.
  apply (proj2 (train_step_missing_input rows_to_matrices project_batch no_parts
                  (fun _ => 224) keypoint32 (keypoint_batch (Some [1]) None)
                  example_optimizers ()));
    reflexivity.
Defined.

Lemma train_step_final_phase_witness :
  exists pp t0,
    [Forward "head"; PrepareTargets; Forward "body_model_train";
     Forward "loss_keypoints3d"; Forward "loss_camera";
     ParseLosses ["keypoints3d_loss"; "camera_loss"]%string;
     ZeroGrad "head"; Backward "loss"; Step "head"]
    = t0 ++
      ParseLosses (elements (term_keys keypoint32 pp ∪ key_if (disc keypoint32) "adv_loss")) ::
      map ZeroGrad (optimized_modules keypoint32) ++
      Backward "loss" :: map Step (optimized_modules keypoint32) /\
    is_Some (head keypoint32) /\
    last [Forward "head"; PrepareTargets; Forward "body_model_train";
          Forward "loss_keypoints3d"; Forward "loss_camera";
          ParseLosses ["keypoints3d_loss"; "camera_loss"]%string;
          ZeroGrad "head"; Backward "loss"; Step "head"] = Some (Step "head") /\
    first_value_len (keypoint_batch (F:=float32) (Some [1]) (Some ())) = Some 1%nat.
Proof.
  apply (train_step_final_phase rows_to_matrices project_batch no_parts
           (fun _ => 224) keypoint32 (keypoint_batch (Some [1]) (Some ()))
           example_optimizers () ()
           {| loss := [fdiv (of_Z 3) (of_Z 4)]; log_vars := (); num_samples := 1 |}).
  vm_compute. reflexivity.
Defined.

Lemma train_step_missing_optimizer_witness :
  (forall out,
      result_of (train_step rows_to_matrices project_batch no_parts (fun _ => 224)
                   keypoint32 (keypoint_batch (Some [1]) (Some ())) ∅) () <> Ok out) /\
  Forall no_generator_update
    (trace_of (train_step rows_to_matrices project_batch no_parts (fun _ => 224)
                 keypoint32 (keypoint_batch (Some [1]) (Some ())) ∅) ()).
Proof.
  apply (train_step_missing_optimizer rows_to_matrices project_batch no_parts
           (fun _ => 224) keypoint32 (keypoint_batch (Some [1]) (Some ())) ∅ ()
           "head");
    [vm_compute; apply list_elem_of_here|reflexivity].
Defined.

Lemma optimize_discrinimator_steps_witness :
  exists keys,
    keys ≡ₚ ["real_loss"; "fake_loss"]%string /\
    trace_of (optimize_discrinimator adv32 example_predictions example_batch
                example_optimizers) ()
    = [RequiresGrad "disc" true; MakeFakeData false; MakeRealData;
       Forward "disc"; Forward "disc"; Forward "loss_adv"; Forward "loss_adv";
       ParseLosses keys; ZeroGrad "disc"; Backward "loss_disc"; Step "disc"].
Proof.
  destruct (optimize_discrinimator_steps adv32 example_predictions example_batch
              example_optimizers () () ()
              (trace_of (optimize_discrinimator adv32 example_predictions example_batch
                           example_optimizers) ()))
    as (D & A & opt & fake & real & fs & rs & rl & fl & parsed & w1 & w2 & w3 & w4
        & keys & _ & _ & _ & _ & _ & _ & _ & _ & _ & _ & _ & Hkeys & Ht);
    [vm_compute; reflexivity|].
  exists keys. by split.
Defined.

Lemma optimize_generator_steps_witness :
  exists D A fake score loss w1,
    disc adv32 = Some D /\ loss_adv adv32 = Some A /\
    make_fake_data adv32 example_predictions true () = (Ok fake, w1) /\
    D fake w1 = (Ok score, ()) /\
    A (score, true, false) = Ok loss /\
    ({[ "adv_loss"%string := [of_Z 1] ]} : gmap string (list float32))
      = {[ "adv_loss"%string := loss ]} /\
    [RequiresGrad "disc" false; MakeFakeData true; Forward "disc"; Forward "loss_adv"]
    = [RequiresGrad "disc" false; MakeFakeData true; Forward "disc"; Forward "loss_adv"].
Proof.
  apply (optimize_generator_steps adv32 example_predictions () ()).
  vm_compute. reflexivity.
Defined.

Lemma train_step_missing_disc_optimizer_witness :
  (forall out,
      result_of (train_step rows_to_matrices project_batch no_parts (fun _ => 224)
                   adv32 example_batch ∅) () <> Ok out) /\
  Forall no_update
    (trace_of (train_step rows_to_matrices project_batch no_parts (fun _ => 224)
                 adv32 example_batch ∅) ()).
Proof.
  apply (train_step_missing_disc_optimizer rows_to_matrices project_batch no_parts
           (fun _ => 224) adv32 example_batch ∅ ());
    [by eexists|reflexivity].
Defined.

End TrainingLaws.

(* ===================================================================== *)
(** ** Adversarial training                                               *)
(* ===================================================================== *)

Module AdversarialSpec.
#[local] Set Warnings "-clear-no-such-hyp".
Import Estimator Examples MoreExamples Properties Notions EstimatorSpec ComputeLossesLaws
  TrainingLaws.

Section Adversarial.
Context {F : Type} `{!Scalar F}.
Context {World Img Features DiscData Score LogVars : Type}.
Variable batch_rodrigues : list (list F) -> result (list (list (list F))).
Variable weak_perspective_projection :
  list (list (list F)) -> list F -> list (list F) -> result (list (list (list F))).
Variable get_keypoint_idxs_by_part : string -> string -> result (list nat).
Variable img_last_dim : Img -> Z.

Local Abbreviation estimator :=
  (@estimator F World Img Features DiscData Score LogVars).
Local Abbreviation train_step_ :=
  (train_step batch_rodrigues weak_perspective_projection
     get_keypoint_idxs_by_part img_last_dim).
Local Abbreviation adversarial_run_ :=
  (adversarial_run batch_rodrigues weak_perspective_projection
     get_keypoint_idxs_by_part img_last_dim).

(** C6: adversarial training is run exactly when a discriminator is
    configured.  Without one, no run of [train_step], whether it returns
    or raises, makes a call of adversarial training: none touches a
    gradient flag, makes fake or real data, calls the discriminator or the
    adversarial loss, updates the discriminator, or parses a dictionary
    with an [adv_loss] entry.  With one, every run that returns has
    optimized the discriminator on the predictions of the head, after the
    targets were prepared and before the losses of the generator were
    computed, and has parsed the loss from these losses with the
    adversarial loss added under [adv_loss]. *)
Theorem train_step_adversarial_iff_disc (self : estimator)
    (data_batch : @batch F Img Features)
    (optimizer : gmap string (@optimizer_t World)) (w : World) :
  let m := train_step_ self data_batch optimizer in
  (disc self = None -> Forall not_adversarial (trace_of m w)) /\
  (is_Some (disc self) ->
     forall out w' t, run m w = (Ok out, w', t) ->
       adversarial_run_ self data_batch optimizer out t).
Proof.
  cbv zeta. split.
  - intros Hdisc.
    exact (proj2 (train_step_without_disc batch_rodrigues weak_perspective_projection
                    get_keypoint_idxs_by_part img_last_dim self data_batch optimizer
                    Hdisc w)).
  - intros [d Hd] out w' t H. unfold train_step in H. rewrite Hd in H.
    apply run_bind_Ok in H as (features & w1 & tf & ? & Hf & H & ->); cbv beta in H.
    assert (Htf : tf = map Forward (name_if (backbone self) "backbone")).
    { destruct (backbone self).
      - apply run_bind_Ok in Hf as (? & ? & ? & ? & Hg & Hc & ->).
        apply run_liftR_Ok in Hg as (_ & _ & ->). by apply run_call_Ok in Hc as ->.
      - by apply run_liftR_Ok in Hf as (_ & _ & ->). }
    subst tf. clear Hf.
    apply run_bind_Ok in H as (features' & w2 & tn & ? & Hn & H & ->); cbv beta in H.
    assert (Htn : tn = map Forward (name_if (neck self) "neck")).
    { destruct (neck self).
      - by apply run_call_Ok in Hn as ->.
      - by apply run_ret_Ok in Hn as (_ & _ & ->). }
    subst tn. clear Hn.
    apply run_bind_Ok in H as (predictions & w3 & th & ? & Hh & H & ->); cbv beta in H.
    apply run_call_inv in Hh as (h & Hhead & Hh & ->).
    apply run_bind_Ok in H as (targets & w4 & tp & ? & Hprep & H & ->); cbv beta in H.
    apply run_method_inv in Hprep as (Hprep & ->).
    apply run_bind_Ok in H as (u & w5 & td & ? & Hdisc & H & ->); cbv beta in H.
    apply optimize_discrinimator_inv in Hdisc
      as (D & A & opt & fake & real & fs & rs & rl & fl & parsed & wa & wb & wc & wd & keys
          & HD & HA & Hopt & Hfake & Hreal & Hfs & Hrs & Hrl & Hfl & Hparse & -> & Hkeys & ->).
    apply run_bind_Ok in H as (losses & w6 & tl & ? & Hlosses & H & ->); cbv beta in H.
    apply run_liftL_Ok in Hlosses as (Hlosses & -> & ->).
    pose proof (proj1 (compute_losses_calls batch_rodrigues weak_perspective_projection
                         get_keypoint_idxs_by_part img_last_dim self predictions targets)
                  losses Hlosses) as Hnoadv.
    apply run_bind_Ok in H as (losses' & w7 & tg & ? & Hgen & H & ->); cbv beta in H.
    apply run_bind_Ok in Hgen as (advd & w8 & tg1 & tg2 & Hgen & Hret & ->).
    apply optimize_generator_inv in Hgen
      as (D' & A' & gfake & score & adv & wg & HD' & HA' & Hgfake & Hscore & Hadv & -> & ->).
    apply run_ret_Ok in Hret as (-> & -> & ->).
    rewrite HD in HD'. injection HD' as <-. rewrite HA in HA'. injection HA' as <-.
    rewrite <- insert_union_singleton_l in H.
    apply run_bind_Ok in H as (parsed' & w9 & tparse & ? & Hparse' & H & ->);
      cbv beta zeta in H.
    injection Hparse' as Hparse' _ <-.
    apply run_bind_Ok in H as (? & ? & tz1 & ? & _ & H & ->); cbv beta in H.
    apply run_bind_Ok in H as (? & ? & tz2 & ? & _ & H & ->); cbv beta in H.
    apply run_bind_Ok in H as (? & ? & tz3 & ? & _ & H & ->); cbv beta in H.
    apply run_bind_Ok in H as (? & ? & tb & ? & _ & H & ->); cbv beta in H.
    apply run_bind_Ok in H as (? & ? & ts1 & ? & _ & H & ->); cbv beta in H.
    apply run_bind_Ok in H as (? & ? & ts2 & ? & _ & H & ->); cbv beta in H.
    apply run_bind_Ok in H as (? & ? & ts3 & ? & _ & H & ->); cbv beta in H.
    apply run_bind_Ok in H as (n & ? & tnum & ? & _ & H & ->); cbv beta in H.
    apply run_ret_Ok in H as (-> & _ & ->).
    exists D, A, opt, h, features', predictions, targets, fake, real, fs, rs, rl, fl,
      parsed, losses, gfake, score, adv, parsed'.
    do 9 eexists. exists keys. eexists.
    repeat match goal with |- _ /\ _ => split end; try eassumption; try done.
    rewrite !map_app. cbn [map]. rewrite <- !app_assoc. cbn [app].
    unfold discriminator_update_calls, generator_adversarial_calls.
    rewrite ?app_nil_r. cbn [app]. reflexivity.
Qed.

End Adversarial.

Lemma train_step_adversarial_iff_disc_witness :
  let out := {| loss := [of_Z 1]; log_vars := (); num_samples := 0 |} in
  let t := [Forward "head"; PrepareTargets] ++
           discriminator_update_calls ["fake_loss"; "real_loss"]%string ++
           generator_adversarial_calls ++
           [ParseLosses ["adv_loss"%string]; ZeroGrad "head"; Backward "loss";
            Step "head"] in
  run (train_step rows_to_matrices project_batch no_parts (fun _ => 224)
         adv32 example_batch example_optimizers) () = (Ok out, (), t) /\
  adversarial_run rows_to_matrices project_batch no_parts (fun _ => 224)
    adv32 example_batch example_optimizers out t.
Proof.
  cbv zeta.
  assert (Hrun : run (train_step rows_to_matrices project_batch no_parts (fun _ => 224)
                        adv32 example_batch example_optimizers) ()
                 = (Ok {| loss := [of_Z 1]; log_vars := (); num_samples := 0 |}, (),
                    [Forward "head"; PrepareTargets] ++
                    discriminator_update_calls ["fake_loss"; "real_loss"]%string ++
                    generator_adversarial_calls ++
                    [ParseLosses ["adv_loss"%string]; ZeroGrad "head"; Backward "loss";
                     Step "head"]))
    by (vm_compute; reflexivity).
  split; [exact Hrun|].
  apply (proj2 (train_step_adversarial_iff_disc rows_to_matrices project_batch no_parts
                  (fun _ => 224) adv32 example_batch example_optimizers ())
           ltac:(by eexists) _ _ _ Hrun).
Defined.

End AdversarialSpec.

(* ===================================================================== *)
(** ** Properties of the test call and of the image estimator          *)
(* ===================================================================== *)

Module InferenceLaws.
#[local] Set Warnings "-clear-no-such-hyp".
Import Estimator Examples MoreExamples Properties Notions ImageEstimator EstimatorSpec TrainingLaws.

Section Inference.
Context {F : Type} `{!Scalar F}.
Context {World Img Features D Score LogVars Idx : Type}.

Local Abbreviation estimator :=
  (@estimator F World Img Features (option D) Score LogVars).
Local Abbreviation forward_test_ :=
  (@forward_test F World Img Features D Score LogVars Idx).

Lemma image_paths_Ok (img_metas : list (gmap string string)) (paths : list string) :
  image_paths img_metas = Ok paths ->
  Forall2 (fun meta path => meta !! "image_path"%string = Some path) img_metas paths.
Proof.
  revert paths. induction img_metas as [|meta rest IH]; intros paths; cbn.
  - intros [= <-]. constructor.
  - destruct (meta !! "image_path"%string) as [p|] eqn:Hp; [|discriminate]. cbn.
    destruct (image_paths rest) as [ps|]; [|discriminate]. cbn.
    intros [= <-]. constructor; [exact Hp|by apply IH].
Qed.

(** X20: what [forward_test] returns.  In a run that returns, the features
    are those the backbone gives for the image (without a backbone, the
    features of the keyword arguments), passed through the neck when there
    is one; the head is called on them, and the test body model on the
    parameters the head predicts.  The result holds the parameters and the
    camera of the predictions the head gave, as they are, the joints and
    the vertices the body model gave for these parameters, the image path
    of every meta in the order of the metas, and the sample index of the
    keyword arguments.  The world is the one the head left. *)
Theorem forward_test_returns (self : estimator) (img : Img)
    (img_metas : list (gmap string string))
    (kwargs : @test_kwargs Features Idx) (w w' : World)
    (out : @all_preds_t F Idx) (t : list event) :
  run (forward_test_ self img img_metas kwargs) w = (Ok out, w', t) ->
  exists features0 w0 features1 w1 h predictions body_model pred_output,
    match backbone self with
    | Some b => b img w = (Ok features0, w0)
    | None => kw_features kwargs = Some features0 /\ w0 = w
    end /\
    match neck self with
    | Some n => n features0 w0 = (Ok features1, w1)
    | None => features1 = features0 /\ w1 = w0
    end /\
    head self = Some h /\ h features1 w1 = (Ok predictions, w') /\
    pred_param predictions = Some (param out) /\
    pred_cam predictions = Some (camera out) /\
    body_model_test self = Some body_model /\
    body_model (param out) = Ok pred_output /\
    joints pred_output = Some (keypoints_3d out) /\
    Estimator.vertices pred_output = Some (vertices out) /\
    Forall2 (fun meta path => meta !! "image_path"%string = Some path)
      img_metas (image_path out) /\
    kw_sample_idx kwargs = Some (image_idx out) /\
    t = map Forward (name_if (backbone self) "backbone" ++
                     name_if (neck self) "neck" ++ ["head"; "body_model_test"]%string).
Proof.
  unfold forward_test. intros H.
  assert (Hget : forall A key (o : option A) a, getitem key o = Ok a -> o = Some a).
  { intros A key [a'|] a; [by intros [= ->]|discriminate]. }
  apply run_bind_Ok in H as (features & w1 & tf & ? & Hf & H & ->); cbv beta in H.
  assert (Hb : match backbone self with
               | Some b => b img w = (Ok features, w1)
               | None => kw_features kwargs = Some features /\ w1 = w
               end /\ tf = map Forward (name_if (backbone self) "backbone")).
  { destruct (backbone self) as [b|] eqn:Hbb.
    - apply run_call_inv in Hf as (b' & [= <-] & Hf & ->). by split.
    - apply run_liftR_Ok in Hf as (Hf & -> & ->). split; [|done]. split; [|done].
      by apply Hget in Hf. }
  destruct Hb as [Hb ->]. clear Hf.
  apply run_bind_Ok in H as (features' & w2 & tn & ? & Hn & H & ->); cbv beta in H.
  assert (Hk : match neck self with
               | Some n => n features w1 = (Ok features', w2)
               | None => features' = features /\ w2 = w1
               end /\ tn = map Forward (name_if (neck self) "neck")).
  { destruct (neck self) as [n|] eqn:Hnn.
    - apply run_call_inv in Hn as (n' & [= <-] & Hn & ->). by split.
    - apply run_ret_Ok in Hn as (-> & -> & ->). by split. }
  destruct Hk as [Hk ->]. clear Hn.
  apply run_bind_Ok in H as (predictions & w3 & th & ? & Hh & H & ->); cbv beta in H.
  apply run_call_inv in Hh as (h & Hhead & Hh & ->).
  apply run_bind_Ok in H as (pp & w4 & t4 & ? & Hpp & H & ->); cbv beta in H.
  apply run_liftR_Ok in Hpp as (Hpp & -> & ->).
  apply run_bind_Ok in H as (pc & w5 & t5 & ? & Hpc & H & ->); cbv beta in H.
  apply run_liftR_Ok in Hpc as (Hpc & -> & ->).
  apply run_bind_Ok in H as (po & w6 & t6 & ? & Hpo & H & ->); cbv beta in H.
  apply run_invoke_inv in Hpo as (B & HB & Hpo & -> & ->).
  apply run_bind_Ok in H as (pv & w7 & t7 & ? & Hpv & H & ->); cbv beta in H.
  apply run_liftR_Ok in Hpv as (Hpv & -> & ->).
  apply run_bind_Ok in H as (pk & w8 & t8 & ? & Hpk & H & ->); cbv beta in H.
  apply run_liftR_Ok in Hpk as (Hpk & -> & ->).
  apply run_bind_Ok in H as (paths & w9 & t9 & ? & Hpaths & H & ->); cbv beta in H.
  apply run_liftR_Ok in Hpaths as (Hpaths & -> & ->).
  apply run_bind_Ok in H as (idx & wa & ta & ? & Hidx & H & ->); cbv beta in H.
  apply run_liftR_Ok in Hidx as (Hidx & -> & ->).
  apply run_ret_Ok in H as (-> & -> & ->).
  cbn [param camera keypoints_3d vertices image_path image_idx].
  exists features, w1, features', w2, h, predictions, B, po.
  repeat match goal with |- _ /\ _ => split end; eauto using image_paths_Ok.
  rewrite !map_app. reflexivity.
Qed.

Lemma forward_test_calls (self : estimator) (img : Img)
    (img_metas : list (gmap string string))
    (kwargs : @test_kwargs Features Idx) (w : World) :
  Forall (fun ev => ev ∈ map Forward ["backbone"; "neck"; "head"; "body_model_test"]%string)
    (trace_of (forward_test_ self img img_metas kwargs) w).
Proof.
  assert (H : Mpost (World:=World) (forward_test_ self img img_metas kwargs)
                (fun _ => True)
                (fun ev => ev ∈ map Forward ["backbone"; "neck"; "head"; "body_model_test"]%string)).
  { unfold forward_test.
    eapply (Mpost_bind _ _ (fun _ => True)).
    { destruct (backbone self); [apply Mpost_call; cbn [map]; set_solver|apply Mpost_liftR]. }
    intros features _. eapply (Mpost_bind _ _ (fun _ => True)).
    { destruct (neck self); [apply Mpost_call; cbn [map]; set_solver|by apply Mpost_ret]. }
    clear features. intros features _.
    eapply (Mpost_bind _ _ (fun _ => True)); [apply Mpost_call; cbn [map]; set_solver|intros ? _].
    do 2 (eapply (Mpost_bind _ _ (fun _ => True)); [apply Mpost_liftR|intros ? _]).
    eapply (Mpost_bind _ _ (fun _ => True));
      [apply Mpost_liftL, Lpost_invoke; cbn [map]; set_solver|intros ? _].
    do 4 (eapply (Mpost_bind _ _ (fun _ => True)); [apply Mpost_liftR|intros ? _]).
    by apply Mpost_ret. }
  exact (proj2 (H w)).
Qed.

(** X21: [forward_test] does not train: whether it returns or raises, the only
    calls it makes are forward calls of the backbone, the neck, the head
    and the test body model. *)
Theorem forward_test_only_forwards (self : estimator) (img : Img)
    (img_metas : list (gmap string string))
    (kwargs : @test_kwargs Features Idx) (w : World) :
  Forall (fun ev => ev ∈ map Forward ["backbone"; "neck"; "head"; "body_model_test"]%string)
    (trace_of (forward_test_ self img img_metas kwargs) w).
Proof. apply forward_test_calls. Qed.

(** X22: the methods of the image estimator.  [prepare_targets] gives the batch
    back and changes nothing.  The fake and the real data are [None]
    whatever the predictions and the batch are: the discriminator is only
    ever applied to [None], so neither its update nor the adversarial loss
    of the generator depends on the predictions or on the batch. *)
Theorem image_estimator_methods (self : estimator)
    (predictions predictions' : @predictions_t F)
    (data_batch data_batch' : @batch F Img Features)
    (optimizer : gmap string (@optimizer_t World)) (w : World) :
  let image_estimator := SMPLXImageBodyModelEstimator self in
  Estimator.prepare_targets image_estimator data_batch w = (Ok data_batch, w) /\
  (forall w' losses t,
      run (optimize_generator image_estimator predictions) w = (Ok losses, w', t) ->
      exists D A score loss,
        disc self = Some D /\ loss_adv self = Some A /\
        D None w = (Ok score, w') /\ A (score, true, false) = Ok loss /\
        losses = {[ "adv_loss"%string := loss ]}) /\
  run (optimize_generator image_estimator predictions) w
    = run (optimize_generator image_estimator predictions') w /\
  run (optimize_discrinimator image_estimator predictions data_batch optimizer) w
    = run (optimize_discrinimator image_estimator predictions' data_batch' optimizer) w.
Proof.
  cbv zeta. split; [reflexivity|]. split; [|split; reflexivity].
  intros w' losses t H.
  apply optimize_generator_inv in H as (D' & A & fake & score & loss & w1 & HD & HA & Hfake & Hs & Hl & -> & _).
  injection Hfake as <- <-. by exists D', A, score, loss.
Qed.

End Inference.

(** *** The properties on a concrete call *)

Lemma forward_test_returns_witness :
  exists (features0 : unit) (w0 : unit) (features1 : unit) (w1 : unit) h
         (predictions : @predictions_t float32) body_model pred_output,
    match backbone keypoint32 with
    | Some b => b () () = (Ok features0, w0)
    | None => kw_features example_kwargs = Some features0 /\ w0 = ()
    end /\
    match neck keypoint32 with
    | Some n => n features0 w0 = (Ok features1, w1)
    | None => features1 = features0 /\ w1 = w0
    end /\
    head keypoint32 = Some h /\ h features1 w1 = (Ok predictions, ()) /\
    pred_param predictions = Some example_pred_param /\
    pred_cam predictions = Some [] /\
    body_model_test keypoint32 = Some body_model /\
    body_model example_pred_param = Ok pred_output /\
    joints pred_output = Some pred_keypoints /\
    Estimator.vertices pred_output = Some [] /\
    Forall2 (fun meta path => meta !! "image_path"%string = Some path)
      example_metas ["a.jpg"; "b.jpg"]%string /\
    kw_sample_idx example_kwargs = Some 7%nat /\
    [Forward "head"; Forward "body_model_test"]
    = map Forward (name_if (backbone keypoint32) "backbone" ++
                   name_if (neck keypoint32) "neck" ++ ["head"; "body_model_test"]%string).
Proof.
  apply (forward_test_returns keypoint32 () example_metas example_kwargs () ()
           {| keypoints_3d := pred_keypoints; param := example_pred_param;
              camera := []; vertices := []; image_path := ["a.jpg"; "b.jpg"]%string;
              image_idx := 7%nat |}).
  vm_compute. reflexivity.
Defined.

End InferenceLaws.

(* ===================================================================== *)
(** ** The entry points of the estimator                                  *)
(* ===================================================================== *)

Module EntryPointsSpec.
Import Estimator Examples MoreExamples Properties Notions ImageEstimator EstimatorSpec
  TrainingLaws InferenceLaws.

Section EntryPoints.
Context {F : Type} `{!Scalar F}.
Context {World Img Features DiscData D Score LogVars Idx K : Type}.
Variable batch_rodrigues : list (list F) -> result (list (list (list F))).
Variable weak_perspective_projection :
  list (list (list F)) -> list F -> list (list F) -> result (list (list (list F))).
Variable get_keypoint_idxs_by_part : string -> string -> result (list nat).
Variable img_last_dim : Img -> Z.

Local Abbreviation train_step_ :=
  (train_step batch_rodrigues weak_perspective_projection
     get_keypoint_idxs_by_part img_last_dim).

(** C10: [forward_train] raises [NotImplementedError] for every estimator
    and every argument, from every world; it makes no call and leaves the
    world as it is.  Training goes through [train_step] only: of the
    other entry point, [forward_test], no run zeroes a gradient,
    propagates a loss back or steps an optimizer, whereas every run of
    [train_step] that returns has zeroed the gradients of the configured
    modules among backbone, neck and head, propagated the loss back and
    stepped their optimizers, the one of the head last. *)
Theorem forward_train_raises
    (self : @estimator F World Img Features DiscData Score LogVars)
    (image_self : @estimator F World Img Features (option D) Score LogVars)
    (kwargs : K) (data_batch : @batch F Img Features)
    (optimizer : gmap string (@optimizer_t World))
    (img : Img) (img_metas : list (gmap string string))
    (test_kwargs : @test_kwargs Features Idx) (w : World) :
  run (forward_train self kwargs) w =
    (Raise (NotImplementedError
       "This interface should not be used in current training schedule. Please use `train_step` for training."),
     w, []) /\
  Forall no_update (trace_of (forward_test image_self img img_metas test_kwargs) w) /\
  (forall out w' t,
      run (train_step_ self data_batch optimizer) w = (Ok out, w', t) ->
      exists t0,
        t = t0 ++ map ZeroGrad (optimized_modules self) ++
            Backward "loss" :: map Step (optimized_modules self) /\
        "head"%string ∈ optimized_modules self /\
        last t = Some (Step "head")).
Proof.
  split; [reflexivity|]. split.
  - eapply Forall_impl; [apply forward_test_calls|].
    intros ev Hev. cbn [map] in Hev.
    repeat (apply elem_of_cons in Hev as [->|Hev]; [exact I|]).
    by apply elem_of_nil in Hev.
  - intros out w' t Hrun.
    apply train_step_final_phase_inv in Hrun
      as (pp & t0 & -> & [h Hh] & Hlast & _).
    exists (t0 ++ [ParseLosses (elements (term_keys self pp ∪ key_if (disc self) "adv_loss"))]).
    split; [by rewrite <- app_assoc|]. split; [|exact Hlast].
    unfold optimized_modules. rewrite Hh, !elem_of_app. right. right.
    apply list_elem_of_here.
Qed.

End EntryPoints.

(** A call of [train_step] that returns, with its calls. *)
Lemma forward_train_raises_witness :
  exists t0,
    [Forward "head"; PrepareTargets; Forward "body_model_train";
     Forward "loss_keypoints3d"; Forward "loss_camera";
     ParseLosses ["keypoints3d_loss"; "camera_loss"]%string;
     ZeroGrad "head"; Backward "loss"; Step "head"]
    = t0 ++ map ZeroGrad (optimized_modules keypoint32) ++
      Backward "loss" :: map Step (optimized_modules keypoint32) /\
    "head"%string ∈ optimized_modules keypoint32 /\
    last [Forward "head"; PrepareTargets; Forward "body_model_train";
          Forward "loss_keypoints3d"; Forward "loss_camera";
          ParseLosses ["keypoints3d_loss"; "camera_loss"]%string;
          ZeroGrad "head"; Backward "loss"; Step "head"] = Some (Step "head").
Proof.
  apply (proj2 (proj2 (forward_train_raises (D:=unit) (Idx:=nat) (K:=unit)
                         rows_to_matrices project_batch no_parts (fun _ => 224)
                         keypoint32 keypoint32 () (keypoint_batch (Some [1]) (Some ()))
                         example_optimizers () example_metas example_kwargs ()))
           {| loss := [fdiv (of_Z 3) (of_Z 4)]; log_vars := (); num_samples := 1 |} ()).
  vm_compute. reflexivity.
Defined.

End EntryPointsSpec.

(* ===================================================================== *)
(** ** More properties of the OpenPose tables                          *)
(* ===================================================================== *)

Module OpenposeLaws.
Import Openpose.

Lemma index_of_app_l (name : string) (l1 l2 : list string) (i : nat) :
  index_of name l1 = Some i -> index_of name (l1 ++ l2) = Some i.
Proof.
  revert i. induction l1 as [|x l1 IH]; intros i; cbn; [discriminate|].
  destruct (String.eqb x name); [done|].
  destruct (index_of name l1) as [k|]; [|discriminate].
  intros [= <-]. by rewrite (IH k eq_refl).
Qed.

(** X23: the body keypoints of the tables.  The 25-keypoint table is the
    beginning of the 118-keypoint table, so a name of the former is found
    at the same position in both.  Splicing the feet into the joints at
    position 19 puts the first 25 names of the 137-keypoint table in the
    order of the 25-keypoint table, whose names are these names followed
    by ["_openpose"]. *)
Theorem openpose_body_keypoints_agree :
  take 25 OPENPOSE_118_KEYPOINTS = OPENPOSE_25_KEYPOINTS /\
  (forall name i, index_of name OPENPOSE_25_KEYPOINTS = Some i ->
                  index_of name OPENPOSE_118_KEYPOINTS = Some i) /\
  map (fun name => name +:+ "_openpose") (take 25 OPENPOSE_137_KEYPOINTS)
    = OPENPOSE_25_KEYPOINTS.
Proof.
  split; [reflexivity|]. split; [|reflexivity].
  intros name i Hi.
  rewrite <- (take_drop 25 OPENPOSE_118_KEYPOINTS).
  apply index_of_app_l. exact Hi.
Qed.

(** X24: the hand keypoints of the tables.  The 118- and the 137-keypoint
    table hold the same 42 hand names at the positions 25 to 66: the 20
    names of the left hand of the 135-keypoint table after the left wrist,
    then the 20 names of its right hand after the right wrist.  A hand
    name of the 135-keypoint table at position [i] is so found in the
    137-keypoint table at position [i + 1] (left hand) or [i + 2] (right
    hand). *)
Theorem openpose_hand_keypoints_agree :
  take 42 (drop 25 OPENPOSE_118_KEYPOINTS) = take 42 (drop 25 OPENPOSE_137_KEYPOINTS) /\
  take 42 (drop 25 OPENPOSE_137_KEYPOINTS) =
    "left_wrist" :: take 20 (drop 25 OPENPOSE_135_KEYPOINTS) ++
    "right_wrist" :: take 20 (drop 45 OPENPOSE_135_KEYPOINTS) /\
  (forall i name, (25 <= i < 45)%nat -> OPENPOSE_135_KEYPOINTS !! i = Some name ->
                  index_of name OPENPOSE_137_KEYPOINTS = Some (i + 1)%nat) /\
  (forall i name, (45 <= i < 65)%nat -> OPENPOSE_135_KEYPOINTS !! i = Some name ->
                  index_of name OPENPOSE_137_KEYPOINTS = Some (i + 2)%nat).
Proof.
  split; [reflexivity|]. split; [reflexivity|]. split.
  - intros i name [Hlo Hhi].
    do 25 (destruct i as [|i]; [lia|]).
    do 20 (destruct i as [|i]; [by intros [= <-]|]). lia.
  - intros i name [Hlo Hhi].
    do 45 (destruct i as [|i]; [lia|]).
    do 20 (destruct i as [|i]; [by intros [= <-]|]). lia.
Qed.

End OpenposeLaws.

(* ===================================================================== *)
(** ** Properties of the data settings of the SPIN configuration       *)
(* ===================================================================== *)

Module SpinPipelinesLaws.
Import SpinPipelines.

(** X25: the training and the test pipeline of the SPIN configuration hold one
    and the same list [data_keys] as the keys of their [ToTensor] step,
    while each [Collect] step holds a new list, built from the items
    [data_keys] had at that point.  So once the file has run, with
    [data_keys.remove('is_flipped')] between the two pipelines, the
    [ToTensor] step of the training pipeline has lost ['is_flipped'], and
    its [Collect] step still has it; the test pipeline has it in
    neither. *)
Theorem data_keys_shared_by_pipelines :
  exists cfg s,
    data_settings [] = Done cfg s /\
    keys_object s (train_pipeline cfg) "ToTensor" = Some (data_keys cfg) /\
    keys_object s (test_pipeline cfg) "ToTensor" = Some (data_keys cfg) /\
    keys_of s (train_pipeline cfg) "ToTensor" = Some [
      "has_smpl"; "smpl_body_pose"; "smpl_global_orient"; "smpl_betas";
      "smpl_transl"; "keypoints2d"; "keypoints2d_mask"; "keypoints3d";
      "keypoints3d_mask"; "center"; "scale"; "rotation"; "sample_idx"]%string /\
    keys_of s (train_pipeline cfg) "Collect" = Some [
      "img"; "has_smpl"; "smpl_body_pose"; "smpl_global_orient"; "smpl_betas";
      "smpl_transl"; "keypoints2d"; "keypoints2d_mask"; "keypoints3d";
      "keypoints3d_mask"; "is_flipped"; "center"; "scale"; "rotation";
      "sample_idx"]%string /\
    keys_of s (test_pipeline cfg) "ToTensor" = keys_of s (train_pipeline cfg) "ToTensor" /\
    keys_of s (test_pipeline cfg) "Collect" = Some [
      "img"; "has_smpl"; "smpl_body_pose"; "smpl_global_orient"; "smpl_betas";
      "smpl_transl"; "keypoints2d"; "keypoints2d_mask"; "keypoints3d";
      "keypoints3d_mask"; "center"; "scale"; "rotation"; "sample_idx"]%string.
Proof.
  destruct (data_settings []) as [cfg s| |] eqn:Hrun;
    [|by vm_compute in Hrun|by vm_compute in Hrun].
  exists cfg, s. split; [reflexivity|].
  vm_compute in Hrun. injection Hrun as <- <-.
  repeat split; vm_compute; reflexivity.
Qed.

End SpinPipelinesLaws.

(* ===================================================================== *)
(** ** Properties of [set_requires_grad]                               *)
(* ===================================================================== *)

Module RequiresGradLaws.
Import RequiresGrad.

Section Laws.
Context {D : Type}.

Lemma set_flag_twice (f1 f2 : bool) (p : option (parameter D)) :
  set_flag f2 <$> (set_flag f1 <$> p) = set_flag f2 <$> p.
Proof. by destruct p. Qed.

Lemma set_params_lookup (flag : bool) (params : list positive) (s : store D)
    (i : positive) :
  foldl (fun s param => alter (set_flag flag) param s) s params !! i =
    if decide (i ∈ params) then set_flag flag <$> s !! i else s !! i.
Proof.
  revert s. induction params as [|p params IH]; intros s; [reflexivity|].
  cbn [foldl]. rewrite IH.
  destruct (decide (i = p)) as [->|Hne].
  - rewrite lookup_alter_eq, set_flag_twice.
    rewrite (decide_True (P := p ∈ p :: params)) by (by left).
    by destruct (decide (p ∈ params)).
  - rewrite lookup_alter_ne by done.
    destruct (decide (i ∈ params)) as [Hin|Hnin].
    + by rewrite decide_True by (by right).
    + rewrite decide_False; [done|].
      intros Hin. apply elem_of_cons in Hin as [?|?]; contradiction.
Qed.

Lemma set_nets_lookup (flag : bool) (nets : list (option network)) (s : store D)
    (i : positive) :
  foldl (fun s net =>
           match net with
           | Some params =>
               foldl (fun s param => alter (set_flag flag) param s) s params
           | None => s
           end) s nets !! i =
    if decide (i ∈ concat (omap id nets)) then set_flag flag <$> s !! i else s !! i.
Proof.
  revert s. induction nets as [|net nets IH]; intros s; [reflexivity|].
  cbn [foldl]. rewrite IH. destruct net as [params|]; [|done].
  rewrite set_params_lookup.
  change (concat (omap id (Some params :: nets)))
    with (params ++ concat (omap id nets)).
  repeat case_decide; rewrite ?set_flag_twice; try done;
    exfalso; rewrite elem_of_app in *; tauto.
Qed.

(** X26: what [set_requires_grad] changes.  Every parameter of a network of
    [nets] that is not [None] gets the flag and keeps its values; every
    other parameter stays as it is, and no parameter is added or
    removed. *)
Theorem set_requires_grad_lookup (nets : nets_arg) (flag : bool) (s : store D)
    (i : positive) :
  set_requires_grad nets flag s !! i =
    if decide (i ∈ parameters_of nets)
    then (fun p => {| data := data p; requires_grad := flag |}) <$> s !! i
    else s !! i.
Proof. unfold set_requires_grad, parameters_of. apply set_nets_lookup. Qed.

(** X27: calls of [set_requires_grad] on the same networks: the last flag
    holds, so repeating a call changes nothing; a single network is
    treated as the list that holds it, and [None] entries are skipped. *)
Theorem set_requires_grad_last_wins (nets : nets_arg) (f1 f2 : bool) (s : store D) :
  set_requires_grad nets f2 (set_requires_grad nets f1 s) = set_requires_grad nets f2 s /\
  (forall net, set_requires_grad (Net net) f1 s = set_requires_grad (Nets [net]) f1 s) /\
  (forall l, set_requires_grad (Nets (None :: l)) f1 s = set_requires_grad (Nets l) f1 s) /\
  set_requires_grad (Net None) f1 s = s.
Proof.
  split; [|by repeat split].
  apply map_eq. intros i. unfold set_requires_grad. rewrite !set_nets_lookup.
  destruct (decide (i ∈ _)); [apply set_flag_twice|reflexivity].
Qed.

End Laws.

End RequiresGradLaws.
